(** * SmartBilling: rate engine, expression evaluator, import pipeline and
      chunk-session state machine

    A shallow embedding of [src/utils/billingLogic.ts], of the import and
    chunk-session handlers of [src/App.tsx] and of [parseBillingDocument]
    (the recognition service client), with the properties of the
    specification stated over it.

    Conventions of the embedding.
    - A JavaScript [number] is a rational ([Q]).  The rate engine computes
      with exact rationals: the rounding of binary64 is not modelled there.
      The expression evaluator rounds every result to the nearest binary64
      and has the infinities and NaN, so that [isNaN], [isFinite] and
      [rhs === 0] decide as in the source.  A number is written
      ([numberToString]) as the source writes the binary64 nearest to it.
      Numeric results are compared with [==] ([Qeq]).
    - A JavaScript string is a [string]; non-ASCII characters are their UTF-8
      bytes.  White space is the white space of [\s] and of [trim]: the six
      ASCII characters, U+00A0, U+1680, U+2000 to U+200A, U+2028, U+2029,
      U+202F, U+205F, U+3000 and U+FEFF.
    - React state is a record; a handler is a function of the values its
      closure captured at render time and of the live state it updates.
    - [crypto.randomUUID()], [Date.now()] and the date strings are inputs of
      the handlers that call them. *)

From Stdlib Require Import ZArith QArith Qround Qminmax Lqa Lia.
From Stdlib Require Import List String Ascii Bool DecimalString.
Import ListNotations.

Local Open Scope string_scope.
Local Open Scope Q_scope.

(** ** JavaScript numbers and their primitives *)

Module Js.

Definition number := Q.

(** [x > 0] *)
Definition gt0 (x : number) : bool := negb (Qle_bool x 0).

(** [x === 0] on numbers *)
Definition isZero (x : number) : bool := Qeq_bool x 0.

(** [x < 0] *)
Definition isNegative (x : number) : bool := negb (Qle_bool 0 x).

(** [Math.ceil] *)
Definition Math_ceil (x : number) : number := inject_Z (Qceiling x).

(** [Math.min] of two numbers *)
Definition Math_min (a b : number) : number := if Qle_bool a b then a else b.

(** [x || 0] on a number: the falsy number is [0]. *)
Definition orZero (x : number) : number := if isZero x then 0 else x.

(** *** Binary64

    A finite binary64 is a rational [k * 2^e] with [k] below [2^53] and [e]
    from [-1074] to [971].  A result is stored as the binary64 nearest to
    it, ties to the even [k]; from [2^1024] on there is none. *)

(** The integer nearest to [n / d], ties to even, for [0 <= n], [0 < d]. *)
Definition nearestEven (n d : Z) : Z :=
  let k := (n / d)%Z in
  let r := (n mod d)%Z in
  if (2 * r <? d)%Z then k
  else if (d <? 2 * r)%Z then (k + 1)%Z
  else if Z.even k then k else (k + 1)%Z.

(** The exponent [e] of the binary64 numbers around [n / d], for [0 < n],
    [0 < d]: [2^52 <= (n / d) / 2^e < 2^53], and [-1074] below the normal
    numbers. *)
Definition exponentOf (n d : Z) : Z :=
  let l := (Z.log2 n - Z.log2 d)%Z in
  let reached :=
    if (0 <=? l)%Z then (d * 2 ^ l <=? n)%Z else (d <=? n * 2 ^ (- l))%Z in
  Z.max (-1074) ((if reached then l else l - 1) - 52).

(** The binary64 nearest to [n / d], for [0 < n], [0 < d]; [None] when it
    is out of range. *)
Definition nearest64 (n d : Z) : option number :=
  let e := exponentOf n d in
  let m :=
    if (0 <=? e)%Z then inject_Z (nearestEven n (d * 2 ^ e) * 2 ^ e)
    else Qred (nearestEven (n * 2 ^ (- e)) d # Z.to_pos (2 ^ (- e))) in
  if Qle_bool (inject_Z (2 ^ 1024)) m then None else Some m.

(** [10^z] *)
Definition pow10 (z : Z) : number :=
  if (0 <=? z)%Z then inject_Z (10 ^ z) else 1 # Z.to_pos (10 ^ (- z)).

(** The [n] with [10^(n-1) <= v < 10^n], for [0 < v]: an estimate from the
    binary logarithms, put right where it is off by one. *)
Definition decimalExponent (v : number) : Z :=
  let e := (Z.log2 (Qnum v) - Z.log2 (Zpos (Qden v)))%Z in
  let n := (e * 30103 / 100000 + 1)%Z in
  let n := if Qle_bool (pow10 n) v then (n + 1)%Z else n in
  let n := if Qle_bool (pow10 n) v then (n + 1)%Z else n in
  let n := if Qle_bool (pow10 (n - 1)) v then n else (n - 1)%Z in
  let n := if Qle_bool (pow10 (n - 1)) v then n else (n - 1)%Z in
  n.

(** [s * 10^(n-k)] reads back as the binary64 [v]. *)
Definition readsBack (v : number) (n k s : Z) : bool :=
  let c := inject_Z s * pow10 (n - k) in
  match nearest64 (Qnum c) (Zpos (Qden c)) with
  | Some m => Qeq_bool m v
  | None => false
  end.

(** The [k] digits [s], with the exponent they are read with, of a decimal
    [s * 10^(n-k)] that reads back as [v]: of the two decimals of [k]
    digits around [v], the one that reads back, the closer of them when both
    do, the even one when they are as close. *)
Definition digitsOfLength (v : number) (n k : Z) : option (Z * Z) :=
  let t := v / pow10 (n - k) in
  let lo := Qfloor t in
  let hi := (lo + 1)%Z in
  let upper := if (hi =? 10 ^ k)%Z then (10 ^ (k - 1), n + 1)%Z else (hi, n) in
  match readsBack v n k lo, readsBack v n k hi with
  | true, true =>
      match (t - inject_Z lo) ?= (inject_Z hi - t) with
      | Lt => Some (lo, n)
      | Gt => Some upper
      | Eq => if Z.even lo then Some (lo, n) else Some upper
      end
  | true, false => Some (lo, n)
  | false, true => Some upper
  | false, false => None
  end.

(** The shortest digits that read back as [v], trying [k], [k + 1], ...;
    17 digits always do. *)
Fixpoint shortestDigits (tries : nat) (v : number) (n k : Z) : Z * Z :=
  match tries with
  | O => (Qfloor (v / pow10 (n - k)), n)
  | S tries' =>
      match digitsOfLength v n k with
      | Some r => r
      | None => shortestDigits tries' v n (k + 1)
      end
  end.

Fixpoint zeros (n : nat) : string :=
  match n with
  | O => EmptyString
  | S n' => String "0" (zeros n')
  end.

(** [Number::toString] of the number with the digits [s], read with the
    exponent [n]: the value is [0.s * 10^n]. *)
Definition writeDigits (s n : Z) : string :=
  let digits := NilZero.string_of_int (Z.to_int s) in
  let k := Z.of_nat (String.length digits) in
  if (k <=? n)%Z && (n <=? 21)%Z then digits ++ zeros (Z.to_nat (n - k))
  else if (0 <? n)%Z && (n <=? 21)%Z then
    substring 0 (Z.to_nat n) digits ++ "."
    ++ substring (Z.to_nat n) (Z.to_nat (k - n)) digits
  else if (-6 <? n)%Z && (n <=? 0)%Z then "0." ++ zeros (Z.to_nat (- n)) ++ digits
  else
    let e := (n - 1)%Z in
    let exponent :=
      (if (e <? 0)%Z then "e-" else "e+") ++ NilZero.string_of_int (Z.to_int (Z.abs e)) in
    if (k =? 1)%Z then digits ++ exponent
    else substring 0 1 digits ++ "." ++ substring 1 (Z.to_nat (k - 1)) digits ++ exponent.

(** The string a template literal substitutes for a number: the shortest
    digits that read back as its binary64, written out from [10^-6] to
    [10^21] and with an exponent elsewhere.  A number that is not a binary64
    is written as the binary64 nearest to it.  An integer below [2^53] is a
    binary64 and its digits are the shortest. *)
Definition numberToString (x : number) : string :=
  let q := Qred x in
  let n := Qnum q in
  let d := Zpos (Qden q) in
  let sign := if (n <? 0)%Z then "-" else EmptyString in
  if (d =? 1)%Z && (Z.abs n <? 2 ^ 53)%Z then NilZero.string_of_int (Z.to_int n)
  else
    match nearest64 (Z.abs n) d with
    | None => sign ++ "Infinity"
    | Some v =>
        if isZero v then "0"
        else let (s, e) := shortestDigits 17 v (decimalExponent v) 1 in sign ++ writeDigits s e
    end.

(** [Array.prototype.join] *)
Definition join (sep : string) (xs : list string) : string := String.concat sep xs.

(** [s || d] on strings: the falsy string is the empty one. *)
Definition orString (s d : string) : string := if String.eqb s EmptyString then d else s.

End Js.

Import Js.

(** ** Data model ([types.ts]) *)

Inductive ItemType := PARCEL | DOCUMENT.

Definition ItemType_eqb (a b : ItemType) : bool :=
  match a, b with
  | PARCEL, PARCEL | DOCUMENT, DOCUMENT => true
  | _, _ => false
  end.

Record BillingConfig := mkConfig {
  parcelSlab1Rate : number;
  parcelSlab2Rate : number;
  parcelSlab3Rate : number;
  documentRate : number
}.

Record BillingRow := mkRow {
  id : string;
  slNo : number;
  serialNo : string;
  description : string;
  type : ItemType;
  weight : number;
  rate : number;
  isManualRate : bool;
  amount : number;
  breakdown : string
}.

(** The argument type of [calculateRow]:
    [Omit<BillingRow,'rate'|'amount'|'breakdown'> & {rate?, isManualRate?}]. *)
Record RowInput := mkRowInput {
  in_id : string;
  in_slNo : number;
  in_serialNo : string;
  in_description : string;
  in_type : ItemType;
  in_weight : number;
  in_rate : option number;
  in_isManualRate : option bool
}.

(** A [BillingRow] passed where a [RowInput] is expected (its [amount] and
    [breakdown] are overwritten by the spread in [calculateRow]). *)
Definition asInput (r : BillingRow) : RowInput :=
  {| in_id := id r; in_slNo := slNo r; in_serialNo := serialNo r;
     in_description := description r; in_type := type r; in_weight := weight r;
     in_rate := Some (rate r); in_isManualRate := Some (isManualRate r) |}.

(** ** Rate engine ([billingLogic.ts]) *)

Record ParcelAmount := mkParcelAmount {
  total : number;
  pa_breakdown : string;
  s1w : number;
  s2w : number;
  s3w : number
}.

(** [weight > 0 ? Math.ceil(weight) : 0] *)
Definition roundedWeight (weight : number) : number :=
  if gt0 weight then Math_ceil weight else 0.

(** The template [`${w}kg*${rate}`] *)
Definition slabTerm (w r : number) : string :=
  numberToString w ++ "kg*" ++ numberToString r.

Definition calculateParcelAmount (weight : number) (config : BillingConfig) : ParcelAmount :=
  let remaining := roundedWeight weight in
  let total := 0 in
  let components := @nil string in
  (* Slab 1: first 10kg *)
  let s1w := Math_min remaining 10 in
  let '(total, components, remaining) :=
    if gt0 s1w
    then (total + s1w * parcelSlab1Rate config,
          (components ++ [slabTerm s1w (parcelSlab1Rate config)])%list,
          remaining - s1w)
    else (total, components, remaining) in
  (* Slab 2: next 100kg *)
  let '(s2w, total, components, remaining) :=
    if gt0 remaining
    then let s2w := Math_min remaining 100 in
         (s2w, total + s2w * parcelSlab2Rate config,
          (components ++ [slabTerm s2w (parcelSlab2Rate config)])%list,
          remaining - s2w)
    else (0, total, components, remaining) in
  (* Slab 3: remainder *)
  let '(s3w, total, components) :=
    if gt0 remaining
    then (remaining, total + remaining * parcelSlab3Rate config,
          (components ++ [slabTerm remaining (parcelSlab3Rate config)])%list)
    else (0, total, components) in
  {| total := total;
     pa_breakdown := orString (join " + " components) "₹0.00";
     s1w := s1w; s2w := s2w; s3w := s3w |}.

Definition calculateRow (row : RowInput) (config : BillingConfig) : BillingRow :=
  let rate0 := match in_rate row with Some r => orZero r | None => 0 end in
  let isManualRate := match in_isManualRate row with Some b => b | None => false end in
  let roundedWeight := roundedWeight (in_weight row) in
  let '(rate, amount, breakdown) :=
    if ItemType_eqb (in_type row) DOCUMENT then
      let rate := if negb isManualRate then documentRate config else rate0 in
      (rate, rate, "Flat: ₹" ++ numberToString rate)
    else
      let calc := calculateParcelAmount (in_weight row) config in
      if negb isManualRate then
        (if gt0 roundedWeight then total calc / roundedWeight else parcelSlab1Rate config,
         total calc, pa_breakdown calc)
      else
        (rate0, rate0 * roundedWeight,
         numberToString roundedWeight ++ "kg * " ++ numberToString rate0 ++ " (Manual)")
  in
  {| id := in_id row; slNo := in_slNo row; serialNo := in_serialNo row;
     description := in_description row; type := in_type row; weight := in_weight row;
     rate := rate; isManualRate := isManualRate; amount := amount;
     breakdown := breakdown |}.

Definition cfg321 : BillingConfig :=
  {| parcelSlab1Rate := 3; parcelSlab2Rate := 2; parcelSlab3Rate := 1; documentRate := 5 |}.


(** ** Expression evaluator ([billingLogic.ts], [evaluateExpression]) *)

Module Evaluator.

Definition code (c : ascii) : nat := nat_of_ascii c.

(** The white space of [\s] and of [trim] that is one byte long: tab, line
    feed, vertical tab, form feed, carriage return, space. *)
Definition isSpace (c : ascii) : bool :=
  let n := code c in ((9 <=? n) && (n <=? 13) || (n =? 32))%nat.

(** The white space that is two bytes long: U+00A0 (no-break space). *)
Definition isSpace2 (c d : ascii) : bool :=
  ((code c =? 194) && (code d =? 160))%nat.

(** The white space that is three bytes long: U+1680, U+2000 to U+200A,
    U+2028, U+2029, U+202F, U+205F, U+3000 and U+FEFF. *)
Definition isSpace3 (c d e : ascii) : bool :=
  let c := code c in
  let d := code d in
  let e := code e in
  ((c =? 225) && (d =? 154) && (e =? 128)
   || (c =? 226) && (d =? 128)
      && ((128 <=? e) && (e <=? 138) || (e =? 168) || (e =? 169) || (e =? 175))
   || (c =? 226) && (d =? 129) && (e =? 159)
   || (c =? 227) && (d =? 128) && (e =? 128)
   || (c =? 239) && (d =? 187) && (e =? 191))%nat.

(** [\d] *)
Definition isDigit (c : ascii) : bool :=
  let n := code c in ((48 <=? n) && (n <=? 57))%nat.

(** [[-+*/()]] *)
Definition isOperator (c : ascii) : bool :=
  let n := code c in
  ((n =? 45) || (n =? 43) || (n =? 42) || (n =? 47) || (n =? 40) || (n =? 41))%nat.

(** [input.replace(/\s+/g, '')] *)
Fixpoint removeSpaces (s : string) : string :=
  match s with
  | EmptyString => EmptyString
  | String c r =>
      if isSpace c then removeSpaces r
      else
        match r with
        | EmptyString => String c EmptyString
        | String d r2 =>
            if isSpace2 c d then removeSpaces r2
            else
              match r2 with
              | EmptyString => String c (removeSpaces r)
              | String e r3 =>
                  if isSpace3 c d e then removeSpaces r3 else String c (removeSpaces r)
              end
        end
  end.

(** The longest prefix of digits ([\d*]) and what follows it. *)
Fixpoint spanDigits (s : string) : string * string :=
  match s with
  | EmptyString => (EmptyString, EmptyString)
  | String c r =>
      if isDigit c then let (ds, rest) := spanDigits r in (String c ds, rest)
      else (EmptyString, s)
  end.

(** All matches of [/(\d+(\.\d+)?|[-+*/()])/g], left to right.  A match
    attempt at a character that starts none moves one character on.  The
    fuel bounds the number of attempts; [String.length s] is enough. *)
Fixpoint matchTokens (fuel : nat) (s : string) : list string :=
  match fuel with
  | O => []
  | S fuel' =>
      match s with
      | EmptyString => []
      | String c rest =>
          if isDigit c then
            let (ds, r1) := spanDigits s in
            match r1 with
            | String "."%char r2 =>
                let (fs, r3) := spanDigits r2 in
                match fs with
                | EmptyString => ds :: matchTokens fuel' r1
                | _ => (ds ++ "." ++ fs) :: matchTokens fuel' r3
                end
            | _ => ds :: matchTokens fuel' r1
            end
          else if isOperator c then String c EmptyString :: matchTokens fuel' rest
          else matchTokens fuel' rest
      end
  end.

(** [expr.match(...)]: [None] is the [null] of a string without a match. *)
Definition tokenize (expr : string) : option (list string) :=
  match matchTokens (String.length expr) expr with
  | [] => None
  | ts => Some ts
  end.

Definition digitValue (c : ascii) : Z := Z.of_nat (code c - 48).

(** The integer a string of digits denotes. *)
Definition digitsValue (ds : string) : Z :=
  fold_left (fun acc c => (acc * 10 + digitValue c)%Z) (list_ascii_of_string ds) 0%Z.

(** *** Values

    The values the arithmetic of the evaluator works on: a number, an
    infinity or [NaN].  A number is a binary64; each operation gives the
    binary64 nearest to the exact result, ties to even, and an infinity
    from [2^1024] on.  The sign of a zero is not kept: a zero divisor is
    caught by [rhs === 0], which holds of [-0] too, so no result depends on
    it. *)

Inductive value :=
| Num (q : number)
| Infinity (negative : bool)
| NaN.

(** The value an exact result is stored as. *)
Definition stored (q : number) : value :=
  if isZero q then Num 0
  else
    match nearest64 (Z.abs (Qnum q)) (Zpos (Qden q)) with
    | Some m => Num (if isNegative q then - m else m)
    | None => Infinity (isNegative q)
    end.

(** [a + b] *)
Definition add (a b : value) : value :=
  match a, b with
  | NaN, _ | _, NaN => NaN
  | Infinity s, Infinity t => if Bool.eqb s t then Infinity s else NaN
  | Infinity s, Num _ => Infinity s
  | Num _, Infinity t => Infinity t
  | Num x, Num y => stored (x + y)
  end.

(** [a - b] *)
Definition sub (a b : value) : value :=
  match a, b with
  | NaN, _ | _, NaN => NaN
  | Infinity s, Infinity t => if Bool.eqb s t then NaN else Infinity s
  | Infinity s, Num _ => Infinity s
  | Num _, Infinity t => Infinity (negb t)
  | Num x, Num y => stored (x - y)
  end.

(** [a * b] *)
Definition mul (a b : value) : value :=
  match a, b with
  | NaN, _ | _, NaN => NaN
  | Infinity s, Infinity t => Infinity (xorb s t)
  | Infinity s, Num y => if isZero y then NaN else Infinity (xorb s (isNegative y))
  | Num x, Infinity t => if isZero x then NaN else Infinity (xorb (isNegative x) t)
  | Num x, Num y => stored (x * y)
  end.

(** [a / b] for a divisor that is not zero *)
Definition div (a b : value) : value :=
  match a, b with
  | NaN, _ | _, NaN => NaN
  | Infinity _, Infinity _ => NaN
  | Infinity s, Num y => Infinity (xorb s (isNegative y))
  | Num _, Infinity _ => Num 0
  | Num x, Num y => stored (x / y)
  end.

(** [v === 0] *)
Definition isZeroValue (v : value) : bool :=
  match v with
  | Num q => isZero q
  | _ => false
  end.

(** [isFinite(v) ? v : 0] *)
Definition finiteOrZero (v : value) : number :=
  match v with
  | Num q => q
  | _ => 0
  end.

(** [parseFloat] on the strings the tokenizer produces: an unsigned decimal
    literal [digits] or [digits.digits] at the start of the string gives its
    value; a string that does not start with a digit gives [NaN]. *)
Definition parseFloat (tok : string) : value :=
  let (ds, r1) := spanDigits tok in
  match ds with
  | EmptyString => NaN
  | _ =>
      let int := inject_Z (digitsValue ds) in
      match r1 with
      | String "."%char r2 =>
          let (fs, _) := spanDigits r2 in
          stored (int + inject_Z (digitsValue fs) / inject_Z (10 ^ Z.of_nat (String.length fs)))
      | _ => stored int
      end
  end.

(** The recursive-descent parser.  [pos] is the cursor into [tokens]; each
    function returns its value and the cursor it leaves, or throws: [None]
    is the [RangeError] of a call stack that is used up.  [stack] is the
    number of nested calls of the three parsing functions that the engine
    still allows; the calls of [parseFloat] and [isNaN] return before the
    next of them and count with the call that makes them.  The two [while] loops are given as many rounds as there
    are tokens; they never need more ([expressionLoop_rounds],
    [termLoop_rounds]). *)
Section Parser.

Variable tokens : list string.

(** [pos < tokens.length && tokens[pos] === t] *)
Definition tokenIs (pos : nat) (t : string) : bool :=
  match nth_error tokens pos with
  | Some x => String.eqb x t
  | None => false
  end.

(** The body of the [while] of [parseExpression] *)
Definition addStep (op : string) (lhs rhs : value) : value :=
  if String.eqb op "+" then add lhs rhs else sub lhs rhs.

(** The body of the [while] of [parseTerm] *)
Definition mulStep (op : string) (lhs rhs : value) : value :=
  if String.eqb op "*" then mul lhs rhs
  else if isZeroValue rhs then Num 0 (* Prevent division by zero *)
  else div lhs rhs.

(** The [while] of [parseExpression], with the [parseTerm] it calls. *)
Fixpoint expressionLoop (parseTerm : nat -> option (value * nat))
    (rounds : nat) (lhs : value) (pos : nat) : option (value * nat) :=
  match rounds with
  | O => Some (lhs, pos)
  | S rounds' =>
      if tokenIs pos "+" || tokenIs pos "-" then
        let op := nth pos tokens EmptyString in
        match parseTerm (pos + 1)%nat with
        | Some (rhs, pos) => expressionLoop parseTerm rounds' (addStep op lhs rhs) pos
        | None => None
        end
      else Some (lhs, pos)
  end.

(** The [while] of [parseTerm], with the [parseFactor] it calls. *)
Fixpoint termLoop (parseFactor : nat -> option (value * nat))
    (rounds : nat) (lhs : value) (pos : nat) : option (value * nat) :=
  match rounds with
  | O => Some (lhs, pos)
  | S rounds' =>
      if tokenIs pos "*" || tokenIs pos "/" then
        let op := nth pos tokens EmptyString in
        match parseFactor (pos + 1)%nat with
        | Some (rhs, pos) => termLoop parseFactor rounds' (mulStep op lhs rhs) pos
        | None => None
        end
      else Some (lhs, pos)
  end.

Fixpoint parseExpression (stack pos : nat) : option (value * nat) :=
  match stack with
  | O => None
  | S stack' =>
      match parseTerm stack' pos with
      | Some (lhs, pos) => expressionLoop (parseTerm stack') (List.length tokens) lhs pos
      | None => None
      end
  end
with parseTerm (stack pos : nat) : option (value * nat) :=
  match stack with
  | O => None
  | S stack' =>
      match parseFactor stack' pos with
      | Some (lhs, pos) => termLoop (parseFactor stack') (List.length tokens) lhs pos
      | None => None
      end
  end
with parseFactor (stack pos : nat) : option (value * nat) :=
  match stack with
  | O => None
  | S stack' =>
      match nth_error tokens pos with
      | None => Some (Num 0, pos)                  (* pos >= tokens.length *)
      | Some token =>
          if String.eqb token "(" then
            match parseExpression stack' (pos + 1) with
            | Some (val, pos) =>
                if tokenIs pos ")" then Some (val, (pos + 1)%nat) else Some (val, pos)
            | None => None
            end
          else
            match parseFloat token with
            | NaN => Some (Num 0, (pos + 1)%nat)   (* isNaN(val) ? 0 : val *)
            | val => Some (val, (pos + 1)%nat)
            end
      end
  end.

End Parser.

(** A parsing function that never moves the cursor back. *)
Definition forward (f : nat -> option (value * nat)) : Prop :=
  forall pos v p, f pos = Some (v, p) -> (pos <= p)%nat.

(** [g] returns what [f] returns, wherever [f] returns. *)
Definition extends (f g : nat -> option (value * nat)) : Prop :=
  forall pos r, f pos = Some r -> g pos = Some r.

(** [evaluateExpression], run by an engine whose call stack has room for
    [stack] nested calls of the parsing functions.  The only statement of
    the body that can throw is a call that finds the stack used up; the
    [catch] turns that into [0]. *)
Definition evaluateExpression (stack : nat) (input : string) : number :=
  let expr := removeSpaces input in
  if String.eqb expr EmptyString then 0
  else
    match tokenize expr with
    | None => 0
    | Some tokens =>
        match parseExpression tokens stack 0 with
        | Some (result, _) => finiteOrZero result
        | None => 0                                (* catch (e) *)
        end
    end.

(** [evaluateExpression(input)], run with [stack], returns a number equal
    to [q]. *)
Definition evaluatesTo (stack : nat) (input : string) (q : number) : Prop :=
  evaluateExpression stack input == q.

(** *** The grammar of the specification

    Follows the specification, not the code:
    [Expression = Term (('+'|'-') Term)*], [Term = Factor (('*'|'/') Factor)*],
    [Factor = Number | '(' Expression ')'], over the tokens of the input. *)

Inductive Nonterminal := Expression | Term | Factor.

(** A token that is a number: it starts with a digit. *)
Definition isNumberToken (tok : string) : bool :=
  match tok with
  | String c _ => isDigit c
  | EmptyString => false
  end.

Inductive derives : Nonterminal -> list string -> Prop :=
| d_number tok : isNumberToken tok = true -> derives Factor [tok]
| d_paren ts : derives Expression ts -> derives Factor ("(" :: ts ++ [")"])
| d_factor ts : derives Factor ts -> derives Term ts
| d_mul ts1 op ts2 :
    derives Term ts1 -> op = "*" \/ op = "/" -> derives Factor ts2 ->
    derives Term (ts1 ++ op :: ts2)
| d_term ts : derives Term ts -> derives Expression ts
| d_add ts1 op ts2 :
    derives Expression ts1 -> op = "+" \/ op = "-" -> derives Term ts2 ->
    derives Expression (ts1 ++ op :: ts2).

(** An input is well formed when its tokens form an [Expression]. *)
Definition wellFormed (input : string) : Prop :=
  exists tokens,
    tokenize (removeSpaces input) = Some tokens /\ derives Expression tokens.

End Evaluator.

Import Evaluator.

(** ** Syntax trees of the evaluator's grammar

    The grammar in the comment of [evaluateExpression]:
    [Expression = Term { ('+'|'-') Term }], [Term = Factor { ('*'|'/') Factor }],
    [Factor = Number | '(' Expression ')'].  A tree lists the operands of each
    repetition in the order of the text. *)

Module Syntax.

Inductive factor :=
| FNumber (tok : string)
| FGroup (e : expression)
with termTail :=
| TDone
| TMore (op : string) (f : factor) (rest : termTail)
with term :=
| TermOf (f : factor) (rest : termTail)
with expressionTail :=
| EDone
| EMore (op : string) (t : term) (rest : expressionTail)
with expression :=
| ExpressionOf (t : term) (rest : expressionTail).

(** A number as the tokenizer produces it: digits, or digits, a dot and
    digits. *)
Definition isLiteral (tok : string) : bool :=
  let (ds, r1) := spanDigits tok in
  match ds with
  | EmptyString => false
  | String _ _ =>
      match r1 with
      | EmptyString => true
      | String "."%char r2 =>
          let (fs, r3) := spanDigits r2 in
          match fs, r3 with
          | String _ _, EmptyString => true
          | _, _ => false
          end
      | String _ _ => false
      end
  end.

(** One of the six operator characters, as a token. *)
Definition isOperatorToken (tok : string) : bool :=
  match tok with
  | String c EmptyString => isOperator c
  | _ => false
  end.

(** The text of a list of tokens, written without spaces. *)
Definition text (ts : list string) : string := fold_right String.append EmptyString ts.

(** Every token is a number or an operator, and a number is followed by an
    operator or by the end. *)
Fixpoint spaced (ts : list string) : bool :=
  match ts with
  | [] => true
  | t :: rest =>
      (isOperatorToken t
       || isLiteral t && match rest with [] => true | u :: _ => isOperatorToken u end)
      && spaced rest
  end.

(** The tokens a tree is written with. *)
Fixpoint tokensF (f : factor) : list string :=
  match f with
  | FNumber tok => [tok]
  | FGroup e => "(" :: tokensE e ++ [")"]
  end
with tokensTT (r : termTail) : list string :=
  match r with
  | TDone => []
  | TMore op f rest => op :: tokensF f ++ tokensTT rest
  end
with tokensT (t : term) : list string :=
  match t with
  | TermOf f rest => tokensF f ++ tokensTT rest
  end
with tokensET (r : expressionTail) : list string :=
  match r with
  | EDone => []
  | EMore op t rest => op :: tokensT t ++ tokensET rest
  end
with tokensE (e : expression) : list string :=
  match e with
  | ExpressionOf t rest => tokensT t ++ tokensET rest
  end.

(** The operators are those of the grammar and every number is a literal
    the tokenizer can produce. *)
Fixpoint wfF (f : factor) : bool :=
  match f with
  | FNumber tok => isLiteral tok
  | FGroup e => wfE e
  end
with wfTT (r : termTail) : bool :=
  match r with
  | TDone => true
  | TMore op f rest => (String.eqb op "*" || String.eqb op "/") && wfF f && wfTT rest
  end
with wfT (t : term) : bool :=
  match t with
  | TermOf f rest => wfF f && wfTT rest
  end
with wfET (r : expressionTail) : bool :=
  match r with
  | EDone => true
  | EMore op t rest => (String.eqb op "+" || String.eqb op "-") && wfT t && wfET rest
  end
with wfE (e : expression) : bool :=
  match e with
  | ExpressionOf t rest => wfT t && wfET rest
  end.

(** The value of a tree: operators of one level apply from left to right,
    with the arithmetic of the two loops of the parser. *)
Fixpoint valueF (f : factor) : value :=
  match f with
  | FNumber tok => match parseFloat tok with NaN => Num 0 | v => v end
  | FGroup e => valueE e
  end
with valueTT (lhs : value) (r : termTail) : value :=
  match r with
  | TDone => lhs
  | TMore op f rest => valueTT (mulStep op lhs (valueF f)) rest
  end
with valueT (t : term) : value :=
  match t with
  | TermOf f rest => valueTT (valueF f) rest
  end
with valueET (lhs : value) (r : expressionTail) : value :=
  match r with
  | EDone => lhs
  | EMore op t rest => valueET (addStep op lhs (valueT t)) rest
  end
with valueE (e : expression) : value :=
  match e with
  | ExpressionOf t rest => valueET (valueT t) rest
  end.

(** The nested calls of the parsing functions a tree takes. *)
Fixpoint framesF (f : factor) : nat :=
  match f with
  | FNumber _ => 1
  | FGroup e => S (framesE e)
  end
with framesTT (r : termTail) : nat :=
  match r with
  | TDone => 0
  | TMore _ f rest => Nat.max (framesF f) (framesTT rest)
  end
with framesT (t : term) : nat :=
  match t with
  | TermOf f rest => S (Nat.max (framesF f) (framesTT rest))
  end
with framesET (r : expressionTail) : nat :=
  match r with
  | EDone => 0
  | EMore _ t rest => Nat.max (framesT t) (framesET rest)
  end
with framesE (e : expression) : nat :=
  match e with
  | ExpressionOf t rest => S (Nat.max (framesT t) (framesET rest))
  end.

Scheme factor_ind' := Induction for factor Sort Prop
  with termTail_ind' := Induction for termTail Sort Prop
  with term_ind' := Induction for term Sort Prop
  with expressionTail_ind' := Induction for expressionTail Sort Prop
  with expression_ind' := Induction for expression Sort Prop.

Combined Scheme syntax_ind from
  factor_ind', termTail_ind', term_ind', expressionTail_ind', expression_ind'.

(** [t] is not one of the operators [a], [b]. *)
Definition neither (a b : string) (t : string) : bool :=
  negb (String.eqb t a || String.eqb t b).

(** The first token of [post], if any, is none of the four operators. *)
Definition endsOperators (post : list string) : bool :=
  match post with
  | [] => true
  | t :: _ => neither "+" "-" t && neither "*" "/" t
  end.

(** The text that may follow a number: nothing, or an operator. *)
Definition afterNumber (rest : string) : bool :=
  match rest with
  | EmptyString => true
  | String c _ => isOperator c
  end.

(** Nothing, or a list that starts with an operator. *)
Definition startsWithOperator (ts : list string) : bool :=
  match ts with [] => true | u :: _ => isOperatorToken u end.

(** No character of [s] is a digit or an operator. *)
Fixpoint noTokenChars (s : string) : bool :=
  match s with
  | EmptyString => true
  | String c r => negb (isDigit c) && negb (isOperator c) && noTokenChars r
  end.

(** [2 + 3 * (4 - 1)] *)
Definition sampleExpression : expression :=
  ExpressionOf (TermOf (FNumber "2") TDone)
    (EMore "+"
       (TermOf (FNumber "3")
          (TMore "*"
             (FGroup (ExpressionOf (TermOf (FNumber "4") TDone)
                        (EMore "-" (TermOf (FNumber "1") TDone) EDone)))
             TDone))
       EDone).

End Syntax.


(** ** Application state ([App.tsx]) *)

Record ManifestMetadata := mkMeta {
  meta_manifestNo : string;
  meta_manifestDate : string
}.

Record Folder := mkFolder {
  f_id : string;
  f_name : string;
  f_createdAt : Z
}.

Record ManifestHistory := mkManifest {
  m_id : string;
  manifestNo : string;
  manifestDate : string;
  m_rows : list BillingRow;
  m_config : BillingConfig;
  totalAmount : number;
  itemCount : Z;
  createdAt : Z;
  folderId : option string
}.

Record Image := mkImage {
  data : string;
  mimeType : string
}.

Record Chunk := mkChunk {
  chunk_id : string;
  images : list Image
}.

Inductive AiMode := ModeDefault | ModeHybrid | ModeAuto.

Record ChunkSession := mkSession {
  cs_id : string;
  cs_folderId : string;
  cs_folderName : string;
  aiMode : AiMode;
  pendingChunks : list Chunk;
  currentChunk : list Image;
  totalManifestsCaptured : Z;
  processedCount : Z;
  isProcessing : bool;
  statusLog : string
}.

Inductive StatusType := st_success | st_info | st_error | st_warning.

Record Status := mkStatus {
  st_type : StatusType;
  st_message : string
}.

Record BulkImportStatus := mkBulkStatus {
  fileName : string;
  bulk_status : StatusType;
  bulk_message : string
}.

Inductive View := dashboard | billing.

Record ImportConflict := mkConflict {
  existing : ManifestHistory;
  newCandidate : ManifestHistory
}.

(** The [useState] cells of [App] that the modelled handlers read or
    write. *)
Record AppState := mkApp {
  history : list ManifestHistory;
  recycleBin : list ManifestHistory;
  folders : list Folder;
  currentFolderId : option string;
  activeManifestId : option string;
  rows : list BillingRow;
  config : BillingConfig;
  manifestMeta : ManifestMetadata;
  globalConfig : BillingConfig;
  view : View;
  status : option Status;
  isUploadModalOpen : bool;
  importConflict : option ImportConflict;
  bulkImportFolderId : string;
  bulkImportNewFolderName : string;
  bulkImportResults : list BulkImportStatus;
  chunkSession : option ChunkSession;
  chunkAiMode : AiMode
}.

(** *** The recognition service, as [parseBillingDocument] sees it *)

Inductive Tier := FAST | ACCURATE | FALLBACK.

Record RecognizedItem := mkItem {
  it_slNo : option number;
  it_serialNo : option string;
  it_description : option string;
  it_type : option string;
  it_weight : option number
}.

Record Recognition := mkRecognition {
  r_manifestNo : option string;
  r_manifestDate : option string;
  r_items : option (list RecognizedItem)
}.

(** What one [callModel] does: it throws, or it returns a response whose
    text is JSON for a [Recognition] ([Some]) or is not JSON ([None]). *)
Inductive ModelOutcome :=
| ModelThrows
| ModelResponds (parsed : option Recognition).

(** *** Imported JSON *)

(** The [rows] member of a parsed manifest file: missing or falsy, truthy
    but no array, or an array of rows. *)
Inductive JsonRows :=
| RowsAbsent
| RowsNotArray
| RowsArray (rs : list RowInput).

Record ManifestJson := mkJson {
  j_manifestNo : option string;
  j_manifestDate : option string;
  j_rows : JsonRows;
  j_config : option BillingConfig
}.

(** A file handed to an import handler: its name and the outcome of
    [JSON.parse] on its text ([None] when that throws). *)
Record JsonFile := mkFile {
  file_name : string;
  file_json : option ManifestJson
}.

(** *** The world around the component *)

(** What the handlers obtain from outside: the [n]-th result of
    [crypto.randomUUID()], the [n]-th reading of the clock ([Date.now()],
    and the locale date and time strings of [new Date()]), and the outcome of
    the [n]-th [callModel]. *)
Record Env := mkEnv {
  uuidAt : nat -> string;
  nowAt : nat -> Z;
  dateAt : nat -> string;
  timeAt : nat -> string;
  modelAt : nat -> Tier -> list Image -> ModelOutcome
}.

(** The live React state, [localStorage] (a key that is absent is [None]),
    the counters of the environment reads, the requests sent to the
    recognition service, the [alert]s shown, and the callbacks scheduled
    with [setTimeout], each with the render state its closure captured. *)
Record World := mkWorld {
  appState : AppState;
  env : Env;
  uuidCount : nat;
  clockReads : nat;
  ls_history : option (list ManifestHistory);
  ls_folders : option (list Folder);
  ls_chunkSession : option ChunkSession;
  modelCalls : list (Tier * list Image);
  alerts : list string;
  timers : list AppState
}.

(** *** State-passing monad of the handlers *)

Definition M (A : Type) : Type := World -> A * World.

Definition ret {A} (a : A) : M A := fun w => (a, w).

Definition bind {A B} (m : M A) (k : A -> M B) : M B :=
  fun w => let (a, w') := m w in k a w'.

Declare Scope handler_scope.
Delimit Scope handler_scope with handler.
Notation "x <- m ;; k" := (bind m (fun x => k))
  (at level 61, m at next level, right associativity) : handler_scope.
Notation "m ;; k" := (bind m (fun _ => k))
  (at level 61, right associativity) : handler_scope.
Local Open Scope handler_scope.

Definition exec {A} (m : M A) (w : World) : World := snd (m w).

Definition modifyApp (f : AppState -> AppState) : M unit :=
  fun w => (tt, {| appState := f (appState w); env := env w; uuidCount := uuidCount w;
                   clockReads := clockReads w; ls_history := ls_history w;
                   ls_folders := ls_folders w; ls_chunkSession := ls_chunkSession w;
                   modelCalls := modelCalls w; alerts := alerts w; timers := timers w |}).

Definition getApp : M AppState := fun w => (appState w, w).

(** [crypto.randomUUID()] *)
Definition randomUUID : M string :=
  fun w => (uuidAt (env w) (uuidCount w),
            {| appState := appState w; env := env w; uuidCount := S (uuidCount w);
               clockReads := clockReads w; ls_history := ls_history w;
               ls_folders := ls_folders w; ls_chunkSession := ls_chunkSession w;
               modelCalls := modelCalls w; alerts := alerts w; timers := timers w |}).

Definition tickClock (w : World) : World :=
  {| appState := appState w; env := env w; uuidCount := uuidCount w;
     clockReads := S (clockReads w); ls_history := ls_history w;
     ls_folders := ls_folders w; ls_chunkSession := ls_chunkSession w;
     modelCalls := modelCalls w; alerts := alerts w; timers := timers w |}.

(** [Date.now()] *)
Definition Date_now : M Z := fun w => (nowAt (env w) (clockReads w), tickClock w).

(** [new Date().toLocaleDateString()] *)
Definition toLocaleDateString : M string :=
  fun w => (dateAt (env w) (clockReads w), tickClock w).

(** [new Date().toLocaleTimeString()] *)
Definition toLocaleTimeString : M string :=
  fun w => (timeAt (env w) (clockReads w), tickClock w).

(** [alert(msg)] *)
Definition alert (msg : string) : M unit :=
  fun w => (tt, {| appState := appState w; env := env w; uuidCount := uuidCount w;
                   clockReads := clockReads w; ls_history := ls_history w;
                   ls_folders := ls_folders w; ls_chunkSession := ls_chunkSession w;
                   modelCalls := modelCalls w; alerts := (alerts w ++ [msg])%list;
                   timers := timers w |}).

(** [localStorage.setItem(STORAGE_KEY, JSON.stringify(h))] *)
Definition storeHistory (h : list ManifestHistory) : M unit :=
  fun w => (tt, {| appState := appState w; env := env w; uuidCount := uuidCount w;
                   clockReads := clockReads w; ls_history := Some h;
                   ls_folders := ls_folders w; ls_chunkSession := ls_chunkSession w;
                   modelCalls := modelCalls w; alerts := alerts w; timers := timers w |}).

(** [localStorage.setItem(FOLDERS_KEY, JSON.stringify(fs))] *)
Definition storeFolders (fs : list Folder) : M unit :=
  fun w => (tt, {| appState := appState w; env := env w; uuidCount := uuidCount w;
                   clockReads := clockReads w; ls_history := ls_history w;
                   ls_folders := Some fs; ls_chunkSession := ls_chunkSession w;
                   modelCalls := modelCalls w; alerts := alerts w; timers := timers w |}).

(** [localStorage.setItem(CHUNK_SESSION_KEY, ...)] for [Some],
    [localStorage.removeItem(CHUNK_SESSION_KEY)] for [None]. *)
Definition storeChunkSession (s : option ChunkSession) : M unit :=
  fun w => (tt, {| appState := appState w; env := env w; uuidCount := uuidCount w;
                   clockReads := clockReads w; ls_history := ls_history w;
                   ls_folders := ls_folders w; ls_chunkSession := s;
                   modelCalls := modelCalls w; alerts := alerts w; timers := timers w |}).

(** [setTimeout(() => f(), ms)] for a handler of the render [c]. *)
Definition setTimeout (c : AppState) : M unit :=
  fun w => (tt, {| appState := appState w; env := env w; uuidCount := uuidCount w;
                   clockReads := clockReads w; ls_history := ls_history w;
                   ls_folders := ls_folders w; ls_chunkSession := ls_chunkSession w;
                   modelCalls := modelCalls w; alerts := alerts w;
                   timers := (timers w ++ [c])%list |}).

(** One request to the recognition service. *)
Definition askModel (tier : Tier) (parts : list Image) : M ModelOutcome :=
  fun w => (modelAt (env w) (List.length (modelCalls w)) tier parts,
            {| appState := appState w; env := env w; uuidCount := uuidCount w;
               clockReads := clockReads w; ls_history := ls_history w;
               ls_folders := ls_folders w; ls_chunkSession := ls_chunkSession w;
               modelCalls := (modelCalls w ++ [(tier, parts)])%list;
               alerts := alerts w; timers := timers w |}).

(** *** State setters.  A setter given a value overwrites the cell; the
    functional form [setX(prev => ...)] applies to the live value. *)

Definition updateHistory (f : list ManifestHistory -> list ManifestHistory) : M unit :=
  modifyApp (fun a =>
    {| history := f (history a); recycleBin := recycleBin a; folders := folders a;
       currentFolderId := currentFolderId a; activeManifestId := activeManifestId a;
       rows := rows a; config := config a; manifestMeta := manifestMeta a;
       globalConfig := globalConfig a; view := view a; status := status a;
       isUploadModalOpen := isUploadModalOpen a; importConflict := importConflict a;
       bulkImportFolderId := bulkImportFolderId a;
       bulkImportNewFolderName := bulkImportNewFolderName a;
       bulkImportResults := bulkImportResults a; chunkSession := chunkSession a;
       chunkAiMode := chunkAiMode a |}).

Definition setHistory (v : list ManifestHistory) : M unit := updateHistory (fun _ => v).

Definition updateFolders (f : list Folder -> list Folder) : M unit :=
  modifyApp (fun a =>
    {| history := history a; recycleBin := recycleBin a; folders := f (folders a);
       currentFolderId := currentFolderId a; activeManifestId := activeManifestId a;
       rows := rows a; config := config a; manifestMeta := manifestMeta a;
       globalConfig := globalConfig a; view := view a; status := status a;
       isUploadModalOpen := isUploadModalOpen a; importConflict := importConflict a;
       bulkImportFolderId := bulkImportFolderId a;
       bulkImportNewFolderName := bulkImportNewFolderName a;
       bulkImportResults := bulkImportResults a; chunkSession := chunkSession a;
       chunkAiMode := chunkAiMode a |}).

Definition setFolders (v : list Folder) : M unit := updateFolders (fun _ => v).

Definition updateActiveManifestId (f : option string -> option string) : M unit :=
  modifyApp (fun a =>
    {| history := history a; recycleBin := recycleBin a; folders := folders a;
       currentFolderId := currentFolderId a; activeManifestId := f (activeManifestId a);
       rows := rows a; config := config a; manifestMeta := manifestMeta a;
       globalConfig := globalConfig a; view := view a; status := status a;
       isUploadModalOpen := isUploadModalOpen a; importConflict := importConflict a;
       bulkImportFolderId := bulkImportFolderId a;
       bulkImportNewFolderName := bulkImportNewFolderName a;
       bulkImportResults := bulkImportResults a; chunkSession := chunkSession a;
       chunkAiMode := chunkAiMode a |}).

Definition setActiveManifestId (v : option string) : M unit := updateActiveManifestId (fun _ => v).

Definition updateRows (f : list BillingRow -> list BillingRow) : M unit :=
  modifyApp (fun a =>
    {| history := history a; recycleBin := recycleBin a; folders := folders a;
       currentFolderId := currentFolderId a; activeManifestId := activeManifestId a;
       rows := f (rows a); config := config a; manifestMeta := manifestMeta a;
       globalConfig := globalConfig a; view := view a; status := status a;
       isUploadModalOpen := isUploadModalOpen a; importConflict := importConflict a;
       bulkImportFolderId := bulkImportFolderId a;
       bulkImportNewFolderName := bulkImportNewFolderName a;
       bulkImportResults := bulkImportResults a; chunkSession := chunkSession a;
       chunkAiMode := chunkAiMode a |}).

Definition setRows (v : list BillingRow) : M unit := updateRows (fun _ => v).

Definition updateConfig (f : BillingConfig -> BillingConfig) : M unit :=
  modifyApp (fun a =>
    {| history := history a; recycleBin := recycleBin a; folders := folders a;
       currentFolderId := currentFolderId a; activeManifestId := activeManifestId a;
       rows := rows a; config := f (config a); manifestMeta := manifestMeta a;
       globalConfig := globalConfig a; view := view a; status := status a;
       isUploadModalOpen := isUploadModalOpen a; importConflict := importConflict a;
       bulkImportFolderId := bulkImportFolderId a;
       bulkImportNewFolderName := bulkImportNewFolderName a;
       bulkImportResults := bulkImportResults a; chunkSession := chunkSession a;
       chunkAiMode := chunkAiMode a |}).

Definition setConfig (v : BillingConfig) : M unit := updateConfig (fun _ => v).

Definition updateManifestMeta (f : ManifestMetadata -> ManifestMetadata) : M unit :=
  modifyApp (fun a =>
    {| history := history a; recycleBin := recycleBin a; folders := folders a;
       currentFolderId := currentFolderId a; activeManifestId := activeManifestId a;
       rows := rows a; config := config a; manifestMeta := f (manifestMeta a);
       globalConfig := globalConfig a; view := view a; status := status a;
       isUploadModalOpen := isUploadModalOpen a; importConflict := importConflict a;
       bulkImportFolderId := bulkImportFolderId a;
       bulkImportNewFolderName := bulkImportNewFolderName a;
       bulkImportResults := bulkImportResults a; chunkSession := chunkSession a;
       chunkAiMode := chunkAiMode a |}).

Definition setManifestMeta (v : ManifestMetadata) : M unit := updateManifestMeta (fun _ => v).

Definition updateView (f : View -> View) : M unit :=
  modifyApp (fun a =>
    {| history := history a; recycleBin := recycleBin a; folders := folders a;
       currentFolderId := currentFolderId a; activeManifestId := activeManifestId a;
       rows := rows a; config := config a; manifestMeta := manifestMeta a;
       globalConfig := globalConfig a; view := f (view a); status := status a;
       isUploadModalOpen := isUploadModalOpen a; importConflict := importConflict a;
       bulkImportFolderId := bulkImportFolderId a;
       bulkImportNewFolderName := bulkImportNewFolderName a;
       bulkImportResults := bulkImportResults a; chunkSession := chunkSession a;
       chunkAiMode := chunkAiMode a |}).

Definition setView (v : View) : M unit := updateView (fun _ => v).

Definition updateStatus (f : option Status -> option Status) : M unit :=
  modifyApp (fun a =>
    {| history := history a; recycleBin := recycleBin a; folders := folders a;
       currentFolderId := currentFolderId a; activeManifestId := activeManifestId a;
       rows := rows a; config := config a; manifestMeta := manifestMeta a;
       globalConfig := globalConfig a; view := view a; status := f (status a);
       isUploadModalOpen := isUploadModalOpen a; importConflict := importConflict a;
       bulkImportFolderId := bulkImportFolderId a;
       bulkImportNewFolderName := bulkImportNewFolderName a;
       bulkImportResults := bulkImportResults a; chunkSession := chunkSession a;
       chunkAiMode := chunkAiMode a |}).

Definition setStatus (v : option Status) : M unit := updateStatus (fun _ => v).

Definition updateIsUploadModalOpen (f : bool -> bool) : M unit :=
  modifyApp (fun a =>
    {| history := history a; recycleBin := recycleBin a; folders := folders a;
       currentFolderId := currentFolderId a; activeManifestId := activeManifestId a;
       rows := rows a; config := config a; manifestMeta := manifestMeta a;
       globalConfig := globalConfig a; view := view a; status := status a;
       isUploadModalOpen := f (isUploadModalOpen a); importConflict := importConflict a;
       bulkImportFolderId := bulkImportFolderId a;
       bulkImportNewFolderName := bulkImportNewFolderName a;
       bulkImportResults := bulkImportResults a; chunkSession := chunkSession a;
       chunkAiMode := chunkAiMode a |}).

Definition setIsUploadModalOpen (v : bool) : M unit := updateIsUploadModalOpen (fun _ => v).

Definition updateImportConflict (f : option ImportConflict -> option ImportConflict) : M unit :=
  modifyApp (fun a =>
    {| history := history a; recycleBin := recycleBin a; folders := folders a;
       currentFolderId := currentFolderId a; activeManifestId := activeManifestId a;
       rows := rows a; config := config a; manifestMeta := manifestMeta a;
       globalConfig := globalConfig a; view := view a; status := status a;
       isUploadModalOpen := isUploadModalOpen a; importConflict := f (importConflict a);
       bulkImportFolderId := bulkImportFolderId a;
       bulkImportNewFolderName := bulkImportNewFolderName a;
       bulkImportResults := bulkImportResults a; chunkSession := chunkSession a;
       chunkAiMode := chunkAiMode a |}).

Definition setImportConflict (v : option ImportConflict) : M unit :=
  updateImportConflict (fun _ => v).

Definition updateBulkImportResults (f : list BulkImportStatus -> list BulkImportStatus) : M unit :=
  modifyApp (fun a =>
    {| history := history a; recycleBin := recycleBin a; folders := folders a;
       currentFolderId := currentFolderId a; activeManifestId := activeManifestId a;
       rows := rows a; config := config a; manifestMeta := manifestMeta a;
       globalConfig := globalConfig a; view := view a; status := status a;
       isUploadModalOpen := isUploadModalOpen a; importConflict := importConflict a;
       bulkImportFolderId := bulkImportFolderId a;
       bulkImportNewFolderName := bulkImportNewFolderName a;
       bulkImportResults := f (bulkImportResults a); chunkSession := chunkSession a;
       chunkAiMode := chunkAiMode a |}).

Definition setBulkImportResults (v : list BulkImportStatus) : M unit :=
  updateBulkImportResults (fun _ => v).

Definition updateChunkSession (f : option ChunkSession -> option ChunkSession) : M unit :=
  modifyApp (fun a =>
    {| history := history a; recycleBin := recycleBin a; folders := folders a;
       currentFolderId := currentFolderId a; activeManifestId := activeManifestId a;
       rows := rows a; config := config a; manifestMeta := manifestMeta a;
       globalConfig := globalConfig a; view := view a; status := status a;
       isUploadModalOpen := isUploadModalOpen a; importConflict := importConflict a;
       bulkImportFolderId := bulkImportFolderId a;
       bulkImportNewFolderName := bulkImportNewFolderName a;
       bulkImportResults := bulkImportResults a; chunkSession := f (chunkSession a);
       chunkAiMode := chunkAiMode a |}).

Definition setChunkSession (v : option ChunkSession) : M unit := updateChunkSession (fun _ => v).

(** *** Small JavaScript idioms *)

(** [s || d] on a possibly missing string *)
Definition orElse (o : option string) (d : M string) : M string :=
  match o with
  | Some s => if String.eqb s EmptyString then d else ret s
  | None => d
  end.

(** [x || undefined] on a possibly missing string *)
Definition truthy (o : option string) : option string :=
  match o with
  | Some s => if String.eqb s EmptyString then None else Some s
  | None => None
  end.

(** [n.toString()] and [`${n}`] of an integer *)
Definition intToString (z : Z) : string := numberToString (inject_Z z).

(** [s.slice(-n)] *)
Definition sliceLast (n : nat) (s : string) : string :=
  substring (String.length s - n) n s.

(** [!s.trim()]: [trim] leaves nothing exactly when [s] holds nothing but
    white space. *)
Definition isBlank (s : string) : bool := String.eqb (removeSpaces s) EmptyString.

(** [s.replace(/c/g, d)] for a one-character pattern *)
Fixpoint replaceAll (c d : ascii) (s : string) : string :=
  match s with
  | EmptyString => EmptyString
  | String x r => String (if Ascii.eqb x c then d else x) (replaceAll c d r)
  end.

(** [rows.reduce((sum, r) => sum + r.amount, 0)] *)
Definition sumAmounts (rs : list BillingRow) : number :=
  fold_left (fun sum r => sum + amount r) rs 0.

(** [xs.length] *)
Definition len {A} (xs : list A) : Z := Z.of_nat (List.length xs).

(** [h.manifestNo === no] for the possibly missing [no] of a parsed file *)
Definition sameNumber (no : option string) (h : ManifestHistory) : bool :=
  match no with
  | Some s => String.eqb (manifestNo h) s
  | None => false
  end.

(** *** Persistence helpers *)

Definition saveHistory (newHistory : list ManifestHistory) : M unit :=
  setHistory newHistory ;; storeHistory newHistory.

Definition saveFolders (newFolders : list Folder) : M unit :=
  setFolders newFolders ;; storeFolders newFolders.

(** [saveChunkSession(updater)]: the updater runs on the live session and its
    result is written through to [localStorage]. *)
Definition saveChunkSessionWith (updater : option ChunkSession -> option ChunkSession) : M unit :=
  a <- getApp ;;
  let newSession := updater (chunkSession a) in
  storeChunkSession newSession ;;
  setChunkSession newSession.

(** [saveChunkSession(session)] *)
Definition saveChunkSession (session : option ChunkSession) : M unit :=
  saveChunkSessionWith (fun _ => session).

(** [setHistory(prev => { const updated = [...ms, ...prev];
    localStorage.setItem(...); return updated; })] *)
Definition prependToHistory (ms : list ManifestHistory) : M unit :=
  a <- getApp ;;
  let updated := (ms ++ history a)%list in
  storeHistory updated ;;
  setHistory updated.

Definition executeBatchImport (manifests : list ManifestHistory) : M unit :=
  prependToHistory manifests.

(** ** Import pipeline *)

Definition autoSaveManifest (c : AppState) (newRows : list BillingRow)
    (meta : ManifestMetadata) (currentConfig : BillingConfig) : M string :=
  newId <- randomUUID ;;
  now <- Date_now ;;
  let manifestData :=
    {| m_id := newId;
       manifestNo := meta_manifestNo meta;
       manifestDate := meta_manifestDate meta;
       m_rows := newRows;
       m_config := currentConfig;
       totalAmount := sumAmounts newRows;
       itemCount := len newRows;
       createdAt := now;
       folderId := truthy (currentFolderId c) |} in
  let newHistory := manifestData :: history c in
  saveHistory newHistory ;;
  setActiveManifestId (Some newId) ;;
  ret newId.

Definition parseFailed : M unit :=
  setStatus (Some {| st_type := st_error; st_message := "Failed to parse JSON manifest." |}).

(** [reader.onload] of [handleJsonFile], for a handler of the render [c]. *)
Definition handleJsonFile (c : AppState) (file : JsonFile) : M unit :=
  match file_json file with
  | None => parseFailed
  | Some content =>
      match j_rows content with
      | RowsArray rs =>
          no <- orElse (j_manifestNo content)
                  (now <- Date_now ;; ret ("MF-" ++ sliceLast 6 (intToString now))) ;;
          date <- orElse (j_manifestDate content) toLocaleDateString ;;
          let meta := {| meta_manifestNo := no; meta_manifestDate := date |} in
          let configToUse :=
            match j_config content with Some cfg => cfg | None => globalConfig c end in
          let rowsWithCalculations := map (fun r => calculateRow r configToUse) rs in
          newId <- randomUUID ;;
          now <- Date_now ;;
          let newCandidate :=
            {| m_id := newId;
               manifestNo := meta_manifestNo meta;
               manifestDate := meta_manifestDate meta;
               m_rows := rowsWithCalculations;
               m_config := configToUse;
               totalAmount := sumAmounts rowsWithCalculations;
               itemCount := len rowsWithCalculations;
               createdAt := now;
               folderId := None |} in
          match find (fun h => String.eqb (manifestNo h) (manifestNo newCandidate)) (history c) with
          | Some existing =>
              setImportConflict (Some {| existing := existing; newCandidate := newCandidate |})
          | None =>
              setRows rowsWithCalculations ;;
              setManifestMeta meta ;;
              setConfig configToUse ;;
              newId <- autoSaveManifest c rowsWithCalculations meta configToUse ;;
              setActiveManifestId (Some newId) ;;
              setView billing ;;
              setStatus (Some {| st_type := st_success;
                                 st_message := "JSON Manifest imported and saved to history." |}) ;;
              setIsUploadModalOpen false
          end
      | _ => parseFailed       (* throw new Error("Invalid structure") *)
      end
  end.

Inductive ConflictAction := keep_both | override | discard.

Definition withId (m : ManifestHistory) (newId : string) : ManifestHistory :=
  {| m_id := newId; manifestNo := manifestNo m; manifestDate := manifestDate m;
     m_rows := m_rows m; m_config := m_config m; totalAmount := totalAmount m;
     itemCount := itemCount m; createdAt := createdAt m; folderId := folderId m |}.

(** The statements shared by the two saving branches of [resolveConflict]. *)
Definition openCandidate (candidateToSave : ManifestHistory) (message : string) : M unit :=
  setActiveManifestId (Some (m_id candidateToSave)) ;;
  setRows (m_rows candidateToSave) ;;
  setManifestMeta {| meta_manifestNo := manifestNo candidateToSave;
                     meta_manifestDate := manifestDate candidateToSave |} ;;
  setConfig (m_config candidateToSave) ;;
  setView billing ;;
  setStatus (Some {| st_type := st_success; st_message := message |}).

Definition resolveConflict (c : AppState) (action : ConflictAction) : M unit :=
  match importConflict c with
  | None => ret tt
  | Some conflict =>
      match action with
      | discard =>
          setStatus (Some {| st_type := st_info; st_message := "Import cancelled by user." |})
      | keep_both =>
          newId <- randomUUID ;;
          let candidateToSave := withId (newCandidate conflict) newId in
          saveHistory (candidateToSave :: history c) ;;
          openCandidate candidateToSave "Imported as a new copy."
      | override =>
          let newHistory :=
            filter (fun h => negb (String.eqb (m_id h) (m_id (existing conflict)))) (history c) in
          newId <- randomUUID ;;
          let candidateToSave := withId (newCandidate conflict) newId in
          saveHistory (candidateToSave :: newHistory) ;;
          openCandidate candidateToSave "Existing record overwritten."
      end ;;
      setImportConflict None ;;
      setIsUploadModalOpen false
  end.

(** One iteration of the [for] of [handleBulkJsonImport] on file [i], with
    the accumulators [results] and [newManifests]. *)
Definition bulkImportFile (c : AppState) (targetId : string) (i : nat) (file : JsonFile)
    (acc : list BulkImportStatus * list ManifestHistory)
  : M (list BulkImportStatus * list ManifestHistory) :=
  let (results, newManifests) := acc in
  let report st msg :=
    (results ++ [{| fileName := file_name file; bulk_status := st; bulk_message := msg |}])%list in
  match file_json file with
  | None => ret (report st_error "JSON Parse Error", newManifests)
  | Some json =>
      let exists_ :=
        existsb (sameNumber (j_manifestNo json)) (history c)
        || existsb (sameNumber (j_manifestNo json)) newManifests in
      if exists_ then ret (report st_warning "Duplicate skipped", newManifests)
      else
        match j_rows json with
        | RowsAbsent => ret (report st_error "Invalid structure", newManifests)
        | RowsNotArray =>                       (* json.rows.map throws *)
            ret (report st_error "JSON Parse Error", newManifests)
        | RowsArray rs =>
            let configToUse :=
              match j_config json with Some cfg => cfg | None => globalConfig c end in
            let rowsWithCalculations := map (fun r => calculateRow r configToUse) rs in
            newId <- randomUUID ;;
            no <- orElse (j_manifestNo json)
                    (now <- Date_now ;;
                     ret ("IMP-" ++ intToString now ++ "-" ++ intToString (Z.of_nat i))) ;;
            date <- orElse (j_manifestDate json) toLocaleDateString ;;
            now <- Date_now ;;
            let m :=
              {| m_id := newId; manifestNo := no; manifestDate := date;
                 m_rows := rowsWithCalculations; m_config := configToUse;
                 totalAmount := sumAmounts rowsWithCalculations;
                 itemCount := len rowsWithCalculations;
                 createdAt := now; folderId := Some targetId |} in
            ret (report st_success "Imported", (newManifests ++ [m])%list)
        end
  end.

(** The [for] loop over the files, starting at index [i]. *)
Fixpoint bulkImportLoop (c : AppState) (targetId : string) (i : nat) (files : list JsonFile)
    (acc : list BulkImportStatus * list ManifestHistory)
  : M (list BulkImportStatus * list ManifestHistory) :=
  match files with
  | [] => ret acc
  | file :: rest =>
      acc' <- bulkImportFile c targetId i file acc ;;
      bulkImportLoop c targetId (S i) rest acc'
  end.

Definition handleBulkJsonImport (c : AppState) (files : list JsonFile) : M unit :=
  if (30 <? len files)%Z then alert "Maximum 30 files allowed at once."
  else
    let import (targetId : string) : M unit :=
      acc <- bulkImportLoop c targetId 0 files ([], []) ;;
      executeBatchImport (snd acc) ;;
      setBulkImportResults (fst acc) in
    if String.eqb (bulkImportFolderId c) "new" then
      if isBlank (bulkImportNewFolderName c) then alert "Please enter a folder name."
      else
        targetId <- randomUUID ;;
        now <- Date_now ;;
        let newFolder :=
          {| f_id := targetId; f_name := bulkImportNewFolderName c; f_createdAt := now |} in
        updateFolders (fun prev => (prev ++ [newFolder])%list) ;;
        saveFolders (folders c ++ [newFolder])%list ;;
        import targetId
    else import (bulkImportFolderId c).

(** The statements of [handleBulkJsonImport] that determine the target
    folder, past the check of the name: a new folder is created and stored
    when the dialog asks for one. *)
Definition determineTargetFolder (c : AppState) : M string :=
  if String.eqb (bulkImportFolderId c) "new" then
    targetId <- randomUUID ;;
    now <- Date_now ;;
    let newFolder :=
      {| f_id := targetId; f_name := bulkImportNewFolderName c; f_createdAt := now |} in
    updateFolders (fun prev => (prev ++ [newFolder])%list) ;;
    saveFolders (folders c ++ [newFolder])%list ;;
    ret targetId
  else ret (bulkImportFolderId c).

(** The folder a bulk import started from [w] creates when the dialog asks
    for a new one. *)
Definition newImportFolder (c : AppState) (w : World) : Folder :=
  {| f_id := uuidAt (env w) (uuidCount w); f_name := bulkImportNewFolderName c;
     f_createdAt := nowAt (env w) (clockReads w) |}.

(** ** Recognition client ([parseBillingDocument]) *)

(** [callModel] under a [try]: the response on success, [None] when it
    throws. *)
Definition callModel (tier : Tier) (parts : list Image) : M (option (option Recognition)) :=
  r <- askModel tier parts ;;
  match r with
  | ModelThrows => ret None
  | ModelResponds parsed => ret (Some parsed)
  end.

(** [parseBillingDocument(inputs, instruction, useHybridMode)]; [None] when
    it throws: every tier of the mode failed, or [JSON.parse] rejected the
    text of the response.  The instruction only goes into the prompt and the
    status callback only reports progress; neither is modelled. *)
Definition parseBillingDocument (inputs : list Image) (useHybridMode : bool)
  : M (option Recognition) :=
  response <-
    (if useHybridMode then
       r <- callModel ACCURATE inputs ;;
       match r with
       | Some _ => ret r
       | None =>
           r2 <- callModel FAST inputs ;;
           match r2 with
           | Some _ => ret r2
           | None => callModel FALLBACK inputs
           end
       end
     else
       r <- callModel FAST inputs ;;
       match r with
       | Some _ => ret r
       | None => callModel FALLBACK inputs
       end) ;;
  match response with
  | None => ret None
  | Some parsed => ret parsed        (* JSON.parse(response.text.trim()) *)
  end.

(** ** Chunk session *)

Definition withLog (log : string) (s : ChunkSession) : ChunkSession :=
  {| cs_id := cs_id s; cs_folderId := cs_folderId s; cs_folderName := cs_folderName s;
     aiMode := aiMode s; pendingChunks := pendingChunks s; currentChunk := currentChunk s;
     totalManifestsCaptured := totalManifestsCaptured s; processedCount := processedCount s;
     isProcessing := isProcessing s; statusLog := log |}.

Definition withProcessing (b : bool) (s : ChunkSession) : ChunkSession :=
  {| cs_id := cs_id s; cs_folderId := cs_folderId s; cs_folderName := cs_folderName s;
     aiMode := aiMode s; pendingChunks := pendingChunks s; currentChunk := currentChunk s;
     totalManifestsCaptured := totalManifestsCaptured s; processedCount := processedCount s;
     isProcessing := b; statusLog := statusLog s |}.

Definition withCurrentChunk (chunk : list Image) (s : ChunkSession) : ChunkSession :=
  {| cs_id := cs_id s; cs_folderId := cs_folderId s; cs_folderName := cs_folderName s;
     aiMode := aiMode s; pendingChunks := pendingChunks s; currentChunk := chunk;
     totalManifestsCaptured := totalManifestsCaptured s; processedCount := processedCount s;
     isProcessing := isProcessing s; statusLog := statusLog s |}.

Definition startChunkSession (c : AppState) : M unit :=
  date <- toLocaleDateString ;;
  time <- toLocaleTimeString ;;
  let folderName :=
    "Session_" ++ replaceAll "/" "-" date ++ "_" ++ replaceAll ":" "-" time in
  newFolderId <- randomUUID ;;
  now <- Date_now ;;
  let newFolder := {| f_id := newFolderId; f_name := folderName; f_createdAt := now |} in
  let updatedFolders := (folders c ++ [newFolder])%list in
  setFolders updatedFolders ;;
  storeFolders updatedFolders ;;
  sessionId <- randomUUID ;;
  let newSession :=
    {| cs_id := sessionId; cs_folderId := newFolderId; cs_folderName := folderName;
       aiMode := chunkAiMode c; pendingChunks := []; currentChunk := [];
       totalManifestsCaptured := 0; processedCount := 0; isProcessing := false;
       statusLog := "Ready to capture." |} in
  saveChunkSession (Some newSession).

Definition finishCurrentChunk (c : AppState) (overrideChunk : option (list Image)) : M unit :=
  match chunkSession c with
  | None => ret tt
  | Some session =>
      let chunkToSave :=
        match overrideChunk with Some ch => ch | None => currentChunk session end in
      if (len chunkToSave =? 0)%Z then ret tt
      else
        newId <- randomUUID ;;
        let newPending :=
          (pendingChunks session ++ [{| chunk_id := newId; images := chunkToSave |}])%list in
        saveChunkSession (Some
          {| cs_id := cs_id session; cs_folderId := cs_folderId session;
             cs_folderName := cs_folderName session; aiMode := aiMode session;
             pendingChunks := newPending;
             currentChunk := [];
             totalManifestsCaptured := (totalManifestsCaptured session + 1)%Z;
             processedCount := processedCount session;
             isProcessing := isProcessing session;
             statusLog := "Manifest captured. Ready for next." |})
  end.

(** [handleChunkCapture]; [file] is [e.target.files?.[0]] read as an image. *)
Definition handleChunkCapture (c : AppState) (file : option Image) : M unit :=
  match chunkSession c, file with
  | Some session, Some newImage =>
      let updatedChunk := (currentChunk session ++ [newImage])%list in
      (* Auto-close chunk if 5 images reached *)
      if (5 <=? len updatedChunk)%Z then finishCurrentChunk c (Some updatedChunk)
      else
        saveChunkSession (Some
          (withLog ("Page " ++ intToString (len updatedChunk) ++ " captured.")
             (withCurrentChunk updatedChunk session)))
  | _, _ => ret tt
  end.

(** [x || d] on a possibly missing number *)
Definition orNumber (o : option number) (d : number) : number :=
  match o with
  | Some x => if isZero x then d else x
  | None => d
  end.

(** The rows of a recognised manifest,
    [items.map((item, index) => calculateRow({...}, globalConfig))], from
    index [index] on. *)
Fixpoint recognizedRows (c : AppState) (index : nat) (items : list RecognizedItem)
  : M (list BillingRow) :=
  match items with
  | [] => ret []
  | item :: rest =>
      newId <- randomUUID ;;
      let row :=
        calculateRow
          {| in_id := newId;
             in_slNo := orNumber (it_slNo item) (inject_Z (Z.of_nat index + 1));
             in_serialNo :=
               match truthy (it_serialNo item) with
               | Some s => s
               | None => "AWB-" ++ intToString (1000 + Z.of_nat index)
               end;
             in_description :=
               match truthy (it_description item) with Some s => s | None => "Item" end;
             in_type :=
               match it_type item with
               | Some t => if String.eqb t "Document" then DOCUMENT else PARCEL
               | None => PARCEL
               end;
             in_weight := orNumber (it_weight item) 0;
             in_rate := None;
             in_isManualRate := Some false |}
          (globalConfig c) in
      rows <- recognizedRows c (S index) rest ;;
      ret (row :: rows)
  end.

(** [processChunkQueue] of the render [c].  Every read of [chunkSession] in
    the source is a read of the session this render captured; the updates
    go through the functional form of [saveChunkSession] and so apply to the
    live session.  The follow-up call scheduled with [setTimeout] is the
    [processChunkQueue] of the same render. *)
Definition processChunkQueue (c : AppState) : M unit :=
  match chunkSession c with
  | None => ret tt
  | Some session =>
      match pendingChunks session with
      | [] => ret tt
      | chunkToProcess :: _ =>
          saveChunkSessionWith
            (option_map (fun prev =>
               withLog "Starting batch processing..." (withProcessing true prev))) ;;
          let processing (mode : string) :=
            saveChunkSessionWith
              (option_map (fun prev =>
                 withLog ("Processing Manifest " ++ intToString (processedCount prev + 1)
                          ++ "... (" ++ mode ++ ")") prev)) in
          result <-
            match aiMode session with
            | ModeAuto =>
                processing "Default Mode" ;;
                r <- parseBillingDocument (images chunkToProcess) false ;;
                match r with
                | Some _ => ret r
                | None =>
                    saveChunkSessionWith
                      (option_map (withLog "Default failed. Retrying with Hybrid Mode...")) ;;
                    parseBillingDocument (images chunkToProcess) true
                end
            | ModeHybrid =>
                processing "Hybrid" ;;
                parseBillingDocument (images chunkToProcess) true
            | ModeDefault =>
                processing "Default" ;;
                parseBillingDocument (images chunkToProcess) false
            end ;;
          match result with
          | None =>
              saveChunkSessionWith
                (option_map (fun prev =>
                   withLog "Processing paused due to error. Resume when ready."
                     (withProcessing false prev)))
          | Some result =>
              calculatedRows <-
                recognizedRows c 0
                  (match r_items result with Some items => items | None => [] end) ;;
              newId <- randomUUID ;;
              no <- orElse (r_manifestNo result)
                      (now <- Date_now ;; ret ("AUTO-" ++ intToString now)) ;;
              date <- orElse (r_manifestDate result) toLocaleDateString ;;
              now <- Date_now ;;
              let newManifest :=
                {| m_id := newId; manifestNo := no; manifestDate := date;
                   m_rows := calculatedRows; m_config := globalConfig c;
                   totalAmount := sumAmounts calculatedRows;
                   itemCount := len calculatedRows;
                   createdAt := now; folderId := Some (cs_folderId session) |} in
              prependToHistory [newManifest] ;;
              saveChunkSessionWith
                (option_map (fun prev =>
                   {| cs_id := cs_id prev; cs_folderId := cs_folderId prev;
                      cs_folderName := cs_folderName prev; aiMode := aiMode prev;
                      pendingChunks := tl (pendingChunks prev);
                      currentChunk := currentChunk prev;
                      totalManifestsCaptured := totalManifestsCaptured prev;
                      processedCount := (processedCount prev + 1)%Z;
                      isProcessing := isProcessing prev;
                      statusLog := "Manifest " ++ no ++ " processed successfully." |})) ;;
              let remainingChunksLength := (len (pendingChunks session) - 1)%Z in
              if (0 <? remainingChunksLength)%Z then setTimeout c
              else
                saveChunkSessionWith
                  (option_map (fun prev =>
                     withLog "All captured manifests processed." (withProcessing false prev)))
          end
      end
  end.

(** *** Events *)

(** A user event: the handler that runs is the one of the current render. *)
Definition dispatch (handler : AppState -> M unit) : M unit :=
  c <- getApp ;; handler c.

(** The oldest scheduled callback runs (a [processChunkQueue] with the
    render it was created in). *)
Definition fireTimer : M unit :=
  fun w =>
    match timers w with
    | [] => (tt, w)
    | c :: rest =>
        processChunkQueue c
          {| appState := appState w; env := env w; uuidCount := uuidCount w;
             clockReads := clockReads w; ls_history := ls_history w;
             ls_folders := ls_folders w; ls_chunkSession := ls_chunkSession w;
             modelCalls := modelCalls w; alerts := alerts w; timers := rest |}
    end.

(** Up to [n] scheduled callbacks run, one after the other. *)
Fixpoint runTimers (n : nat) : M unit :=
  match n with
  | O => ret tt
  | S n' => fireTimer ;; runTimers n'
  end.

(** The capture-side events of a session. *)
Inductive SessionEvent :=
| Capture (file : option Image)
| CloseChunk.

Definition sessionStep (e : SessionEvent) : M unit :=
  match e with
  | Capture file => dispatch (fun c => handleChunkCapture c file)
  | CloseChunk => dispatch (fun c => finishCurrentChunk c None)
  end.

Fixpoint sessionSteps (es : list SessionEvent) : M unit :=
  match es with
  | [] => ret tt
  | e :: rest => sessionStep e ;; sessionSteps rest
  end.

(** The session exists and its current chunk holds at most [k] images. *)
Definition currentChunkWithin (k : nat) (w : World) : Prop :=
  match chunkSession (appState w) with
  | Some s => (List.length (currentChunk s) <= k)%nat
  | None => False
  end.

(** ** A concrete world

    An initial state of the application and an environment, used to run the
    handlers on explicit inputs. *)

Definition DEFAULT_CONFIG : BillingConfig := cfg321.

Definition initialApp : AppState :=
  {| history := []; recycleBin := []; folders := []; currentFolderId := None;
     activeManifestId := None; rows := []; config := DEFAULT_CONFIG;
     manifestMeta := {| meta_manifestNo := EmptyString; meta_manifestDate := EmptyString |};
     globalConfig := DEFAULT_CONFIG; view := dashboard; status := None;
     isUploadModalOpen := false; importConflict := None;
     bulkImportFolderId := "new"; bulkImportNewFolderName := EmptyString;
     bulkImportResults := []; chunkSession := None; chunkAiMode := ModeDefault |}.

(** What the recognition service answers when it answers: one parcel of
    5 kg on a manifest without a number. *)
Definition oneParcel : Recognition :=
  {| r_manifestNo := None; r_manifestDate := None;
     r_items := Some [{| it_slNo := None; it_serialNo := Some "AWB-1"; it_description := None;
                         it_type := Some "Parcel"; it_weight := Some 5 |}] |}.

(** An environment in which the first [successes] requests to the
    recognition service are answered and every later one fails. *)
Definition scriptedEnv (successes : nat) : Env :=
  {| uuidAt := fun n => "uuid-" ++ intToString (Z.of_nat n);
     nowAt := fun n => (1700000000000 + Z.of_nat n)%Z;
     dateAt := fun _ => "1/15/2026";
     timeAt := fun _ => "10:30:00 AM";
     modelAt := fun n _ _ =>
       if (n <? successes)%nat then ModelResponds (Some oneParcel) else ModelThrows |}.

Definition initialWorld (e : Env) : World :=
  {| appState := initialApp; env := e; uuidCount := 0; clockReads := 0;
     ls_history := None; ls_folders := None; ls_chunkSession := None;
     modelCalls := []; alerts := []; timers := [] |}.

Definition pageA : Image := {| data := "AAAA"; mimeType := "image/jpeg" |}.
Definition pageB : Image := {| data := "BBBB"; mimeType := "image/jpeg" |}.
Definition pageC : Image := {| data := "CCCC"; mimeType := "image/jpeg" |}.

(** A session is started, three one-page chunks are captured and closed,
    the queue is processed, and the scheduled follow-up calls run until none
    is left (at most [n] of them). *)
Definition threeChunkDrain (e : Env) (n : nat) : World :=
  exec (dispatch startChunkSession ;;
        sessionSteps [Capture (Some pageA); CloseChunk;
                      Capture (Some pageB); CloseChunk;
                      Capture (Some pageC); CloseChunk] ;;
        dispatch processChunkQueue ;;
        runTimers n)
       (initialWorld e).

(** A manifest file as the importer reads it: number [no], date
    ["1/10/2026"], one parcel row of [kg] kilograms, no configuration. *)
Definition manifestFile (name no : string) (kg : number) : JsonFile :=
  {| file_name := name;
     file_json := Some
       {| j_manifestNo := Some no; j_manifestDate := Some "1/10/2026";
          j_rows := RowsArray
            [{| in_id := "r1"; in_slNo := 1; in_serialNo := "AWB-77"; in_description := "Box";
                in_type := PARCEL; in_weight := kg; in_rate := None;
                in_isManualRate := None |}];
          j_config := None |} |}.

(** The upload dialog takes the file ["MF-1"] twice: the first is saved,
    the second meets it in the history. *)
Definition importedTwice : World :=
  exec (dispatch (fun c => handleJsonFile c (manifestFile "a.json" "MF-1" 5)) ;;
        dispatch (fun c => handleJsonFile c (manifestFile "b.json" "MF-1" 12)))
       (initialWorld (scriptedEnv 0)).

(** The state after the first of the two imports. *)
Definition importedOnce : World :=
  exec (dispatch (fun c => handleJsonFile c (manifestFile "a.json" "MF-1" 5)))
       (initialWorld (scriptedEnv 0)).

(** What the bulk import reports for a file it skips as a duplicate. *)
Definition duplicateReport (file : JsonFile) : BulkImportStatus :=
  {| fileName := file_name file; bulk_status := st_warning;
     bulk_message := "Duplicate skipped" |}.

(** A file that carries a manifest number and no rows. *)
Definition numberOnlyFile (name no : string) : JsonFile :=
  {| file_name := name;
     file_json := Some {| j_manifestNo := Some no; j_manifestDate := None;
                          j_rows := RowsAbsent; j_config := None |} |}.

(** The import dialog asking for a new folder named ["March"], with nothing
    imported yet. *)
Definition newFolderDialog : World :=
  {| appState :=
       {| history := []; recycleBin := []; folders := []; currentFolderId := None;
          activeManifestId := None; rows := []; config := DEFAULT_CONFIG;
          manifestMeta :=
            {| meta_manifestNo := EmptyString; meta_manifestDate := EmptyString |};
          globalConfig := DEFAULT_CONFIG; view := dashboard; status := None;
          isUploadModalOpen := false; importConflict := None;
          bulkImportFolderId := "new"; bulkImportNewFolderName := "March";
          bulkImportResults := []; chunkSession := None; chunkAiMode := ModeDefault |};
     env := scriptedEnv 0; uuidCount := 0; clockReads := 0;
     ls_history := None; ls_folders := None; ls_chunkSession := None;
     modelCalls := []; alerts := []; timers := [] |}.

(** The conflict the second import raises. *)
Definition firstConflict : option ImportConflict :=
  Eval vm_compute in importConflict (appState importedTwice).

(** The active billing session shows the manifest [m]. *)
Definition isActiveSession (m : ManifestHistory) (a : AppState) : Prop :=
  activeManifestId a = Some (m_id m) /\
  rows a = m_rows m /\
  manifestMeta a = {| meta_manifestNo := manifestNo m; meta_manifestDate := manifestDate m |} /\
  config a = m_config m /\
  view a = billing.

(** A newly started session in the concrete world. *)
Definition startedSession : World :=
  exec (dispatch startChunkSession) (initialWorld (scriptedEnv 0)).

(** ** Derived views of the billing session ([App.tsx], [useMemo]) *)

(** The object the [summary] memo accumulates. *)
Record Summary := mkSummary {
  slab1Weight : number;
  slab2Weight : number;
  slab3Weight : number;
  parcelCountS1 : Z;
  parcelCountS2Plus : Z;
  heavyParcelWeightsList : list number;
  lightParcelsTotalWeight : number;
  heavyParcelsTotalWeight : number;
  docCount : Z;
  docTotal : number;
  totalBillableWeight : number;
  parcelCount : Z
}.

Definition emptySummary : Summary :=
  {| slab1Weight := 0; slab2Weight := 0; slab3Weight := 0;
     parcelCountS1 := 0; parcelCountS2Plus := 0; heavyParcelWeightsList := [];
     lightParcelsTotalWeight := 0; heavyParcelsTotalWeight := 0;
     docCount := 0; docTotal := 0; totalBillableWeight := 0; parcelCount := 0 |}.

(** The body of [rows.forEach] in [summary]. *)
Definition summaryStep (config : BillingConfig) (s : Summary) (row : BillingRow) : Summary :=
  if ItemType_eqb (type row) DOCUMENT then
    {| slab1Weight := slab1Weight s; slab2Weight := slab2Weight s;
       slab3Weight := slab3Weight s;
       parcelCountS1 := parcelCountS1 s; parcelCountS2Plus := parcelCountS2Plus s;
       heavyParcelWeightsList := heavyParcelWeightsList s;
       lightParcelsTotalWeight := lightParcelsTotalWeight s;
       heavyParcelsTotalWeight := heavyParcelsTotalWeight s;
       docCount := (docCount s + 1)%Z; docTotal := docTotal s + amount row;
       totalBillableWeight := totalBillableWeight s; parcelCount := parcelCount s |}
  else
    let rounded := Math_ceil (weight row) in
    let calc := calculateParcelAmount (weight row) config in
    let light := Qle_bool rounded 10 in
    {| slab1Weight := slab1Weight s + s1w calc; slab2Weight := slab2Weight s + s2w calc;
       slab3Weight := slab3Weight s + s3w calc;
       parcelCountS1 := if light then (parcelCountS1 s + 1)%Z else parcelCountS1 s;
       parcelCountS2Plus :=
         if light then parcelCountS2Plus s else (parcelCountS2Plus s + 1)%Z;
       heavyParcelWeightsList :=
         if light then heavyParcelWeightsList s
         else (heavyParcelWeightsList s ++ [rounded])%list;
       lightParcelsTotalWeight :=
         if light then lightParcelsTotalWeight s + rounded else lightParcelsTotalWeight s;
       heavyParcelsTotalWeight :=
         if light then heavyParcelsTotalWeight s else heavyParcelsTotalWeight s + rounded;
       docCount := docCount s; docTotal := docTotal s;
       totalBillableWeight := totalBillableWeight s + rounded;
       parcelCount := (parcelCount s + 1)%Z |}.

(** [summary]: the memo over [rows] and [config]. *)
Definition summary (rs : list BillingRow) (config : BillingConfig) : Summary :=
  fold_left (summaryStep config) rs emptySummary.

(** [!h.folderId] *)
Definition atRoot (h : ManifestHistory) : bool :=
  match truthy (folderId h) with Some _ => false | None => true end.

(** [h.folderId === f] for a string [f] *)
Definition inFolder (f : string) (h : ManifestHistory) : bool :=
  match folderId h with Some g => String.eqb g f | None => false end.

(** [filteredHistory]: the manifests of the open folder, or those of the
    root when no folder is open. *)
Definition filteredHistory (a : AppState) : list ManifestHistory :=
  match truthy (currentFolderId a) with
  | Some f => filter (inFolder f) (history a)
  | None => filter atRoot (history a)
  end.

(** ** Billing editor ([App.tsx]) *)

(** [Partial<BillingRow>]: the members an update carries. *)
Record RowUpdates := mkUpdates {
  up_id : option string;
  up_slNo : option number;
  up_serialNo : option string;
  up_description : option string;
  up_type : option ItemType;
  up_weight : option number;
  up_rate : option number;
  up_isManualRate : option bool;
  up_amount : option number;
  up_breakdown : option string
}.

Definition orKeep {A} (o : option A) (old : A) : A :=
  match o with Some v => v | None => old end.

(** [{ ...row, ...updates }] *)
Definition spreadUpdates (row : BillingRow) (u : RowUpdates) : BillingRow :=
  {| id := orKeep (up_id u) (id row); slNo := orKeep (up_slNo u) (slNo row);
     serialNo := orKeep (up_serialNo u) (serialNo row);
     description := orKeep (up_description u) (description row);
     type := orKeep (up_type u) (type row); weight := orKeep (up_weight u) (weight row);
     rate := orKeep (up_rate u) (rate row);
     isManualRate := orKeep (up_isManualRate u) (isManualRate row);
     amount := orKeep (up_amount u) (amount row);
     breakdown := orKeep (up_breakdown u) (breakdown row) |}.

Definition withSlNo (n : number) (row : BillingRow) : BillingRow :=
  {| id := id row; slNo := n; serialNo := serialNo row; description := description row;
     type := type row; weight := weight row; rate := rate row;
     isManualRate := isManualRate row; amount := amount row; breakdown := breakdown row |}.

Definition withType (t : ItemType) (row : BillingRow) : BillingRow :=
  {| id := id row; slNo := slNo row; serialNo := serialNo row;
     description := description row; type := t; weight := weight row; rate := rate row;
     isManualRate := isManualRate row; amount := amount row; breakdown := breakdown row |}.

Definition addRow (c : AppState) : M unit :=
  newId <- randomUUID ;;
  let newRowBase :=
    {| in_id := newId; in_slNo := inject_Z (len (rows c) + 1);
       in_serialNo := EmptyString; in_description := EmptyString; in_type := PARCEL;
       in_weight := 0; in_rate := None; in_isManualRate := Some false |} in
  let newRow := calculateRow newRowBase (config c) in
  setRows (rows c ++ [newRow])%list.

Definition updateRow (c : AppState) (rowId : string) (updates : RowUpdates) : M unit :=
  updateRows (map (fun row =>
    if String.eqb (id row) rowId
    then calculateRow (asInput (spreadUpdates row updates)) (config c)
    else row)).

(** [filtered.map((row, index) => ({ ...row, slNo: index + 1 }))], from
    index [index] on. *)
Fixpoint renumber (index : nat) (rs : list BillingRow) : list BillingRow :=
  match rs with
  | [] => []
  | row :: rest => withSlNo (inject_Z (Z.of_nat index + 1)) row :: renumber (S index) rest
  end.

Definition deleteRow (rowId : string) : M unit :=
  updateRows (fun prevRows =>
    let filtered := filter (fun row => negb (String.eqb (id row) rowId)) prevRows in
    renumber 0 filtered).

Definition applyGlobalType (c : AppState) (t : ItemType) : M unit :=
  updateRows (map (fun row => calculateRow (asInput (withType t row)) (config c))).

(** The effect on [config] and [view]: in the billing view every row is
    derived again under the session's configuration. *)
Definition recalculateRows (c : AppState) : M unit :=
  match view c with
  | billing => updateRows (map (fun row => calculateRow (asInput row) (config c)))
  | dashboard => ret tt
  end.

Definition saveManifest (c : AppState) : M unit :=
  newId <- match truthy (activeManifestId c) with
           | Some i => ret i
           | None => randomUUID
           end ;;
  now <- Date_now ;;
  let manifestData :=
    {| m_id := newId;
       manifestNo := meta_manifestNo (manifestMeta c);
       manifestDate := meta_manifestDate (manifestMeta c);
       m_rows := rows c;
       m_config := config c;
       totalAmount := sumAmounts (rows c);
       itemCount := len (rows c);
       createdAt := now;
       folderId := truthy (currentFolderId c) |} in
  let newHistory :=
    match truthy (activeManifestId c) with
    | Some active =>
        map (fun h => if String.eqb (m_id h) active then manifestData else h) (history c)
    | None => manifestData :: history c
    end in
  saveHistory newHistory ;;
  setActiveManifestId (Some (m_id manifestData)) ;;
  setStatus (Some {| st_type := st_success; st_message := "Manifest saved successfully." |}).

(** The manifest [saveManifest] makes of the session [a], with the
    identifier [i], at the time [now]. *)
Definition sessionManifest (a : AppState) (i : string) (now : Z) : ManifestHistory :=
  {| m_id := i;
     manifestNo := meta_manifestNo (manifestMeta a);
     manifestDate := meta_manifestDate (manifestMeta a);
     m_rows := rows a;
     m_config := config a;
     totalAmount := sumAmounts (rows a);
     itemCount := len (rows a);
     createdAt := now;
     folderId := truthy (currentFolderId a) |}.

Definition startBlankSession (c : AppState) : M unit :=
  setActiveManifestId None ;;
  setRows [] ;;
  setConfig (globalConfig c) ;;
  setManifestMeta {| meta_manifestNo := EmptyString; meta_manifestDate := EmptyString |} ;;
  setView billing.

Definition openManifestFromHistory (manifest : ManifestHistory) : M unit :=
  setActiveManifestId (Some (m_id manifest)) ;;
  setRows (m_rows manifest) ;;
  setConfig (m_config manifest) ;;
  setManifestMeta {| meta_manifestNo := manifestNo manifest;
                     meta_manifestDate := manifestDate manifest |} ;;
  setView billing.

(** ** Recycle bin and folders ([App.tsx]) *)

(** The world together with the stored recycle bin and the cells of the
    folder dialogs. *)
Record Desk := mkDesk {
  world : World;
  ls_recycleBin : option (list ManifestHistory);
  newFolderName : string;
  isCreateFolderOpen : bool;
  editingFolderId : option string;
  manifestToMoveId : option string
}.

Definition D (A : Type) : Type := Desk -> A * Desk.

Definition retD {A} (a : A) : D A := fun d => (a, d).

Definition bindD {A B} (m : D A) (k : A -> D B) : D B :=
  fun d => let (a, d') := m d in k a d'.

Declare Scope desk_scope.
Delimit Scope desk_scope with desk.
Notation "x <- m ;; k" := (bindD m (fun x => k))
  (at level 61, m at next level, right associativity) : desk_scope.
Notation "m ;; k" := (bindD m (fun _ => k))
  (at level 61, right associativity) : desk_scope.

Definition execD {A} (m : D A) (d : Desk) : Desk := snd (m d).

(** A handler step on the world, run at the desk. *)
Definition onWorld {A} (m : M A) : D A :=
  fun d =>
    let (a, w) := m (world d) in
    (a, {| world := w; ls_recycleBin := ls_recycleBin d; newFolderName := newFolderName d;
           isCreateFolderOpen := isCreateFolderOpen d; editingFolderId := editingFolderId d;
           manifestToMoveId := manifestToMoveId d |}).

(** [localStorage.setItem(RECYCLE_BIN_KEY, JSON.stringify(bin))] *)
Definition storeRecycleBin (bin : list ManifestHistory) : D unit :=
  fun d => (tt, {| world := world d; ls_recycleBin := Some bin;
                   newFolderName := newFolderName d;
                   isCreateFolderOpen := isCreateFolderOpen d;
                   editingFolderId := editingFolderId d;
                   manifestToMoveId := manifestToMoveId d |}).

Definition setNewFolderName (v : string) : D unit :=
  fun d => (tt, {| world := world d; ls_recycleBin := ls_recycleBin d; newFolderName := v;
                   isCreateFolderOpen := isCreateFolderOpen d;
                   editingFolderId := editingFolderId d;
                   manifestToMoveId := manifestToMoveId d |}).

Definition setIsCreateFolderOpen (v : bool) : D unit :=
  fun d => (tt, {| world := world d; ls_recycleBin := ls_recycleBin d;
                   newFolderName := newFolderName d; isCreateFolderOpen := v;
                   editingFolderId := editingFolderId d;
                   manifestToMoveId := manifestToMoveId d |}).

Definition setEditingFolderId (v : option string) : D unit :=
  fun d => (tt, {| world := world d; ls_recycleBin := ls_recycleBin d;
                   newFolderName := newFolderName d;
                   isCreateFolderOpen := isCreateFolderOpen d; editingFolderId := v;
                   manifestToMoveId := manifestToMoveId d |}).

Definition setManifestToMoveId (v : option string) : D unit :=
  fun d => (tt, {| world := world d; ls_recycleBin := ls_recycleBin d;
                   newFolderName := newFolderName d;
                   isCreateFolderOpen := isCreateFolderOpen d;
                   editingFolderId := editingFolderId d; manifestToMoveId := v |}).

Definition setRecycleBin (v : list ManifestHistory) : M unit :=
  modifyApp (fun a =>
    {| history := history a; recycleBin := v; folders := folders a;
       currentFolderId := currentFolderId a; activeManifestId := activeManifestId a;
       rows := rows a; config := config a; manifestMeta := manifestMeta a;
       globalConfig := globalConfig a; view := view a; status := status a;
       isUploadModalOpen := isUploadModalOpen a; importConflict := importConflict a;
       bulkImportFolderId := bulkImportFolderId a;
       bulkImportNewFolderName := bulkImportNewFolderName a;
       bulkImportResults := bulkImportResults a; chunkSession := chunkSession a;
       chunkAiMode := chunkAiMode a |}).

Definition setCurrentFolderId (v : option string) : M unit :=
  modifyApp (fun a =>
    {| history := history a; recycleBin := recycleBin a; folders := folders a;
       currentFolderId := v; activeManifestId := activeManifestId a;
       rows := rows a; config := config a; manifestMeta := manifestMeta a;
       globalConfig := globalConfig a; view := view a; status := status a;
       isUploadModalOpen := isUploadModalOpen a; importConflict := importConflict a;
       bulkImportFolderId := bulkImportFolderId a;
       bulkImportNewFolderName := bulkImportNewFolderName a;
       bulkImportResults := bulkImportResults a; chunkSession := chunkSession a;
       chunkAiMode := chunkAiMode a |}).

Definition saveRecycleBin (newBin : list ManifestHistory) : D unit :=
  (onWorld (setRecycleBin newBin) ;; storeRecycleBin newBin)%desk.

Definition hasId (i : string) (h : ManifestHistory) : bool := String.eqb (m_id h) i.

Definition withFolder (f : option string) (h : ManifestHistory) : ManifestHistory :=
  {| m_id := m_id h; manifestNo := manifestNo h; manifestDate := manifestDate h;
     m_rows := m_rows h; m_config := m_config h; totalAmount := totalAmount h;
     itemCount := itemCount h; createdAt := createdAt h; folderId := f |}.

(** [softDeleteManifest(e, id)]; [confirmed] is the answer to [confirm],
    asked only when the manifest is found. *)
Definition softDeleteManifest (c : Desk) (i : string) (confirmed : bool) : D unit :=
  let a := appState (world c) in
  match find (hasId i) (history a) with
  | None => retD tt
  | Some manifestToDelete =>
      if confirmed then
        (let newHistory := filter (fun h => negb (hasId i h)) (history a) in
         onWorld (saveHistory newHistory) ;;
         let newBin := manifestToDelete :: recycleBin a in
         saveRecycleBin newBin ;;
         onWorld (setStatus (Some {| st_type := st_info;
                                     st_message := "Moved to Recycle Bin" |})))%desk
      else retD tt
  end.

Definition restoreManifest (c : Desk) (i : string) : D unit :=
  let a := appState (world c) in
  match find (hasId i) (recycleBin a) with
  | None => retD tt
  | Some manifestToRestore =>
      (let newBin := filter (fun h => negb (hasId i h)) (recycleBin a) in
       saveRecycleBin newBin ;;
       let newHistory := manifestToRestore :: history a in
       onWorld (saveHistory newHistory) ;;
       onWorld (setStatus (Some {| st_type := st_success;
                                   st_message := "Manifest Restored" |})))%desk
  end.

Definition permanentDeleteManifest (c : Desk) (i : string) (confirmed : bool) : D unit :=
  if confirmed
  then saveRecycleBin (filter (fun h => negb (hasId i h)) (recycleBin (appState (world c))))
  else retD tt.

Definition emptyRecycleBin (confirmed : bool) : D unit :=
  if confirmed then saveRecycleBin [] else retD tt.

Definition handleCreateFolder (c : Desk) : D unit :=
  if isBlank (newFolderName c) then retD tt
  else
    (newId <- onWorld randomUUID ;;
     now <- onWorld Date_now ;;
     let newFolder := {| f_id := newId; f_name := newFolderName c; f_createdAt := now |} in
     onWorld (saveFolders (folders (appState (world c)) ++ [newFolder])%list) ;;
     setNewFolderName EmptyString ;;
     setIsCreateFolderOpen false)%desk.

Definition handleRenameFolder (c : Desk) (i newName : string) : D unit :=
  (onWorld (saveFolders
     (map (fun f => if String.eqb (f_id f) i
                    then {| f_id := f_id f; f_name := newName; f_createdAt := f_createdAt f |}
                    else f)
          (folders (appState (world c))))) ;;
   setEditingFolderId None)%desk.

Definition handleDeleteFolder (c : Desk) (i : string) (confirmed : bool) : D unit :=
  let a := appState (world c) in
  if confirmed then
    (onWorld (saveFolders (filter (fun f => negb (String.eqb (f_id f) i)) (folders a))) ;;
     onWorld (saveHistory
       (map (fun h => if inFolder i h then withFolder None h else h) (history a))) ;;
     match currentFolderId a with
     | Some f => if String.eqb f i then onWorld (setCurrentFolderId None) else retD tt
     | None => retD tt
     end)%desk
  else retD tt.

Definition handleMoveManifest (c : Desk) (manifestId : string) (folder : option string)
  : D unit :=
  (onWorld (saveHistory
     (map (fun h => if hasId manifestId h then withFolder (truthy folder) h else h)
          (history (appState (world c))))) ;;
   setManifestToMoveId None ;;
   onWorld (setStatus (Some {| st_type := st_success;
                               st_message := "Manifest moved successfully." |})))%desk.

(** A user event at the desk: the handler of the current render runs. *)
Definition dispatchD (handler : Desk -> D unit) : D unit := fun d => handler d d.

Definition initialDesk (w : World) : Desk :=
  {| world := w; ls_recycleBin := None; newFolderName := EmptyString;
     isCreateFolderOpen := false; editingFolderId := None; manifestToMoveId := None |}.

(** The identities between the fields of a summary that every step of
    [summary] keeps. *)
Definition summaryBalanced (s : Summary) : Prop :=
  (parcelCountS1 s + parcelCountS2Plus s = parcelCount s)%Z /\
  len (heavyParcelWeightsList s) = parcelCountS2Plus s /\
  lightParcelsTotalWeight s + heavyParcelsTotalWeight s == totalBillableWeight s /\
  fold_right Qplus 0 (heavyParcelWeightsList s) == heavyParcelsTotalWeight s.

(** ** Events of the application

    The modelled handlers as events, each run as the handler of a render
    [c]. *)

Inductive Action :=
| ImportJson (file : JsonFile)
| ResolveConflict (action : ConflictAction)
| BulkImport (files : list JsonFile)
| StartChunkSession
| ChunkCapture (file : option Image)
| FinishChunk (overrideChunk : option (list Image))
| ProcessQueue
| AddRow
| UpdateRow (rowId : string) (updates : RowUpdates)
| DeleteRow (rowId : string)
| ApplyGlobalType (t : ItemType)
| Recalculate
| SaveManifest
| StartBlankSession
| OpenManifest (manifest : ManifestHistory).

Definition handlerOf (a : Action) (c : AppState) : M unit :=
  match a with
  | ImportJson file => handleJsonFile c file
  | ResolveConflict action => resolveConflict c action
  | BulkImport files => handleBulkJsonImport c files
  | StartChunkSession => startChunkSession c
  | ChunkCapture file => handleChunkCapture c file
  | FinishChunk overrideChunk => finishCurrentChunk c overrideChunk
  | ProcessQueue => processChunkQueue c
  | AddRow => addRow c
  | UpdateRow rowId updates => updateRow c rowId updates
  | DeleteRow rowId => deleteRow rowId
  | ApplyGlobalType t => applyGlobalType c t
  | Recalculate => recalculateRows c
  | SaveManifest => saveManifest c
  | StartBlankSession => startBlankSession c
  | OpenManifest manifest => openManifestFromHistory manifest
  end.

(** The event [a] happens: its handler of the current render runs. *)
Definition step (a : Action) : M unit := dispatch (handlerOf a).

Fixpoint steps (l : list Action) : M unit :=
  match l with
  | [] => ret tt
  | a :: rest => step a ;; steps rest
  end.

Inductive DeskAction :=
| OnApp (a : Action)
| SoftDelete (i : string) (confirmed : bool)
| Restore (i : string)
| PermanentDelete (i : string) (confirmed : bool)
| EmptyBin (confirmed : bool)
| CreateFolder
| RenameFolder (i newName : string)
| DeleteFolder (i : string) (confirmed : bool)
| MoveManifest (manifestId : string) (folder : option string).

Definition deskHandlerOf (a : DeskAction) (c : Desk) : D unit :=
  match a with
  | OnApp a => onWorld (handlerOf a (appState (world c)))
  | SoftDelete i confirmed => softDeleteManifest c i confirmed
  | Restore i => restoreManifest c i
  | PermanentDelete i confirmed => permanentDeleteManifest c i confirmed
  | EmptyBin confirmed => emptyRecycleBin confirmed
  | CreateFolder => handleCreateFolder c
  | RenameFolder i newName => handleRenameFolder c i newName
  | DeleteFolder i confirmed => handleDeleteFolder c i confirmed
  | MoveManifest manifestId folder => handleMoveManifest c manifestId folder
  end.

(** ** Reloading

    What the effect that runs on mount puts into the state: the stored item,
    or the initial value of the cell when the key is absent. *)

Definition storedHistory (w : World) : list ManifestHistory :=
  match ls_history w with Some h => h | None => [] end.

Definition storedFolders (w : World) : list Folder :=
  match ls_folders w with Some fs => fs | None => [] end.

Definition storedRecycleBin (d : Desk) : list ManifestHistory :=
  match ls_recycleBin d with Some bin => bin | None => [] end.

(** The live history, folders and chunk session are the stored ones. *)
Definition persisted (w : World) : Prop :=
  history (appState w) = storedHistory w /\
  folders (appState w) = storedFolders w /\
  chunkSession (appState w) = ls_chunkSession w.

(** ... and the recycle bin is [bin]. *)
Definition persistedWith (bin : list ManifestHistory) (w : World) : Prop :=
  persisted w /\ recycleBin (appState w) = bin.

(** The live history, folders, chunk session and recycle bin are the stored
    ones. *)
Definition persistedDesk (d : Desk) : Prop :=
  persistedWith (storedRecycleBin d) (world d).

(** [w'] has the state and the stored items of [w]. *)
Definition sameStore (w w' : World) : Prop :=
  appState w' = appState w /\ ls_history w' = ls_history w /\
  ls_folders w' = ls_folders w /\ ls_chunkSession w' = ls_chunkSession w.

(** A handler keeps a property of the world. *)
Definition preserves {A} (I : World -> Prop) (m : M A) : Prop :=
  forall w, I w -> I (snd (m w)).

(** The totals a manifest records are those of its rows. *)
Definition totalsMatch (h : ManifestHistory) : Prop :=
  totalAmount h = sumAmounts (m_rows h) /\ itemCount h = len (m_rows h).

(** Every manifest the state holds records the totals of its rows. *)
Definition consistentApp (a : AppState) : Prop :=
  Forall totalsMatch (history a) /\
  Forall totalsMatch (recycleBin a) /\
  match importConflict a with
  | Some conflict => totalsMatch (newCandidate conflict)
  | None => True
  end.

(** ** Serial numbers of the editor *)

(** The serial numbers of [rs] are [index + 1], [index + 2], ... in order. *)
Definition numberedFrom (index : nat) (rs : list BillingRow) : Prop :=
  map slNo rs = map (fun j => inject_Z (Z.of_nat j + 1)) (seq index (List.length rs)).

(** The events of the row editor that do not set a serial number. *)
Definition isEditorAction (a : Action) : bool :=
  match a with
  | AddRow | DeleteRow _ | ApplyGlobalType _ | Recalculate => true
  | UpdateRow _ updates => match up_slNo updates with None => true | Some _ => false end
  | _ => false
  end.

Definition consistentWorld (w : World) : Prop := consistentApp (appState w).

(** ** Tiers of the recognition client *)

(** The tiers a mode tries, in order. *)
Definition tiersOf (useHybridMode : bool) : list Tier :=
  if useHybridMode then [ACCURATE; FAST; FALLBACK] else [FAST; FALLBACK].

(** What the service does with the [j]-th request made from [w] on, when
    that request goes to tier [t]. *)
Definition outcomeAt (w : World) (inputs : list Image) (j : nat) (t : Tier) : ModelOutcome :=
  modelAt (env w) (List.length (modelCalls w) + j) t inputs.

(** The tier the first request of a queue run goes to. *)
Definition firstTier (mode : AiMode) : Tier :=
  match mode with
  | ModeHybrid => ACCURATE
  | ModeDefault | ModeAuto => FAST
  end.

(** [result.items || []] *)
Definition itemsOf (result : Recognition) : list RecognizedItem :=
  match r_items result with Some items => items | None => [] end.

(** ** Reports of the bulk import *)

(** The report says the file was imported. *)
Definition isImported (r : BulkImportStatus) : bool :=
  match bulk_status r with st_success => true | _ => false end.

(** The folder a bulk import started from [w] files its manifests in: the
    chosen one, or the new folder, whose identifier is the next one drawn. *)
Definition bulkImportTarget (c : AppState) (w : World) : string :=
  if String.eqb (bulkImportFolderId c) "new" then uuidAt (env w) (uuidCount w)
  else bulkImportFolderId c.

(** What the loop of the bulk import keeps true of its accumulators: the
    reports name the files [names], in order; there is one new manifest per
    report of an import; the new manifests are filed in [targetId]. *)
Definition accounted (targetId : string) (names : list string)
    (acc : list BulkImportStatus * list ManifestHistory) : Prop :=
  map fileName (fst acc) = names /\
  List.length (snd acc) = List.length (filter isImported (fst acc)) /\
  Forall (fun m => folderId m = Some targetId) (snd acc).

(** ** Further concrete worlds *)

(** Two rows are added, the first is deleted, the rest become documents. *)
Definition editingSession : list Action :=
  [AddRow; AddRow; DeleteRow "uuid-0"; ApplyGlobalType DOCUMENT].

(** The editor after one row was added. *)
Definition oneRowWorld : World := exec (steps [AddRow]) (initialWorld (scriptedEnv 0)).

(** The desk after the import of ["a.json"]. *)
Definition importedDesk : Desk := initialDesk importedOnce.

(** A blank session is saved and its manifest is moved to the recycle bin
    while it is still open. *)
Definition savedThenBinned : Desk :=
  execD (dispatchD (deskHandlerOf (OnApp SaveManifest)) ;;
         dispatchD (deskHandlerOf (SoftDelete "uuid-0" true)))%desk
        (initialDesk (initialWorld (scriptedEnv 0))).

(** A session with two one-page chunks in its queue. *)
Definition queuedWorld (e : Env) : World :=
  exec (dispatch startChunkSession ;;
        sessionSteps [Capture (Some pageA); CloseChunk; Capture (Some pageB); CloseChunk])
       (initialWorld e).

(** The bulk import dialog with an existing folder chosen. *)
Definition bulkApp : AppState :=
  {| history := []; recycleBin := []; folders := []; currentFolderId := None;
     activeManifestId := None; rows := []; config := DEFAULT_CONFIG;
     manifestMeta := {| meta_manifestNo := EmptyString; meta_manifestDate := EmptyString |};
     globalConfig := DEFAULT_CONFIG; view := dashboard; status := None;
     isUploadModalOpen := false; importConflict := None;
     bulkImportFolderId := "folder-1"; bulkImportNewFolderName := EmptyString;
     bulkImportResults := []; chunkSession := None; chunkAiMode := ModeDefault |}.

(** Two files with the same manifest number. *)
Definition twoFiles : list JsonFile :=
  [manifestFile "a.json" "MF-1" 5; manifestFile "b.json" "MF-1" 12].

(** Parcels of 4.2 kg, 12 kg and 150 kg, and a document. *)
Definition sampleRows : list BillingRow :=
  map (fun r => calculateRow r cfg321)
    [{| in_id := "r1"; in_slNo := 1; in_serialNo := "AWB-1"; in_description := "Box";
        in_type := PARCEL; in_weight := 42 # 10; in_rate := None; in_isManualRate := None |};
     {| in_id := "r2"; in_slNo := 2; in_serialNo := "AWB-2"; in_description := "Crate";
        in_type := PARCEL; in_weight := 12; in_rate := None; in_isManualRate := None |};
     {| in_id := "r3"; in_slNo := 3; in_serialNo := "AWB-3"; in_description := "Pallet";
        in_type := PARCEL; in_weight := 150; in_rate := None; in_isManualRate := None |};
     {| in_id := "r4"; in_slNo := 4; in_serialNo := "DOC-1"; in_description := "Letter";
        in_type := DOCUMENT; in_weight := 0; in_rate := None; in_isManualRate := None |}].

(** ** Accounting of a chunk session *)

(** Every captured manifest of the session is processed or in the queue. *)
Definition sessionAccounted (w : World) : Prop :=
  match chunkSession (appState w) with
  | Some s => totalManifestsCaptured s = (processedCount s + len (pendingChunks s))%Z
  | None => True
  end.

(** * Properties *)

(** ** Rate engine *)

Section RateEngine.

Lemma gt0_true (x : number) : gt0 x = true <-> 0 < x.
Proof.
  unfold gt0. rewrite negb_true_iff.
  destruct (Qle_bool x 0) eqn:E.
  - apply Qle_bool_iff in E. split; [discriminate | lra].
  - split; [intros _ | reflexivity].
    apply Qnot_le_lt. intro H. apply Qle_bool_iff in H. congruence.
Qed.

Lemma gt0_false (x : number) : gt0 x = false <-> x <= 0.
Proof.
  unfold gt0. rewrite negb_false_iff. apply Qle_bool_iff.
Qed.

Lemma Math_min_spec (a b : number) :
  (a <= b /\ Math_min a b = a) \/ (b < a /\ Math_min a b = b).
Proof.
  unfold Math_min. destruct (Qle_bool a b) eqn:E.
  - left. split; [now apply Qle_bool_iff | reflexivity].
  - right. split; [| reflexivity].
    apply Qnot_le_lt. intro H. apply Qle_bool_iff in H. congruence.
Qed.

Lemma Math_min_Qmin (a b : number) : Math_min a b == Qmin a b.
Proof.
  destruct (Math_min_spec a b) as [[H ->] | [H ->]].
  - symmetry. now apply Q.min_l.
  - symmetry. apply Q.min_r. lra.
Qed.

Lemma roundedWeight_nonneg (w : number) : 0 <= roundedWeight w.
Proof.
  unfold roundedWeight. destruct (gt0 w) eqn:E; [| lra].
  apply gt0_true in E. unfold Math_ceil.
  pose proof (Qle_ceiling w). lra.
Qed.

(** [roundedWeight] is the [ceil(max(w, 0))] of the specification. *)
Lemma roundedWeight_ceil_max (w : number) :
  roundedWeight w == inject_Z (Qceiling (Qmax w 0)).
Proof.
  unfold roundedWeight. destruct (gt0 w) eqn:E.
  - apply gt0_true in E. unfold Math_ceil.
    assert (H : Qmax w 0 == w) by (apply Q.max_l; lra).
    now rewrite H.
  - apply gt0_false in E.
    assert (H : Qmax w 0 == 0) by (apply Q.max_r; lra).
    rewrite H. reflexivity.
Qed.

Lemma roundedWeight_mono (w1 w2 : number) :
  w1 <= w2 -> roundedWeight w1 <= roundedWeight w2.
Proof.
  intro H. unfold roundedWeight.
  destruct (gt0 w1) eqn:E1; destruct (gt0 w2) eqn:E2.
  - unfold Math_ceil. rewrite <- Zle_Qle. now apply Qceiling_resp_le.
  - apply gt0_true in E1. apply gt0_false in E2. lra.
  - apply gt0_true in E2. unfold Math_ceil. pose proof (Qle_ceiling w2). lra.
  - lra.
Qed.

Ltac q_min :=
  match goal with
  | |- _ == Qmin ?a ?b =>
      let H := fresh "Hmin" in
      let E := fresh "Emin" in
      destruct (Q.min_spec a b) as [[H E] | [H E]]; rewrite E; lra
  end.

(** The three slab weights and the total, in terms of the billable weight. *)
Lemma parcel_amount_slabs (w : number) (cfg : BillingConfig) :
  let r := calculateParcelAmount w cfg in
  let b := roundedWeight w in
  s1w r == Qmin b 10 /\
  s2w r == Qmin (b - s1w r) 100 /\
  s3w r == b - s1w r - s2w r /\
  total r == s1w r * parcelSlab1Rate cfg + s2w r * parcelSlab2Rate cfg
             + s3w r * parcelSlab3Rate cfg.
Proof.
  intros r b. subst r. unfold calculateParcelAmount. fold b.
  pose proof (roundedWeight_nonneg w) as Hb. fold b in Hb.
  destruct (Math_min_spec b 10) as [[H1 E1] | [H1 E1]]; rewrite E1.
  - (* everything in slab 1 *)
    assert (G2 : gt0 (b - b) = false) by (apply gt0_false; lra).
    destruct (gt0 b) eqn:G1; cbn -[Qmin Qplus Qmult Qminus].
    + rewrite !G2. cbn -[Qmin Qplus Qmult Qminus].
      repeat split; try lra; q_min.
    + apply gt0_false in G1. assert (G3 : gt0 b = false) by (apply gt0_false; lra).
      rewrite !G3. cbn -[Qmin Qplus Qmult Qminus].
      assert (B0 : b == 0) by lra.
      repeat split; try lra; try q_min.
      rewrite B0. ring.
  - assert (G1 : gt0 10 = true) by reflexivity. rewrite G1.
    cbn -[Qmin Qplus Qmult Qminus].
    destruct (gt0 (b - 10)) eqn:G2; [| apply gt0_false in G2; lra].
    cbn -[Qmin Qplus Qmult Qminus].
    destruct (Math_min_spec (b - 10) 100) as [[H2 E2] | [H2 E2]]; rewrite !E2.
    + assert (G3 : gt0 (b - 10 - (b - 10)) = false) by (apply gt0_false; lra).
      rewrite G3. cbn -[Qmin Qplus Qmult Qminus]. repeat split; try lra; q_min.
    + assert (G3 : gt0 (b - 10 - 100) = true) by (apply gt0_true; lra).
      rewrite G3. cbn -[Qmin Qplus Qmult Qminus]. repeat split; try lra; q_min.
Qed.

Lemma slabTerm_not_empty (w r : number) (rest : string) :
  String.eqb (slabTerm w r ++ rest) EmptyString = false /\
  String.eqb (slabTerm w r) EmptyString = false.
Proof.
  unfold slabTerm. destruct (numberToString w); split; reflexivity.
Qed.

Lemma orString_join_slabs (w r : number) (ts : list string) (d : string) :
  orString (join " + " (slabTerm w r :: ts)) d = join " + " (slabTerm w r :: ts).
Proof.
  unfold orString, join. cbn [concat].
  destruct ts as [| t ts].
  - now rewrite (proj2 (slabTerm_not_empty w r EmptyString)).
  - now rewrite (proj1 (slabTerm_not_empty w r _)).
Qed.

Lemma orZero_idempotent (x : number) : orZero (orZero x) = orZero x.
Proof.
  unfold orZero. destruct (isZero x) eqn:E; [reflexivity | now rewrite E].
Qed.

End RateEngine.

(** C1.  For every weight and configuration the three slab weights of
    [calculateParcelAmount] add up to [ceil(max(w, 0))] (zero when the weight
    is zero or negative); slab 1 takes [min(billable, 10)], slab 2
    [min(remaining, 100)], slab 3 all that is left; and the total is
    [s1w * slab1Rate + s2w * slab2Rate + s3w * slab3Rate]. *)
Theorem calculateParcelAmount_slab_partition (w : number) (cfg : BillingConfig) :
  let r := calculateParcelAmount w cfg in
  let billable := inject_Z (Qceiling (Qmax w 0)) in
  s1w r + s2w r + s3w r == billable /\
  (if Qle_bool w 0 then billable == 0 else 0 < billable) /\
  total r == s1w r * parcelSlab1Rate cfg + s2w r * parcelSlab2Rate cfg
             + s3w r * parcelSlab3Rate cfg /\
  s1w r == Qmin billable 10 /\
  s2w r == Qmin (billable - s1w r) 100 /\
  s3w r == billable - s1w r - s2w r.
Proof.
  intros r billable.
  destruct (parcel_amount_slabs w cfg) as (H1 & H2 & H3 & HT).
  fold r in H1, H2, H3, HT.
  assert (HB : roundedWeight w == billable) by apply roundedWeight_ceil_max.
  rewrite HB in H1, H2, H3.
  repeat split; try assumption.
  - lra.
  - revert HB. unfold roundedWeight, gt0.
    destruct (Qle_bool w 0) eqn:E; cbn; intro HB; [lra |].
    assert (0 < w).
    { apply Qnot_le_lt. intro H. apply Qle_bool_iff in H. congruence. }
    revert HB. unfold Math_ceil. pose proof (Qle_ceiling w). lra.
Qed.

(** C9.  For a configuration whose rates are non-negative the total of
    [calculateParcelAmount] does not decrease when the weight grows. *)
Theorem calculateParcelAmount_monotone (cfg : BillingConfig) (w1 w2 : number) :
  0 <= parcelSlab1Rate cfg -> 0 <= parcelSlab2Rate cfg ->
  0 <= parcelSlab3Rate cfg -> 0 <= documentRate cfg ->
  w1 <= w2 ->
  total (calculateParcelAmount w1 cfg) <= total (calculateParcelAmount w2 cfg).
Proof.
  intros R1 R2 R3 _ Hw.
  destruct (parcel_amount_slabs w1 cfg) as (A1 & A2 & A3 & AT).
  destruct (parcel_amount_slabs w2 cfg) as (B1 & B2 & B3 & BT).
  cbv zeta in *.
  pose proof (roundedWeight_mono w1 w2 Hw) as Hb.
  pose proof (roundedWeight_nonneg w1) as Hb1.
  set (b1 := roundedWeight w1) in *. set (b2 := roundedWeight w2) in *.
  set (r1 := calculateParcelAmount w1 cfg) in *.
  set (r2 := calculateParcelAmount w2 cfg) in *.
  assert (S1 : s1w r1 <= s1w r2 /\ s2w r1 <= s2w r2 /\ s3w r1 <= s3w r2).
  { destruct (Q.min_spec b1 10) as [[? E1] | [? E1]];
    destruct (Q.min_spec b2 10) as [[? E2] | [? E2]];
    rewrite E1 in A1; rewrite E2 in B1;
    destruct (Q.min_spec (b1 - s1w r1) 100) as [[? E3] | [? E3]];
    destruct (Q.min_spec (b2 - s1w r2) 100) as [[? E4] | [? E4]];
    rewrite E3 in A2; rewrite E4 in B2; repeat split; lra. }
  destruct S1 as (S1 & S2 & S3).
  rewrite AT, BT.
  repeat apply Qplus_le_compat; apply Qmult_le_compat_r; assumption.
Qed.

Lemma calculateParcelAmount_monotone_witness :
  (0 <= parcelSlab1Rate cfg321 /\ 0 <= parcelSlab2Rate cfg321 /\
   0 <= parcelSlab3Rate cfg321 /\ 0 <= documentRate cfg321 /\ (514 # 100) <= 177) /\
  total (calculateParcelAmount (514 # 100) cfg321) <= total (calculateParcelAmount 177 cfg321).
Proof.
  split.
  - repeat split; unfold Qle; simpl; lia.
  - apply (calculateParcelAmount_monotone cfg321 (514 # 100) 177); unfold Qle; simpl; lia.
Defined.

(** C6, as the code has it.  The breakdown of [calculateParcelAmount] is the
    terms ["<weight>kg*<rate>"] of the slabs that received weight, in slab
    order, joined by [" + "]; when no slab received weight (the billable
    weight is zero) it is the placeholder ["₹0.00"].  For the rates 3, 2, 1
    and the weight 177 the total is 297 and the breakdown
    ["10kg*3 + 100kg*2 + 67kg*1"]. *)
Theorem calculateParcelAmount_breakdown (w : number) (cfg : BillingConfig) :
  let r := calculateParcelAmount w cfg in
  let term (sw rate : number) := if gt0 sw then [slabTerm sw rate] else [] in
  let terms := (term (s1w r) (parcelSlab1Rate cfg) ++ term (s2w r) (parcelSlab2Rate cfg)
                ++ term (s3w r) (parcelSlab3Rate cfg))%list in
  pa_breakdown r = match terms with [] => "₹0.00" | _ => join " + " terms end /\
  total (calculateParcelAmount 177 cfg321) == 297 /\
  pa_breakdown (calculateParcelAmount 177 cfg321) = "10kg*3 + 100kg*2 + 67kg*1".
Proof.
  intros r term terms. split; [| split; reflexivity].
  subst terms term r. unfold calculateParcelAmount.
  pose proof (roundedWeight_nonneg w) as Hb.
  set (b := roundedWeight w) in *.
  destruct (Math_min_spec b 10) as [[H1 E1] | [H1 E1]]; rewrite E1.
  - assert (G2 : gt0 (b - b) = false) by (apply gt0_false; lra).
    destruct (gt0 b) eqn:G1; cbn -[Qplus Qmult Qminus join orString slabTerm].
    + rewrite !G2. cbn -[Qplus Qmult Qminus join orString slabTerm].
      rewrite G1. cbn -[Qplus Qmult Qminus join orString slabTerm].
      apply orString_join_slabs.
    + rewrite !G1. cbn -[Qplus Qmult Qminus join orString slabTerm].
      rewrite G1. reflexivity.
  - assert (G1 : gt0 10 = true) by reflexivity. rewrite G1.
    cbn -[Qplus Qmult Qminus join orString slabTerm].
    destruct (gt0 (b - 10)) eqn:G2; [| apply gt0_false in G2; lra].
    cbn -[Qplus Qmult Qminus join orString slabTerm].
    destruct (Math_min_spec (b - 10) 100) as [[H2 E2] | [H2 E2]]; rewrite !E2.
    + assert (G3 : gt0 (b - 10 - (b - 10)) = false) by (apply gt0_false; lra).
      rewrite G3. cbn -[Qplus Qmult Qminus join orString slabTerm].
      rewrite ?G1, ?G2. cbn -[Qplus Qmult Qminus join orString slabTerm].
      apply orString_join_slabs.
    + assert (G3 : gt0 (b - 10 - 100) = true) by (apply gt0_true; lra).
      assert (G4 : gt0 100 = true) by reflexivity.
      rewrite G3. cbn -[Qplus Qmult Qminus join orString slabTerm].
      rewrite ?G1, ?G4, ?G3. cbn -[Qplus Qmult Qminus join orString slabTerm].
      apply orString_join_slabs.
Qed.

(** C6, as the specification words it, fails: with a weight of zero the
    total is zero and the breakdown is the placeholder, not the empty
    string. *)
Lemma calculateParcelAmount_breakdown_not_empty :
  total (calculateParcelAmount 0 cfg321) == 0 /\
  pa_breakdown (calculateParcelAmount 0 cfg321) = "₹0.00" /\
  pa_breakdown (calculateParcelAmount 0 cfg321) <> EmptyString.
Proof.
  repeat split; discriminate.
Qed.

(** C8.  [calculateRow] is idempotent: deriving a derived row again, under
    the same configuration, gives the same row, the back-computed display
    rate of a non-manual parcel row included. *)
Theorem calculateRow_idempotent (row : RowInput) (cfg : BillingConfig) :
  calculateRow (asInput (calculateRow row cfg)) cfg = calculateRow row cfg.
Proof.
  destruct row as [i sl ser de ty we ra ma].
  unfold calculateRow, asInput. cbn.
  destruct ty; destruct ma as [[|] |]; cbn; try reflexivity;
    destruct ra as [x |]; cbn; rewrite ?orZero_idempotent; reflexivity.
Qed.

(** C10.  [calculateRow] leaves [id], [slNo], [serialNo], [description],
    [type] and [weight] as they are in its argument. *)
Theorem calculateRow_frame (row : RowInput) (cfg : BillingConfig) :
  let r := calculateRow row cfg in
  id r = in_id row /\ slNo r = in_slNo row /\ serialNo r = in_serialNo row /\
  description r = in_description row /\ type r = in_type row /\
  weight r = in_weight row.
Proof.
  unfold calculateRow.
  destruct (ItemType_eqb (in_type row) DOCUMENT);
    [| destruct (negb match in_isManualRate row with Some b => b | None => false end)];
    cbn; repeat split; reflexivity.
Qed.

(** ** Expression evaluator *)

Section EvaluatorProperties.

Local Open Scope nat_scope.

Variable tokens : list string.

Lemma tokenIs_in_range (pos : nat) (t : string) :
  tokenIs tokens pos t = true -> pos < List.length tokens.
Proof.
  unfold tokenIs. destruct (nth_error tokens pos) eqn:E; [| discriminate].
  intros _. apply nth_error_Some. congruence.
Qed.

Lemma expressionLoop_forward (f : nat -> option (value * nat)) (rounds : nat) :
  forward f -> forall lhs, forward (expressionLoop tokens f rounds lhs).
Proof.
  intro F. induction rounds as [| rounds IH]; intros lhs pos v p H; cbn in H.
  - injection H as _ <-. lia.
  - destruct (tokenIs tokens pos "+" || tokenIs tokens pos "-").
    + destruct (f (pos + 1)) as [[rhs p1] |] eqn:E; [| discriminate H].
      apply F in E. apply IH in H. lia.
    + injection H as _ <-. lia.
Qed.

Lemma termLoop_forward (f : nat -> option (value * nat)) (rounds : nat) :
  forward f -> forall lhs, forward (termLoop tokens f rounds lhs).
Proof.
  intro F. induction rounds as [| rounds IH]; intros lhs pos v p H; cbn in H.
  - injection H as _ <-. lia.
  - destruct (tokenIs tokens pos "*" || tokenIs tokens pos "/").
    + destruct (f (pos + 1)) as [[rhs p1] |] eqn:E; [| discriminate H].
      apply F in E. apply IH in H. lia.
    + injection H as _ <-. lia.
Qed.

(** No function of the parser moves the cursor back. *)
Lemma parser_forward (stack : nat) :
  forward (parseExpression tokens stack) /\
  forward (parseTerm tokens stack) /\
  forward (parseFactor tokens stack).
Proof.
  induction stack as [| stack (IHE & IHT & IHF)].
  - repeat split; intros pos v p H; discriminate H.
  - repeat split; intros pos v p H; cbn in H.
    + destruct (parseTerm tokens stack pos) as [[lhs p1] |] eqn:E; [| discriminate H].
      apply IHT in E. apply (expressionLoop_forward _ _ IHT) in H. lia.
    + destruct (parseFactor tokens stack pos) as [[lhs p1] |] eqn:E; [| discriminate H].
      apply IHF in E. apply (termLoop_forward _ _ IHF) in H. lia.
    + destruct (nth_error tokens pos) as [token |]; [| injection H as _ <-; lia].
      destruct (String.eqb token "(").
      * destruct (parseExpression tokens stack (pos + 1)) as [[val p1] |] eqn:E;
          [| discriminate H].
        apply IHE in E. destruct (tokenIs tokens p1 ")"); injection H as _ <-; lia.
      * destruct (parseFloat token); injection H as _ <-; lia.
Qed.

(** The [while] of [parseExpression] needs no more rounds than there are
    tokens after the cursor: it ends because its condition fails. *)
Lemma expressionLoop_rounds (f : nat -> option (value * nat)) (r1 r2 : nat) :
  forward f -> forall lhs pos,
  List.length tokens - pos <= r1 -> List.length tokens - pos <= r2 ->
  expressionLoop tokens f r1 lhs pos = expressionLoop tokens f r2 lhs pos.
Proof.
  intro F. revert r2. induction r1 as [| r1 IH]; intros r2 lhs pos H1 H2.
  - destruct r2 as [| r2]; [reflexivity |]. cbn.
    destruct (tokenIs tokens pos "+" || tokenIs tokens pos "-") eqn:Op; [| reflexivity].
    apply orb_true_iff in Op. destruct Op as [Op | Op]; apply tokenIs_in_range in Op; lia.
  - cbn [expressionLoop].
    destruct (tokenIs tokens pos "+" || tokenIs tokens pos "-") eqn:Op.
    + assert (pos < List.length tokens).
      { apply orb_true_iff in Op.
        destruct Op as [Op | Op]; apply tokenIs_in_range in Op; exact Op. }
      destruct r2 as [| r2]; [lia |]. cbn [expressionLoop]. rewrite Op. cbv zeta.
      destruct (f (pos + 1)) as [[rhs p] |] eqn:E; [| reflexivity].
      apply F in E. apply IH; lia.
    + destruct r2 as [| r2]; [reflexivity |]. cbn [expressionLoop]. now rewrite Op.
Qed.

(** The [while] of [parseTerm] likewise. *)
Lemma termLoop_rounds (f : nat -> option (value * nat)) (r1 r2 : nat) :
  forward f -> forall lhs pos,
  List.length tokens - pos <= r1 -> List.length tokens - pos <= r2 ->
  termLoop tokens f r1 lhs pos = termLoop tokens f r2 lhs pos.
Proof.
  intro F. revert r2. induction r1 as [| r1 IH]; intros r2 lhs pos H1 H2.
  - destruct r2 as [| r2]; [reflexivity |]. cbn.
    destruct (tokenIs tokens pos "*" || tokenIs tokens pos "/") eqn:Op; [| reflexivity].
    apply orb_true_iff in Op. destruct Op as [Op | Op]; apply tokenIs_in_range in Op; lia.
  - cbn [termLoop].
    destruct (tokenIs tokens pos "*" || tokenIs tokens pos "/") eqn:Op.
    + assert (pos < List.length tokens).
      { apply orb_true_iff in Op.
        destruct Op as [Op | Op]; apply tokenIs_in_range in Op; exact Op. }
      destruct r2 as [| r2]; [lia |]. cbn [termLoop]. rewrite Op. cbv zeta.
      destruct (f (pos + 1)) as [[rhs p] |] eqn:E; [| reflexivity].
      apply F in E. apply IH; lia.
    + destruct r2 as [| r2]; [reflexivity |]. cbn [termLoop]. now rewrite Op.
Qed.

(** The loop of [parseExpression], given as many rounds as there are tokens,
    is the [while] of the source: one round and the loop again. *)
Lemma expressionLoop_while (stack : nat) (lhs : value) (pos : nat) :
  expressionLoop tokens (parseTerm tokens stack) (List.length tokens) lhs pos
  = if tokenIs tokens pos "+" || tokenIs tokens pos "-" then
      match parseTerm tokens stack (pos + 1) with
      | Some (rhs, p) =>
          expressionLoop tokens (parseTerm tokens stack) (List.length tokens)
            (addStep (nth pos tokens EmptyString) lhs rhs) p
      | None => None
      end
    else Some (lhs, pos).
Proof.
  destruct (parser_forward stack) as (_ & FT & _).
  rewrite (expressionLoop_rounds _ (List.length tokens) (S (List.length tokens)) FT lhs pos)
    by lia.
  reflexivity.
Qed.

(** The loop of [parseTerm] likewise. *)
Lemma termLoop_while (stack : nat) (lhs : value) (pos : nat) :
  termLoop tokens (parseFactor tokens stack) (List.length tokens) lhs pos
  = if tokenIs tokens pos "*" || tokenIs tokens pos "/" then
      match parseFactor tokens stack (pos + 1) with
      | Some (rhs, p) =>
          termLoop tokens (parseFactor tokens stack) (List.length tokens)
            (mulStep (nth pos tokens EmptyString) lhs rhs) p
      | None => None
      end
    else Some (lhs, pos).
Proof.
  destruct (parser_forward stack) as (_ & _ & FF).
  rewrite (termLoop_rounds _ (List.length tokens) (S (List.length tokens)) FF lhs pos)
    by lia.
  reflexivity.
Qed.

Lemma expressionLoop_extends (f g : nat -> option (value * nat)) (rounds : nat) :
  extends f g ->
  forall lhs, extends (expressionLoop tokens f rounds lhs) (expressionLoop tokens g rounds lhs).
Proof.
  intro X. induction rounds as [| rounds IH]; intros lhs pos r H; cbn in H |- *.
  - exact H.
  - destruct (tokenIs tokens pos "+" || tokenIs tokens pos "-"); [| exact H].
    destruct (f (pos + 1)) as [[rhs p] |] eqn:E; [| discriminate H].
    rewrite (X _ _ E). now apply IH.
Qed.

Lemma termLoop_extends (f g : nat -> option (value * nat)) (rounds : nat) :
  extends f g ->
  forall lhs, extends (termLoop tokens f rounds lhs) (termLoop tokens g rounds lhs).
Proof.
  intro X. induction rounds as [| rounds IH]; intros lhs pos r H; cbn in H |- *.
  - exact H.
  - destruct (tokenIs tokens pos "*" || tokenIs tokens pos "/"); [| exact H].
    destruct (f (pos + 1)) as [[rhs p] |] eqn:E; [| discriminate H].
    rewrite (X _ _ E). now apply IH.
Qed.

(** What the parser returns with some stack it returns with one frame more. *)
Lemma parser_one_more_frame (stack : nat) :
  extends (parseExpression tokens stack) (parseExpression tokens (S stack)) /\
  extends (parseTerm tokens stack) (parseTerm tokens (S stack)) /\
  extends (parseFactor tokens stack) (parseFactor tokens (S stack)).
Proof.
  induction stack as [| stack (IHE & IHT & IHF)].
  - repeat split; intros pos r H; discriminate H.
  - repeat split; intros pos r H.
    + cbn [parseExpression] in H |- *.
      destruct (parseTerm tokens stack pos) as [[lhs p] |] eqn:E; [| discriminate H].
      apply IHT in E. apply (expressionLoop_extends _ _ _ IHT) in H.
      now rewrite E.
    + cbn [parseTerm] in H |- *.
      destruct (parseFactor tokens stack pos) as [[lhs p] |] eqn:E; [| discriminate H].
      apply IHF in E. apply (termLoop_extends _ _ _ IHF) in H.
      now rewrite E.
    + cbn [parseFactor] in H |- *.
      destruct (nth_error tokens pos) as [token |]; [| exact H].
      destruct (String.eqb token "("); [| exact H].
      destruct (parseExpression tokens stack (pos + 1)) as [[val p] |] eqn:E;
        [| discriminate H].
      apply IHE in E. now rewrite E.
Qed.

Lemma parseExpression_more_stack (stack more : nat) :
  extends (parseExpression tokens stack) (parseExpression tokens (more + stack)).
Proof.
  induction more as [| more IH]; intros pos r H; [exact H |].
  cbn [Nat.add]. apply parser_one_more_frame. now apply IH.
Qed.

End EvaluatorProperties.

(** What [evaluateExpression] returns when the parser returns with [stack]
    frames, it returns with any more. *)
Lemma evaluateExpression_more_stack (stack more : nat) (input : string)
    (tokens : list string) (result : value) (pos : nat) :
  tokenize (removeSpaces input) = Some tokens ->
  parseExpression tokens stack 0 = Some (result, pos) ->
  evaluateExpression (more + stack) input = finiteOrZero result.
Proof.
  intros T P. unfold evaluateExpression. cbv zeta.
  destruct (String.eqb (removeSpaces input) EmptyString) eqn:E.
  - apply String.eqb_eq in E. rewrite E in T. discriminate T.
  - rewrite T. now rewrite (parseExpression_more_stack tokens stack more 0%nat _ P).
Qed.

(** In the loop of [parseTerm] a ["/"] whose right operand evaluates to
    zero sets the running value to 0 and the loop goes on. *)
Lemma termLoop_division_by_zero (tokens : list string)
    (parseFactor : nat -> option (value * nat)) (rounds : nat)
    (lhs rhs : value) (pos p : nat) :
  tokenIs tokens pos "/" = true ->
  parseFactor (pos + 1)%nat = Some (rhs, p) ->
  isZeroValue rhs = true ->
  termLoop tokens parseFactor (S rounds) lhs pos = termLoop tokens parseFactor rounds (Num 0) p.
Proof.
  intros Hop Hf Hz. cbn. rewrite Hop, orb_true_r, Hf.
  unfold tokenIs in Hop.
  destruct (nth_error tokens pos) as [t |] eqn:E; [| discriminate].
  apply String.eqb_eq in Hop. subst t.
  rewrite (nth_error_nth _ _ _ E).
  unfold mulStep. cbn. now rewrite Hz.
Qed.

(** An input without a token evaluates to [0]. *)
Lemma evaluateExpression_no_token (stack : nat) (input : string) :
  tokenize (removeSpaces input) = None -> evaluateExpression stack input = 0.
Proof.
  intro T. unfold evaluateExpression. cbv zeta. rewrite T.
  now destruct (String.eqb (removeSpaces input) EmptyString).
Qed.

(** A token list derived from the grammar ends with a number or a closing
    parenthesis. *)
Lemma derives_ends_with_operand (nt : Nonterminal) (ts : list string) :
  derives nt ts ->
  exists tok r, rev ts = tok :: r /\ (isNumberToken tok = true \/ tok = ")").
Proof.
  induction 1 as [tok Hn | ts _ _ | ts _ IH | ts1 op ts2 _ _ _ _ (tok & r & E & Ht)
                 | ts _ IH | ts1 op ts2 _ _ _ _ (tok & r & E & Ht)].
  - exists tok, []. split; [reflexivity | now left].
  - exists ")", (rev ts ++ ["("])%list. split; [| now right].
    cbn. rewrite rev_app_distr. reflexivity.
  - exact IH.
  - exists tok, (r ++ op :: rev ts1)%list. split; [| exact Ht].
    rewrite rev_app_distr. cbn. rewrite E, <- app_assoc. reflexivity.
  - exact IH.
  - exists tok, (r ++ op :: rev ts1)%list. split; [| exact Ht].
    rewrite rev_app_distr. cbn. rewrite E, <- app_assoc. reflexivity.
Qed.

Lemma spanDigits_length (s : string) :
  (String.length (snd (spanDigits s)) <= String.length s)%nat.
Proof.
  induction s as [| c r IH]; cbn; [lia |].
  destruct (isDigit c); [| cbn; lia].
  destruct (spanDigits r) as [ds rest]. cbn in *. lia.
Qed.

(** The tokenizer does not depend on its fuel once there is as much of it as
    there are characters. *)
Lemma matchTokens_fuel (n m : nat) (s : string) :
  (String.length s <= n)%nat -> (String.length s <= m)%nat ->
  matchTokens n s = matchTokens m s.
Proof.
  revert m s. induction n as [| n IH]; intros m s Hn Hm.
  - destruct s; [| cbn in Hn; lia]. destruct m; reflexivity.
  - destruct m as [| m]; [destruct s; [reflexivity | cbn in Hm; lia] |].
    destruct s as [| c rest]; [reflexivity |].
    cbn [matchTokens]. cbn [String.length] in Hn, Hm.
    destruct (isDigit c) eqn:D.
    + cbn [spanDigits]. rewrite D.
      pose proof (spanDigits_length rest) as L1.
      destruct (spanDigits rest) as [ds r1]. cbn [snd] in L1.
      assert (T : matchTokens n r1 = matchTokens m r1) by (apply IH; lia).
      destruct r1 as [| d r2]; [now rewrite T |].
      destruct (Ascii.eqb d "."%char) eqn:Dot.
      * apply Ascii.eqb_eq in Dot. subst d.
        pose proof (spanDigits_length r2) as L2.
        destruct (spanDigits r2) as [fs r3]. cbn [snd] in L2. cbn [String.length] in L1.
        destruct fs; [now rewrite T |].
        f_equal. apply IH; lia.
      * destruct d as [[|] [|] [|] [|] [|] [|] [|] [|]];
          try discriminate Dot; now rewrite T.
    + destruct (isOperator c); [f_equal |]; apply IH; lia.
Qed.

(** C5.  On ["2+"], which is not an expression of the grammar,
    [evaluateExpression] returns 2, not 0, whenever the call stack has room
    for the three nested calls the input takes: the missing operand is read
    as [0] and nothing is thrown for the [catch] to turn into [0].  The
    rest of the claim holds of the code: an input without a token (empty,
    white space only, or without any digit or operator character) gives 0;
    a division whose right operand is zero gives 0 for that term and
    parsing goes on; and ["12+15+30"] gives 57, ["10/0"] 0, the empty
    string 0, ["2*(3+4)"] 14, ["abc"] 0. *)
Theorem evaluateExpression_trailing_operator :
  ~ wellFormed "2+" /\
  (forall stack : nat,
     evaluatesTo (3 + stack) "2+" 2 /\ ~ evaluatesTo (3 + stack) "2+" 0) /\
  (forall (stack : nat) (input : string),
     tokenize (removeSpaces input) = None -> evaluateExpression stack input = 0) /\
  (forall (lhs : value) (d : positive), mulStep "/" lhs (Num (0 # d)) = Num 0) /\
  (forall (tokens : list string) (parseFactor : nat -> option (value * nat))
          (rounds : nat) (lhs rhs : value) (pos p : nat),
     tokenIs tokens pos "/" = true ->
     parseFactor (pos + 1)%nat = Some (rhs, p) ->
     isZeroValue rhs = true ->
     termLoop tokens parseFactor (S rounds) lhs pos
     = termLoop tokens parseFactor rounds (Num 0) p) /\
  (forall stack : nat,
     evaluatesTo (3 + stack) "12+15+30" 57 /\
     evaluatesTo (3 + stack) "10/0" 0 /\
     evaluatesTo stack EmptyString 0 /\
     evaluatesTo (6 + stack) "2*(3+4)" 14 /\
     evaluatesTo stack "abc" 0 /\
     evaluatesTo (3 + stack) "5+10/0" 5 /\
     evaluatesTo (6 + stack) "10/(5-5)" 0).
Proof.
  assert (R : forall (n stack : nat) (input : string) (tokens : list string)
                     (result : value) (pos : nat),
             tokenize (removeSpaces input) = Some tokens ->
             parseExpression tokens n 0 = Some (result, pos) ->
             evaluateExpression (n + stack) input = finiteOrZero result).
  { intros n stack input tokens result pos T P. rewrite Nat.add_comm.
    exact (evaluateExpression_more_stack n stack input tokens result pos T P). }
  split.
  { intros (ts & Tok & D). vm_compute in Tok. injection Tok as <-.
    apply derives_ends_with_operand in D.
    destruct D as (tok & r & E & [N | P]); cbn in E; injection E as <- <-; discriminate. }
  split.
  { intro stack. unfold evaluatesTo.
    rewrite (R 3%nat stack "2+" ["2"; "+"] (Num 2) 2%nat); [| reflexivity | vm_compute; reflexivity].
    split; [reflexivity | discriminate]. }
  split; [exact evaluateExpression_no_token |].
  split; [reflexivity |].
  split; [exact termLoop_division_by_zero |].
  intro stack. unfold evaluatesTo.
  split.
  { now rewrite (R 3%nat stack "12+15+30" ["12"; "+"; "15"; "+"; "30"] (Num 57) 5%nat);
      [| reflexivity | vm_compute; reflexivity]. }
  split.
  { now rewrite (R 3%nat stack "10/0" ["10"; "/"; "0"] (Num 0) 3%nat);
      [| reflexivity | vm_compute; reflexivity]. }
  split; [reflexivity |].
  split.
  { now rewrite (R 6%nat stack "2*(3+4)" ["2"; "*"; "("; "3"; "+"; "4"; ")"] (Num 14) 7%nat);
      [| reflexivity | vm_compute; reflexivity]. }
  split; [now rewrite (evaluateExpression_no_token stack "abc") |].
  split.
  { now rewrite (R 3%nat stack "5+10/0" ["5"; "+"; "10"; "/"; "0"] (Num 5) 5%nat);
      [| reflexivity | vm_compute; reflexivity]. }
  now rewrite (R 6%nat stack "10/(5-5)" ["10"; "/"; "("; "5"; "-"; "5"; ")"] (Num 0) 7%nat);
    [| reflexivity | vm_compute; reflexivity].
Qed.

(** ** Chunk session: capture and close *)

Section ChunkCapture.

Local Open Scope nat_scope.

Lemma capture_appends (w : World) (s : ChunkSession) (img : Image) :
  chunkSession (appState w) = Some s ->
  List.length (currentChunk s) < 4 ->
  exists s',
    chunkSession (appState (exec (sessionStep (Capture (Some img))) w)) = Some s' /\
    currentChunk s' = (currentChunk s ++ [img])%list /\
    pendingChunks s' = pendingChunks s.
Proof.
  intros Hs Hlen.
  unfold exec, sessionStep, dispatch, handleChunkCapture, bind, getApp. cbn.
  rewrite Hs.
  destruct (5 <=? len (currentChunk s ++ [img]))%Z eqn:E.
  - apply Z.leb_le in E. unfold len in E. rewrite length_app in E. cbn in E. lia.
  - cbn. eexists. repeat split.
Qed.

Lemma capture_closes (w : World) (s : ChunkSession) (img : Image) :
  chunkSession (appState w) = Some s ->
  4 <= List.length (currentChunk s) ->
  let w' := exec (sessionStep (Capture (Some img))) w in
  exists s',
    chunkSession (appState w') = Some s' /\
    currentChunk s' = [] /\
    pendingChunks s' =
      (pendingChunks s ++
       [{| chunk_id := uuidAt (env w) (uuidCount w);
           images := (currentChunk s ++ [img])%list |}])%list /\
    uuidCount w' = S (uuidCount w).
Proof.
  intros Hs Hlen.
  unfold exec, sessionStep, dispatch, handleChunkCapture, finishCurrentChunk, bind, getApp.
  cbn. rewrite Hs.
  assert (L : (5 <= len (currentChunk s ++ [img]))%Z).
  { unfold len. rewrite length_app. cbn. lia. }
  destruct (5 <=? len (currentChunk s ++ [img]))%Z eqn:E;
    [| apply Z.leb_gt in E; lia].
  destruct (len (currentChunk s ++ [img]) =? 0)%Z eqn:Z0;
    [apply Z.eqb_eq in Z0; lia |].
  cbn. eexists. repeat split.
Qed.

Lemma close_empty_noop (w : World) (s : ChunkSession) :
  chunkSession (appState w) = Some s ->
  currentChunk s = [] ->
  sessionStep CloseChunk w = (tt, w).
Proof.
  intros Hs He.
  unfold sessionStep, dispatch, finishCurrentChunk, bind, getApp. cbn.
  rewrite Hs, He. reflexivity.
Qed.

Lemma close_moves_chunk (w : World) (s : ChunkSession) :
  chunkSession (appState w) = Some s ->
  currentChunk s <> [] ->
  exists s',
    chunkSession (appState (exec (sessionStep CloseChunk) w)) = Some s' /\
    currentChunk s' = [] /\
    pendingChunks s' =
      (pendingChunks s ++
       [{| chunk_id := uuidAt (env w) (uuidCount w); images := currentChunk s |}])%list.
Proof.
  intros Hs Hne.
  unfold exec, sessionStep, dispatch, finishCurrentChunk, bind, getApp. cbn.
  rewrite Hs.
  destruct (len (currentChunk s) =? 0)%Z eqn:Z0.
  - apply Z.eqb_eq in Z0. unfold len in Z0.
    destruct (currentChunk s); [congruence | cbn in Z0; lia].
  - cbn. eexists. repeat split.
Qed.

Lemma sessionStep_keeps_bound (k : nat) (e : SessionEvent) (w : World) :
  4 <= k -> currentChunkWithin k w -> currentChunkWithin k (exec (sessionStep e) w).
Proof.
  intros Hk Hw. unfold currentChunkWithin in *.
  destruct (chunkSession (appState w)) as [s |] eqn:Hs; [| contradiction].
  destruct e as [[img |] |].
  - destruct (Nat.lt_ge_cases (List.length (currentChunk s)) 4) as [Lt | Ge].
    + destruct (capture_appends w s img Hs Lt) as (s' & -> & -> & _).
      rewrite length_app. cbn. lia.
    + destruct (capture_closes w s img Hs Ge) as (s' & -> & -> & _). cbn. lia.
  - unfold exec, sessionStep, dispatch, handleChunkCapture, bind, getApp. cbn.
    rewrite Hs. cbn. rewrite Hs. exact Hw.
  - destruct (currentChunk s) as [| i r] eqn:Hc.
    + unfold exec. rewrite (close_empty_noop w s Hs Hc). cbn. rewrite Hs, Hc. exact Hw.
    + destruct (close_moves_chunk w s Hs) as (s' & -> & -> & _); [congruence |].
      cbn. lia.
Qed.

Lemma sessionSteps_keep_bound (k : nat) (es : list SessionEvent) (w : World) :
  4 <= k -> currentChunkWithin k w -> currentChunkWithin k (exec (sessionSteps es) w).
Proof.
  intro Hk. revert w. induction es as [| e es IH]; intros w Hw; [exact Hw |].
  unfold exec. cbn [sessionSteps]. unfold bind.
  destruct (sessionStep e w) as [u w1] eqn:E.
  apply IH. replace w1 with (exec (sessionStep e) w) by (unfold exec; now rewrite E).
  now apply sessionStep_keeps_bound.
Qed.

End ChunkCapture.

(** C7.  In a chunk session a captured page is appended to [currentChunk];
    the page that makes five closes the chunk: the five images go to the end
    of [pendingChunks] under a newly generated identity and [currentChunk] is
    emptied.  From a new session, after any sequence of captures and closes,
    [currentChunk] holds at most 5 images (and a bound of 5 that holds is
    kept by every such sequence); five captures into a new session leave one
    pending chunk and an empty [currentChunk]; closing an empty
    [currentChunk] changes nothing. *)
Theorem chunk_capture_auto_close :
  (forall (w : World) (s : ChunkSession) (img : Image),
     chunkSession (appState w) = Some s ->
     (List.length (currentChunk s) < 4)%nat ->
     exists s',
       chunkSession (appState (exec (sessionStep (Capture (Some img))) w)) = Some s' /\
       currentChunk s' = (currentChunk s ++ [img])%list /\
       pendingChunks s' = pendingChunks s) /\
  (forall (w : World) (s : ChunkSession) (img : Image),
     chunkSession (appState w) = Some s ->
     List.length (currentChunk s) = 4%nat ->
     exists s',
       chunkSession (appState (exec (sessionStep (Capture (Some img))) w)) = Some s' /\
       currentChunk s' = [] /\
       pendingChunks s' =
         (pendingChunks s ++
          [{| chunk_id := uuidAt (env w) (uuidCount w);
              images := (currentChunk s ++ [img])%list |}])%list) /\
  (forall (w : World) (es : list SessionEvent),
     currentChunkWithin 5
       (exec (sessionSteps es) (exec (dispatch startChunkSession) w))) /\
  (forall (w : World) (es : list SessionEvent),
     currentChunkWithin 5 w -> currentChunkWithin 5 (exec (sessionSteps es) w)) /\
  (forall (w : World) (i1 i2 i3 i4 i5 : Image),
     let fresh := exec (dispatch startChunkSession) w in
     let w' := exec (sessionSteps [Capture (Some i1); Capture (Some i2); Capture (Some i3);
                                   Capture (Some i4); Capture (Some i5)]) fresh in
     option_map
       (fun s => (List.length (pendingChunks s), List.length (currentChunk s),
                  map images (pendingChunks s)))
       (chunkSession (appState w'))
     = Some (1%nat, 0%nat, [[i1; i2; i3; i4; i5]])) /\
  (forall (w : World) (s : ChunkSession),
     chunkSession (appState w) = Some s ->
     currentChunk s = [] ->
     exec (sessionStep CloseChunk) w = w).
Proof.
  split; [exact capture_appends |].
  split.
  { intros w s img Hs H4.
    destruct (capture_closes w s img Hs) as (s' & E1 & E2 & E3 & _); [lia |].
    exists s'. auto. }
  split.
  { intros w es. apply sessionSteps_keep_bound; [lia |].
    unfold currentChunkWithin. cbn. lia. }
  split.
  { intros w es. apply sessionSteps_keep_bound. lia. }
  split.
  { intros w i1 i2 i3 i4 i5. reflexivity. }
  intros w s Hs He. unfold exec. now rewrite (close_empty_noop w s Hs He).
Qed.

Lemma chunk_capture_auto_close_witness :
  (exists s',
     chunkSession (appState (exec (sessionStep (Capture (Some pageA))) startedSession))
       = Some s' /\
     currentChunk s' = [pageA] /\ pendingChunks s' = []) /\
  exec (sessionStep CloseChunk) startedSession = startedSession.
Proof.
  destruct (chunkSession (appState startedSession)) as [s |] eqn:Hs;
    [| vm_compute in Hs; discriminate Hs].
  assert (Hc : currentChunk s = []) by (vm_compute in Hs; injection Hs as <-; reflexivity).
  assert (Hp : pendingChunks s = []) by (vm_compute in Hs; injection Hs as <-; reflexivity).
  destruct chunk_capture_auto_close as (Append & _ & _ & _ & _ & CloseEmpty).
  split.
  - destruct (Append startedSession s pageA Hs) as (s' & E1 & E2 & E3).
    + rewrite Hc. cbn. lia.
    + exists s'. rewrite Hc in E2. rewrite Hp in E3. auto.
  - exact (CloseEmpty startedSession s Hs Hc).
Defined.

(** ** Conflict resolution *)

Section ConflictResolution.

Lemma filter_keeps_all {A} (p : A -> bool) (l : list A) :
  (forall x, In x l -> p x = true) -> filter p l = l.
Proof.
  induction l as [| x l IH]; intro H; [reflexivity |].
  cbn. rewrite (H x (or_introl eq_refl)). f_equal.
  apply IH. intros y Hy. apply H. now right.
Qed.

Lemma filter_other_ids_length (e : ManifestHistory) (l : list ManifestHistory) :
  NoDup (map m_id l) -> In e l ->
  S (List.length (filter (fun h => negb (String.eqb (m_id h) (m_id e))) l)) = List.length l.
Proof.
  induction l as [| x l IH]; intros ND Hin; [contradiction |].
  cbn in ND. apply NoDup_cons_iff in ND. destruct ND as [Nx ND].
  cbn [filter]. destruct (String.eqb (m_id x) (m_id e)) eqn:E; cbn.
  - f_equal. apply String.eqb_eq in E. rewrite filter_keeps_all; [reflexivity |].
    intros y Hy. apply negb_true_iff. apply String.eqb_neq. intro F.
    apply Nx. rewrite E, <- F. now apply in_map.
  - f_equal. apply IH; [exact ND |].
    destruct Hin as [-> | Hin]; [| exact Hin].
    rewrite String.eqb_refl in E. discriminate.
Qed.

Lemma filter_other_ids_drops (e : ManifestHistory) (l : list ManifestHistory) :
  ~ In e (filter (fun h => negb (String.eqb (m_id h) (m_id e))) l).
Proof.
  intro H. apply filter_In in H. destruct H as [_ H].
  rewrite String.eqb_refl in H. discriminate.
Qed.

End ConflictResolution.

(** C4.  Resolving an import conflict has three outcomes.  [keep_both]
    saves the candidate under a newly generated identity in front of the
    history, next to the existing entry; [override] removes the existing
    entry and saves the candidate under a newly generated identity, the rest
    of the history staying; [discard] leaves history and storage as they
    are.  Each outcome clears the conflict, and the two saving outcomes make
    the saved manifest the active billing session. *)
Theorem resolveConflict_outcomes (w : World) (conflict : ImportConflict) :
  importConflict (appState w) = Some conflict ->
  In (existing conflict) (history (appState w)) ->
  NoDup (map m_id (history (appState w))) ->
  ~ In (uuidAt (env w) (uuidCount w)) (map m_id (history (appState w))) ->
  let resolved a := exec (dispatch (fun c => resolveConflict c a)) w in
  let saved := withId (newCandidate conflict) (uuidAt (env w) (uuidCount w)) in
  let others :=
    filter (fun h => negb (String.eqb (m_id h) (m_id (existing conflict))))
      (history (appState w)) in
  (history (appState (resolved keep_both)) = saved :: history (appState w) /\
   ls_history (resolved keep_both) = Some (saved :: history (appState w)) /\
   m_id saved <> m_id (existing conflict) /\
   NoDup (map m_id (history (appState (resolved keep_both)))) /\
   isActiveSession saved (appState (resolved keep_both)) /\
   importConflict (appState (resolved keep_both)) = None) /\
  (history (appState (resolved override)) = saved :: others /\
   ls_history (resolved override) = Some (saved :: others) /\
   ~ In (existing conflict) (history (appState (resolved override))) /\
   List.length (history (appState (resolved override)))
     = List.length (history (appState w)) /\
   isActiveSession saved (appState (resolved override)) /\
   importConflict (appState (resolved override)) = None) /\
  (history (appState (resolved discard)) = history (appState w) /\
   ls_history (resolved discard) = ls_history w /\
   recycleBin (appState (resolved discard)) = recycleBin (appState w) /\
   activeManifestId (appState (resolved discard)) = activeManifestId (appState w) /\
   rows (appState (resolved discard)) = rows (appState w) /\
   importConflict (appState (resolved discard)) = None).
Proof.
  intros Hc Hin ND Hfresh resolved saved others.
  assert (Hne : m_id saved <> m_id (existing conflict)).
  { cbn. intro E. apply Hfresh. rewrite E. now apply in_map. }
  subst resolved.
  unfold exec, dispatch, resolveConflict, bind, getApp. cbn. rewrite Hc. cbn.
  fold saved. fold others.
  repeat split; try assumption; try reflexivity.
  - cbn. constructor; assumption.
  - intros [E | H].
    + apply Hne. now rewrite E.
    + now apply filter_other_ids_drops in H.
  - cbn. unfold others. now apply filter_other_ids_length.
Qed.



Lemma resolveConflict_outcomes_witness :
  exists conflict,
    importConflict (appState importedTwice) = Some conflict /\
    manifestNo (existing conflict) = manifestNo (newCandidate conflict) /\
    List.length (history (appState importedTwice)) = 1%nat /\
    List.length (history (appState
      (exec (dispatch (fun c => resolveConflict c keep_both)) importedTwice))) = 2%nat /\
    List.length (history (appState
      (exec (dispatch (fun c => resolveConflict c override)) importedTwice))) = 1%nat /\
    history (appState
      (exec (dispatch (fun c => resolveConflict c discard)) importedTwice))
      = history (appState importedTwice).
Proof.
  destruct firstConflict as [conflict |] eqn:F; [| discriminate F].
  exists conflict. injection F as <-.
  match goal with |- _ = Some ?c /\ _ => set (conflict := c) end.
  assert (Hc : importConflict (appState importedTwice) = Some conflict)
    by (vm_compute; reflexivity).
  assert (Hin : In (existing conflict) (history (appState importedTwice)))
    by (vm_compute; left; reflexivity).
  assert (ND : NoDup (map m_id (history (appState importedTwice)))).
  { vm_compute. repeat constructor. intros []. }
  assert (Hfresh : ~ In (uuidAt (env importedTwice) (uuidCount importedTwice))
                        (map m_id (history (appState importedTwice)))).
  { vm_compute. intros [E | []]. discriminate E. }
  destruct (resolveConflict_outcomes importedTwice conflict Hc Hin ND Hfresh)
    as ((K1 & _) & (_ & _ & _ & O4 & _) & (D1 & _)).
  split; [exact Hc |]. split; [reflexivity |]. split; [vm_compute; reflexivity |].
  split; [rewrite K1; vm_compute; reflexivity |].
  split; [rewrite O4; vm_compute; reflexivity | exact D1].
Defined.

(** ** Import and duplicate detection *)

Section ImportDeduplication.

Lemma find_number_some (no : string) (l : list ManifestHistory) (h : ManifestHistory) :
  In h l -> manifestNo h = no ->
  exists e,
    find (fun x => String.eqb (manifestNo x) no) l = Some e /\ In e l /\ manifestNo e = no.
Proof.
  intros Hin Hno.
  destruct (find (fun x => String.eqb (manifestNo x) no) l) as [e |] eqn:F.
  - apply find_some in F. destruct F as [He Hp]. apply String.eqb_eq in Hp. now exists e.
  - apply (find_none _ _ F) in Hin. apply String.eqb_neq in Hin. contradiction.
Qed.

Lemma find_number_none (no : string) (l : list ManifestHistory) :
  (forall h, In h l -> manifestNo h <> no) ->
  find (fun x => String.eqb (manifestNo x) no) l = None.
Proof.
  intro H. destruct (find (fun x => String.eqb (manifestNo x) no) l) as [e |] eqn:F;
    [| reflexivity].
  apply find_some in F. destruct F as [He Hp]. apply String.eqb_eq in Hp.
  now apply H in He.
Qed.

(** The single-file import of a number that is in the history raises the
    conflict and saves nothing. *)
Lemma handleJsonFile_conflict (w : World) (file : JsonFile) (content : ManifestJson)
    (rs : list RowInput) (no : string) (h : ManifestHistory) :
  file_json file = Some content -> j_rows content = RowsArray rs ->
  j_manifestNo content = Some no -> no <> EmptyString ->
  In h (history (appState w)) -> manifestNo h = no ->
  let w' := exec (dispatch (fun c => handleJsonFile c file)) w in
  (exists conflict,
     importConflict (appState w') = Some conflict /\
     In (existing conflict) (history (appState w)) /\
     manifestNo (existing conflict) = no /\
     manifestNo (newCandidate conflict) = no) /\
  history (appState w') = history (appState w) /\
  ls_history w' = ls_history w /\
  recycleBin (appState w') = recycleBin (appState w) /\
  activeManifestId (appState w') = activeManifestId (appState w).
Proof.
  intros Hf Hr Hn Hne Hin Hno w'. subst w'.
  destruct (find_number_some no _ h Hin Hno) as (e & F & He & Hen).
  apply String.eqb_neq in Hne.
  unfold exec, dispatch, handleJsonFile, bind, getApp. cbn.
  rewrite Hf, Hr, Hn. unfold orElse. rewrite Hne. cbn.
  destruct (j_manifestDate content) as [d |]; [destruct (String.eqb d EmptyString) |]; cbn;
    rewrite F; cbn; (split; [eexists; repeat split; eauto | repeat split]).
Qed.

(** The single-file import of a number that no history entry carries saves
    the manifest in front of the history, whatever the recycle bin holds. *)
Lemma handleJsonFile_imports (w : World) (file : JsonFile) (content : ManifestJson)
    (rs : list RowInput) (no : string) :
  file_json file = Some content -> j_rows content = RowsArray rs ->
  j_manifestNo content = Some no -> no <> EmptyString ->
  (forall h, In h (history (appState w)) -> manifestNo h <> no) ->
  let w' := exec (dispatch (fun c => handleJsonFile c file)) w in
  importConflict (appState w') = importConflict (appState w) /\
  exists m,
    history (appState w') = m :: history (appState w) /\
    ls_history w' = Some (m :: history (appState w)) /\
    manifestNo m = no /\
    activeManifestId (appState w') = Some (m_id m) /\
    rows (appState w') = m_rows m /\
    recycleBin (appState w') = recycleBin (appState w).
Proof.
  intros Hf Hr Hn Hne Hnone w'. subst w'.
  pose proof (find_number_none no _ Hnone) as F.
  apply String.eqb_neq in Hne.
  unfold exec, dispatch, handleJsonFile, bind, getApp. cbn.
  rewrite Hf, Hr, Hn. unfold orElse. rewrite Hne. cbn.
  destruct (j_manifestDate content) as [d |]; [destruct (String.eqb d EmptyString) |]; cbn;
    rewrite F; cbn; (split; [reflexivity | eexists; repeat split]).
Qed.

Lemma bulkImportLoop_app (c : AppState) (targetId : string) (l1 l2 : list JsonFile) :
  forall (i : nat) (acc : list BulkImportStatus * list ManifestHistory) (w : World),
    bulkImportLoop c targetId i (l1 ++ l2) acc w =
    let (a, w1) := bulkImportLoop c targetId i l1 acc w in
    bulkImportLoop c targetId (i + List.length l1) l2 a w1.
Proof.
  induction l1 as [| f l1 IH]; intros i acc w.
  - cbn. now rewrite Nat.add_0_r.
  - cbn [List.app bulkImportLoop List.length]. unfold bind.
    destruct (bulkImportFile c targetId i f acc w) as [a w1].
    rewrite IH. now rewrite Nat.add_succ_r.
Qed.

Lemma bulkImportFile_duplicate (c : AppState) (targetId : string) (i : nat)
    (file : JsonFile) (json : ManifestJson) (no : string) (m : ManifestHistory)
    (results : list BulkImportStatus) (newManifests : list ManifestHistory) (w : World) :
  file_json file = Some json -> j_manifestNo json = Some no -> manifestNo m = no ->
  In m (history c) \/ In m newManifests ->
  bulkImportFile c targetId i file (results, newManifests) w =
  ((results ++ [duplicateReport file])%list, newManifests, w).
Proof.
  intros Hf Hn Hm Hin. unfold bulkImportFile. rewrite Hf, Hn.
  assert (E : existsb (sameNumber (Some no)) (history c)
              || existsb (sameNumber (Some no)) newManifests = true).
  { apply orb_true_iff.
    destruct Hin as [Hin | Hin]; [left | right]; apply existsb_exists; exists m;
      (split; [exact Hin | cbn; now apply String.eqb_eq]). }
  rewrite E. reflexivity.
Qed.

Lemma bulkImportFile_keeps_state (c : AppState) (targetId : string) (i : nat)
    (file : JsonFile) (acc : list BulkImportStatus * list ManifestHistory) (w : World) :
  let w1 := snd (bulkImportFile c targetId i file acc w) in
  appState w1 = appState w /\ ls_history w1 = ls_history w /\
  ls_folders w1 = ls_folders w.
Proof.
  unfold bulkImportFile. destruct acc as [results newManifests].
  destruct (file_json file) as [json |]; [| now repeat split].
  destruct (existsb _ _ || existsb _ _); [now repeat split |].
  destruct (j_rows json); [now repeat split | now repeat split |].
  unfold bind, orElse.
  destruct (j_manifestNo json) as [n |]; [destruct (String.eqb n EmptyString) |];
    (destruct (j_manifestDate json) as [d |]; [destruct (String.eqb d EmptyString) |]);
    cbn; now repeat split.
Qed.

Lemma bulkImportLoop_keeps_state (c : AppState) (targetId : string) (files : list JsonFile) :
  forall (i : nat) (acc : list BulkImportStatus * list ManifestHistory) (w : World),
    let w1 := snd (bulkImportLoop c targetId i files acc w) in
    appState w1 = appState w /\ ls_history w1 = ls_history w /\
    ls_folders w1 = ls_folders w.
Proof.
  induction files as [| f files IH]; intros i acc w; [now repeat split |].
  cbn [bulkImportLoop]. unfold bind.
  pose proof (bulkImportFile_keeps_state c targetId i f acc w) as (A & L & F).
  destruct (bulkImportFile c targetId i f acc w) as [a w1]. cbn [snd] in A, L, F.
  destruct (IH (S i) a w1) as (A' & L' & F'). cbv zeta. repeat split; congruence.
Qed.

Lemma existsb_sameNumber_false (no : string) (l : list ManifestHistory) :
  (forall h, In h l -> manifestNo h <> no) -> existsb (sameNumber (Some no)) l = false.
Proof.
  intro H. destruct (existsb (sameNumber (Some no)) l) eqn:E; [| reflexivity].
  apply existsb_exists in E. destruct E as (h & Hin & Hs). cbn in Hs.
  apply String.eqb_eq in Hs. now apply H in Hin.
Qed.

(** A file whose number is neither in the history nor among the manifests
    already taken from the batch is imported into the target folder. *)
Lemma bulkImportFile_imports (c : AppState) (targetId : string) (i : nat)
    (file : JsonFile) (json : ManifestJson) (rs : list RowInput) (no : string)
    (results : list BulkImportStatus) (newManifests : list ManifestHistory) (w : World) :
  file_json file = Some json -> j_manifestNo json = Some no -> no <> EmptyString ->
  j_rows json = RowsArray rs ->
  (forall h, In h (history c) -> manifestNo h <> no) ->
  (forall h, In h newManifests -> manifestNo h <> no) ->
  exists m w1,
    bulkImportFile c targetId i file (results, newManifests) w =
      ((results ++ [{| fileName := file_name file; bulk_status := st_success;
                       bulk_message := "Imported" |}])%list,
       (newManifests ++ [m])%list, w1) /\
    manifestNo m = no /\ folderId m = Some targetId /\
    appState w1 = appState w.
Proof.
  intros Hf Hn Hne Hr H1 H2. unfold bulkImportFile. rewrite Hf, Hn, Hr.
  rewrite (existsb_sameNumber_false no _ H1), (existsb_sameNumber_false no _ H2).
  apply String.eqb_neq in Hne. unfold bind, orElse. rewrite Hne. cbn.
  destruct (j_manifestDate json) as [d |]; [destruct (String.eqb d EmptyString) |]; cbn;
    eexists; eexists; repeat split.
Qed.

End ImportDeduplication.

(** C3, as the code has it.  The single-file import of a candidate whose
    manifest number is that of a manifest in the history records one import
    conflict and saves nothing.  In the bulk import a file whose number is
    that of a manifest in the history, or of a manifest imported earlier in
    the same batch, only adds a "Duplicate skipped" report: no manifest is
    added and the batch goes on.  The handler, run on at most thirty files
    with a chosen folder or with a named new one, which it creates and
    stores, puts the reports of that loop in [bulkImportResults] and the
    manifests it imported in front of the history, stored as well, and
    raises no conflict.  A number carried only by a recycle-bin entry raises
    no conflict: the single-file import saves and opens the manifest as
    usual, and the bulk import takes it into the target folder. *)
Theorem import_deduplication :
  (forall (w : World) (file : JsonFile) (content : ManifestJson)
          (rs : list RowInput) (no : string) (h : ManifestHistory),
     file_json file = Some content -> j_rows content = RowsArray rs ->
     j_manifestNo content = Some no -> no <> EmptyString ->
     In h (history (appState w)) -> manifestNo h = no ->
     let w' := exec (dispatch (fun c => handleJsonFile c file)) w in
     (exists conflict,
        importConflict (appState w') = Some conflict /\
        In (existing conflict) (history (appState w)) /\
        manifestNo (existing conflict) = no /\
        manifestNo (newCandidate conflict) = no) /\
     history (appState w') = history (appState w) /\
     ls_history w' = ls_history w /\
     recycleBin (appState w') = recycleBin (appState w) /\
     activeManifestId (appState w') = activeManifestId (appState w)) /\
  (forall (c : AppState) (targetId : string) (w : World)
          (before after : list JsonFile) (file : JsonFile)
          (json : ManifestJson) (no : string) (m : ManifestHistory),
     file_json file = Some json -> j_manifestNo json = Some no -> manifestNo m = no ->
     In m (history c)
     \/ In m (snd (fst (bulkImportLoop c targetId 0 before ([], []) w))) ->
     bulkImportLoop c targetId 0 (before ++ file :: after) ([], []) w =
     let '(results, newManifests, w1) := bulkImportLoop c targetId 0 before ([], []) w in
     bulkImportLoop c targetId (S (List.length before)) after
       ((results ++ [duplicateReport file])%list, newManifests) w1) /\
  (forall (w : World) (files : list JsonFile),
     (len files <= 30)%Z ->
     (bulkImportFolderId (appState w) = "new" ->
      isBlank (bulkImportNewFolderName (appState w)) = false) ->
     let c := appState w in
     let (targetId, start) := determineTargetFolder c w in
     let '(results, newManifests, _) :=
       bulkImportLoop c targetId 0 files ([], []) start in
     let w' := exec (dispatch (fun c => handleBulkJsonImport c files)) w in
     history (appState w') = (newManifests ++ history c)%list /\
     ls_history w' = Some (newManifests ++ history c)%list /\
     bulkImportResults (appState w') = results /\
     importConflict (appState w') = importConflict c /\
     (bulkImportFolderId c = "new" ->
      targetId = f_id (newImportFolder c w) /\
      folders (appState w') = (folders c ++ [newImportFolder c w])%list /\
      ls_folders w' = Some (folders c ++ [newImportFolder c w])%list) /\
     (bulkImportFolderId c <> "new" ->
      targetId = bulkImportFolderId c /\ start = w /\
      folders (appState w') = folders c /\ ls_folders w' = ls_folders w)) /\
  (forall (w : World) (file : JsonFile) (content : ManifestJson)
          (rs : list RowInput) (no : string) (binned : ManifestHistory),
     file_json file = Some content -> j_rows content = RowsArray rs ->
     j_manifestNo content = Some no -> no <> EmptyString ->
     In binned (recycleBin (appState w)) -> manifestNo binned = no ->
     (forall h, In h (history (appState w)) -> manifestNo h <> no) ->
     let w' := exec (dispatch (fun c => handleJsonFile c file)) w in
     importConflict (appState w') = importConflict (appState w) /\
     exists m,
       history (appState w') = m :: history (appState w) /\
       ls_history w' = Some (m :: history (appState w)) /\
       manifestNo m = no /\
       activeManifestId (appState w') = Some (m_id m) /\
       rows (appState w') = m_rows m /\
       recycleBin (appState w') = recycleBin (appState w)) /\
  (forall (c : AppState) (targetId : string) (i : nat) (file : JsonFile)
          (json : ManifestJson) (rs : list RowInput) (no : string)
          (binned : ManifestHistory)
          (results : list BulkImportStatus) (newManifests : list ManifestHistory)
          (w : World),
     file_json file = Some json -> j_manifestNo json = Some no -> no <> EmptyString ->
     j_rows json = RowsArray rs ->
     In binned (recycleBin c) -> manifestNo binned = no ->
     (forall h, In h (history c) -> manifestNo h <> no) ->
     (forall h, In h newManifests -> manifestNo h <> no) ->
     exists m w1,
       bulkImportFile c targetId i file (results, newManifests) w =
         ((results ++ [{| fileName := file_name file; bulk_status := st_success;
                          bulk_message := "Imported" |}])%list,
          (newManifests ++ [m])%list, w1) /\
       manifestNo m = no /\ folderId m = Some targetId /\
       appState w1 = appState w).
Proof.
  split; [exact handleJsonFile_conflict |].
  split.
  { intros c targetId w before after file json no m Hf Hn Hm Hin.
    rewrite bulkImportLoop_app.
    destruct (bulkImportLoop c targetId 0 before ([], []) w) as [[results newManifests] w1].
    cbn [fst snd] in Hin. cbn [bulkImportLoop]. unfold bind.
    rewrite (bulkImportFile_duplicate c targetId _ file json no m results newManifests w1
               Hf Hn Hm Hin).
    reflexivity. }
  split.
  { intros w files H30 Hname. cbv zeta.
    apply Z.leb_le in H30. rewrite Z.leb_antisym in H30. apply negb_true_iff in H30.
    unfold determineTargetFolder.
    destruct (String.eqb (bulkImportFolderId (appState w)) "new") eqn:N.
    - pose proof (Hname (proj1 (String.eqb_eq _ _) N)) as Hb.
      unfold exec, dispatch, handleBulkJsonImport, getApp.
      unfold bind, ret, randomUUID, Date_now, updateFolders, saveFolders, setFolders,
        storeFolders, modifyApp, tickClock. cbn.
      rewrite H30, N, Hb. cbn.
      match goal with
      | |- context [bulkImportLoop ?c ?t 0 files ([], []) ?s] =>
          pose proof (bulkImportLoop_keeps_state c t files 0 ([], []) s) as (A & L & F);
          destruct (bulkImportLoop c t 0 files ([], []) s) as [[results newManifests] w1]
      end.
      cbn [snd appState ls_history ls_folders] in A, L, F. cbn. rewrite A, F. cbn.
      repeat split; try reflexivity.
      all: exfalso; apply String.eqb_eq in N; congruence.
    - cbn [ret].
      pose proof (bulkImportLoop_keeps_state (appState w) (bulkImportFolderId (appState w))
                    files 0 ([], []) w) as (A & L & F).
      destruct (bulkImportLoop (appState w) (bulkImportFolderId (appState w)) 0 files
                  ([], []) w) as [[results newManifests] w1] eqn:E.
      cbn [snd] in A, L, F.
      unfold exec, dispatch, handleBulkJsonImport, bind, getApp. cbn.
      rewrite H30, N, E. cbn. rewrite A, F.
      repeat split; try reflexivity.
      all: exfalso; apply String.eqb_neq in N; congruence. }
  split.
  { intros w file content rs no binned Hf Hr Hn Hne _ _ Hnone.
    now apply (handleJsonFile_imports w file content rs no). }
  intros c targetId i file json rs no binned results newManifests w Hf Hn Hne Hr _ _ H1 H2.
  now apply (bulkImportFile_imports c targetId i file json rs no).
Qed.

(** C3, as the specification words it, fails: in a batch of two files with
    the number ["MF-9"], the first without rows, the first is reported as
    invalid and the second is imported, although an earlier item of the
    batch has its number. *)
Lemma bulk_import_after_rejected_item :
  let files := [numberOnlyFile "a.json" "MF-9"; manifestFile "b.json" "MF-9" 5] in
  let w' := exec (dispatch (fun c => handleBulkJsonImport c files)) newFolderDialog in
  map (fun file => match file_json file with
                   | Some json => j_manifestNo json
                   | None => None
                   end) files = [Some "MF-9"; Some "MF-9"] /\
  map (fun r => (fileName r, bulk_message r)) (bulkImportResults (appState w'))
  = [("a.json", "Invalid structure"); ("b.json", "Imported")] /\
  map manifestNo (history (appState w')) = ["MF-9"] /\
  ls_history w' = Some (history (appState w')).
Proof.
  vm_compute. repeat split; reflexivity.
Qed.

Lemma import_deduplication_witness :
  let again :=
    exec (dispatch (fun c => handleJsonFile c (manifestFile "b.json" "MF-1" 12)))
         importedOnce in
  let files :=
    [manifestFile "a.json" "MF-2" 5; manifestFile "b.json" "MF-2" 12;
     manifestFile "c.json" "MF-3" 7] in
  let bulk := exec (dispatch (fun c => handleBulkJsonImport c files)) newFolderDialog in
  (exists conflict,
     importConflict (appState again) = Some conflict /\
     manifestNo (existing conflict) = "MF-1") /\
  history (appState again) = history (appState importedOnce) /\
  ls_history again = ls_history importedOnce /\
  (len files <= 30)%Z /\
  isBlank (bulkImportNewFolderName (appState newFolderDialog)) = false /\
  map bulk_message (bulkImportResults (appState bulk))
  = ["Imported"; "Duplicate skipped"; "Imported"] /\
  map manifestNo (history (appState bulk)) = ["MF-2"; "MF-3"] /\
  ls_history bulk = Some (history (appState bulk)) /\
  map f_name (folders (appState bulk)) = ["March"] /\
  ls_folders bulk = Some (folders (appState bulk)).
Proof.
  intros again files bulk.
  assert (Hin : In (hd (mkManifest "none" "none" "none" [] cfg321 0 0 0 None)
                      (history (appState importedOnce)))
                   (history (appState importedOnce)))
    by (vm_compute; left; reflexivity).
  destruct (proj1 import_deduplication importedOnce (manifestFile "b.json" "MF-1" 12)
              _ _ "MF-1" _ eq_refl eq_refl eq_refl ltac:(discriminate) Hin
              ltac:(vm_compute; reflexivity))
    as ((conflict & Hc & _ & He & _) & Hh & Hl & _).
  fold again in Hc, Hh, Hl.
  split; [exists conflict; split; [exact Hc | exact He] |].
  split; [exact Hh |]. split; [exact Hl |].
  assert (H30 : (len files <= 30)%Z) by (vm_compute; discriminate).
  assert (Hname : bulkImportFolderId (appState newFolderDialog) = "new"%string ->
                  isBlank (bulkImportNewFolderName (appState newFolderDialog)) = false)
    by reflexivity.
  split; [exact H30 |]. split; [reflexivity |].
  pose proof (proj1 (proj2 (proj2 import_deduplication)) newFolderDialog files H30 Hname)
    as B.
  cbv zeta in B.
  assert (R : let t := determineTargetFolder (appState newFolderDialog) newFolderDialog in
              let r := bulkImportLoop (appState newFolderDialog) (fst t) 0 files ([], [])
                         (snd t) in
              map bulk_message (fst (fst r)) = ["Imported"; "Duplicate skipped"; "Imported"]
              /\ map manifestNo (snd (fst r)) = ["MF-2"; "MF-3"])
    by (vm_compute; split; reflexivity).
  cbv zeta in R. subst bulk. revert B R.
  destruct (determineTargetFolder (appState newFolderDialog) newFolderDialog)
    as [targetId start].
  cbn [fst snd].
  destruct (bulkImportLoop (appState newFolderDialog) targetId 0 files ([], []) start)
    as [[results newManifests] w1].
  cbn [fst snd].
  intros (Bh & Bl & Br & _ & Bnew & _) (Rm & Rn).
  destruct (Bnew eq_refl) as (_ & Bf & Bs).
  rewrite Bh, Bl, Br, Bf, Bs.
  change (history (appState newFolderDialog)) with (@nil ManifestHistory).
  rewrite app_nil_r.
  split; [exact Rm |]. split; [exact Rn |].
  repeat split; reflexivity.
Defined.

(** ** Queue drain *)

(** C2, on the code.  A session is started, three one-page chunks (pages A,
    B, C) are closed and the queue is processed with the strategy [default],
    the recognition service answering its first two requests and failing
    all later ones.  The run ends with no follow-up call scheduled,
    [processedCount = 2], one pending chunk, [isProcessing = false] and two
    new manifests in the folder of the session.  But every request carried
    page A: each follow-up call is the [processChunkQueue] of the render of
    the click and reads the queue that render captured.  The chunk of page B
    left the queue without being sent, both manifests come from page A, and
    the chunk at the head of the queue, page C, is not the one whose
    recognition failed. *)
Theorem processChunkQueue_reuses_captured_queue :
  let w := threeChunkDrain (scriptedEnv 2) 10 in
  timers w = [] /\
  option_map (fun s => (processedCount s, map images (pendingChunks s), isProcessing s))
    (chunkSession (appState w)) = Some (2%Z, [[pageC]], false) /\
  ls_chunkSession w = chunkSession (appState w) /\
  option_map cs_folderId (chunkSession (appState w)) = Some "uuid-0" /\
  map folderId (history (appState w)) = [Some "uuid-0"; Some "uuid-0"] /\
  modelCalls w = [(FAST, [pageA]); (FAST, [pageA]); (FAST, [pageA]); (FALLBACK, [pageA])].
Proof.
  vm_compute. repeat split.
Qed.

(** * Further properties *)

(** ** Rate engine *)

Lemma roundedWeight_idempotent (w : number) :
  roundedWeight (roundedWeight w) = roundedWeight w.
Proof.
  unfold roundedWeight at 2 3. destruct (gt0 w) eqn:E; [| reflexivity].
  apply gt0_true in E. unfold roundedWeight, Math_ceil.
  assert (G : gt0 (inject_Z (Qceiling w)) = true).
  { apply gt0_true. pose proof (Qle_ceiling w). lra. }
  rewrite G. now rewrite Qceiling_Z.
Qed.

(** X1.  The slabs of [calculateParcelAmount] fill in order: slab 1 holds at
    most 10 kg, slab 2 at most 100 kg, no slab is negative, slab 2 receives
    weight only when slab 1 is full and slab 3 only when slab 2 is full. *)
Theorem parcel_slabs_fill_in_order (w : number) (cfg : BillingConfig) :
  let r := calculateParcelAmount w cfg in
  (0 <= s1w r /\ s1w r <= 10) /\
  (0 <= s2w r /\ s2w r <= 100) /\
  0 <= s3w r /\
  (0 < s2w r -> s1w r == 10) /\
  (0 < s3w r -> s2w r == 100).
Proof.
  intro r. destruct (parcel_amount_slabs w cfg) as (H1 & H2 & H3 & _).
  fold r in H1, H2, H3.
  pose proof (roundedWeight_nonneg w) as Hb.
  set (b := roundedWeight w) in *.
  destruct (Q.min_spec b 10) as [[? E1] | [? E1]]; rewrite E1 in H1;
  destruct (Q.min_spec (b - s1w r) 100) as [[? E2] | [? E2]]; rewrite E2 in H2;
  repeat match goal with
         | |- _ /\ _ => split
         | |- _ < _ -> _ => intro
         end; lra.
Qed.

(** X2.  Only the rounded-up weight counts: [calculateParcelAmount] gives the
    same result for a weight and for its billable weight. *)
Theorem parcel_amount_of_rounded_weight (w : number) (cfg : BillingConfig) :
  calculateParcelAmount (roundedWeight w) cfg = calculateParcelAmount w cfg.
Proof.
  unfold calculateParcelAmount. now rewrite roundedWeight_idempotent.
Qed.


(** ** Session summary *)

Section SummaryProperties.

Variable cfg : BillingConfig.

Lemma fold_right_Qplus_app (l : list number) (x : number) :
  fold_right Qplus 0 (l ++ [x]) == fold_right Qplus 0 l + x.
Proof.
  induction l as [| y l IH]; cbn [fold_right List.app]; [ring | rewrite IH; ring].
Qed.

Lemma summaryStep_balanced (s : Summary) (row : BillingRow) :
  summaryBalanced s -> summaryBalanced (summaryStep cfg s row).
Proof.
  intros (I1 & I2 & I3 & I4). unfold summaryStep, summaryBalanced.
  destruct (ItemType_eqb (type row) DOCUMENT); cbn -[calculateParcelAmount Qle_bool].
  - repeat split; assumption.
  - destruct (Qle_bool (Math_ceil (weight row)) 10);
      repeat match goal with |- _ /\ _ => split end; try lia; try lra.
    + unfold len in *. rewrite length_app. cbn. lia.
    + rewrite fold_right_Qplus_app. lra.
Qed.

Lemma summaryStep_counts (s : Summary) (row : BillingRow) :
  (docCount (summaryStep cfg s row) + parcelCount (summaryStep cfg s row)
   = docCount s + parcelCount s + 1)%Z.
Proof.
  unfold summaryStep.
  destruct (ItemType_eqb (type row) DOCUMENT); cbn -[calculateParcelAmount Qle_bool]; lia.
Qed.

Lemma summary_fold_balanced (rs : list BillingRow) :
  forall s, summaryBalanced s ->
    summaryBalanced (fold_left (summaryStep cfg) rs s) /\
    (docCount (fold_left (summaryStep cfg) rs s)
     + parcelCount (fold_left (summaryStep cfg) rs s)
     = docCount s + parcelCount s + len rs)%Z.
Proof.
  induction rs as [| row rs IH]; intros s Hs.
  - cbn. split; [exact Hs | unfold len; cbn; lia].
  - cbn [fold_left].
    destruct (IH _ (summaryStep_balanced s row Hs)) as [B C].
    split; [exact B |]. rewrite C, summaryStep_counts. unfold len. cbn [List.length]. lia.
Qed.

(** [Math.ceil] of a weight above -1 is the billable weight. *)
Lemma Math_ceil_roundedWeight (w : number) : -1 < w -> Math_ceil w == roundedWeight w.
Proof.
  intro H. unfold roundedWeight. destruct (gt0 w) eqn:G; [reflexivity |].
  apply gt0_false in G. unfold Math_ceil.
  pose proof (Qle_ceiling w) as Up. pose proof (Qceiling_lt w) as Low.
  assert (E : Qceiling w = 0%Z).
  { assert (A : (-1 < Qceiling w)%Z)
      by (rewrite Zlt_Qlt; change (inject_Z (-1)) with (-1 # 1); lra).
    assert (B : (Qceiling w - 1 < 0)%Z)
      by (rewrite Zlt_Qlt; change (inject_Z 0) with 0; lra).
    lia. }
  rewrite E. reflexivity.
Qed.

Lemma summaryStep_slabs (s : Summary) (row : BillingRow) :
  (type row = PARCEL -> -1 < weight row) ->
  slab1Weight s + slab2Weight s + slab3Weight s == totalBillableWeight s ->
  slab1Weight (summaryStep cfg s row) + slab2Weight (summaryStep cfg s row)
  + slab3Weight (summaryStep cfg s row) == totalBillableWeight (summaryStep cfg s row).
Proof.
  intros Hw Hs. unfold summaryStep.
  destruct (type row) eqn:T; cbn -[calculateParcelAmount Qle_bool]; [| exact Hs].
  destruct (parcel_amount_slabs (weight row) cfg) as (H1 & H2 & H3 & _). cbv zeta in *.
  rewrite (Math_ceil_roundedWeight _ (Hw eq_refl)). lra.
Qed.

End SummaryProperties.

(** X4.  The counters of [summary] add up: documents and parcels are all the
    rows, light and heavy parcels are all the parcels, the list of heavy
    weights has one entry per heavy parcel and sums to the heavy total, and
    the light and heavy totals make the total billable weight. *)
Theorem summary_counters_add_up (rs : list BillingRow) (cfg : BillingConfig) :
  let s := summary rs cfg in
  (docCount s + parcelCount s = len rs)%Z /\
  (parcelCountS1 s + parcelCountS2Plus s = parcelCount s)%Z /\
  len (heavyParcelWeightsList s) = parcelCountS2Plus s /\
  fold_right Qplus 0 (heavyParcelWeightsList s) == heavyParcelsTotalWeight s /\
  lightParcelsTotalWeight s + heavyParcelsTotalWeight s == totalBillableWeight s.
Proof.
  intro s. subst s. unfold summary.
  destruct (summary_fold_balanced cfg rs emptySummary) as [(I1 & I2 & I3 & I4) C].
  { unfold summaryBalanced. cbn. repeat split; reflexivity. }
  cbn in C. repeat match goal with |- _ /\ _ => split end; assumption.
Qed.

(** X5.  When no parcel row has a weight of -1 or less, the three slab
    weights of [summary] add up to its total billable weight. *)
Theorem summary_slabs_cover_billable_weight (rs : list BillingRow) (cfg : BillingConfig) :
  (forall row, In row rs -> type row = PARCEL -> -1 < weight row) ->
  let s := summary rs cfg in
  slab1Weight s + slab2Weight s + slab3Weight s == totalBillableWeight s.
Proof.
  intro Hw. cbv zeta. unfold summary.
  assert (G : forall s,
             slab1Weight s + slab2Weight s + slab3Weight s == totalBillableWeight s ->
             slab1Weight (fold_left (summaryStep cfg) rs s)
             + slab2Weight (fold_left (summaryStep cfg) rs s)
             + slab3Weight (fold_left (summaryStep cfg) rs s)
             == totalBillableWeight (fold_left (summaryStep cfg) rs s)).
  { induction rs as [| row rs IH]; intros s Hs; [exact Hs |].
    cbn [fold_left]. apply IH.
    - intros r Hr. apply Hw. now right.
    - apply summaryStep_slabs; [| exact Hs]. apply Hw. now left. }
  apply G. reflexivity.
Qed.


(** ** Expression evaluator: the parser on well-formed input *)

Section ParserOnTrees.

Import Syntax.
Local Open Scope nat_scope.
Local Open Scope list_scope.

Lemma nth_error_middle (pre post : list string) (x : string) :
  nth_error (pre ++ x :: post) (List.length pre) = Some x.
Proof.
  rewrite nth_error_app2 by lia. now rewrite Nat.sub_diag.
Qed.

Lemma tokenIs_middle (pre post : list string) (x t : string) :
  tokenIs (pre ++ x :: post) (List.length pre) t = String.eqb x t.
Proof.
  unfold tokenIs. now rewrite nth_error_middle.
Qed.

Lemma tokenIs_after_neither (pre post : list string) (a b : string) :
  match post with [] => true | t :: _ => neither a b t end = true ->
  tokenIs (pre ++ post) (List.length pre) a || tokenIs (pre ++ post) (List.length pre) b
  = false.
Proof.
  destruct post as [| t post]; intro H.
  - unfold tokenIs. rewrite app_nil_r.
    now rewrite (proj2 (nth_error_None pre (List.length pre)) (Nat.le_refl _)).
  - rewrite !tokenIs_middle. unfold neither in H. now apply negb_true_iff in H.
Qed.

Lemma nth_middle_default (pre post : list string) (x d : string) :
  nth (List.length pre) (pre ++ x :: post) d = x.
Proof.
  apply nth_error_nth. apply nth_error_middle.
Qed.

Ltac same_tokens H :=
  rewrite H at 1; repeat (rewrite <- ?app_assoc; cbn [List.app]); reflexivity.

Ltac step_length :=
  repeat rewrite ?length_app, ?length_cons in *; cbn [List.length] in *.

(** On the tokens of a well-formed tree, placed anywhere in the token array,
    each function of the parser, given the stack the tree takes, returns the
    value of the tree and leaves the cursor after it. *)
Lemma parser_on_trees :
  (forall f tokens pre post stack,
     wfF f = true -> tokens = pre ++ tokensF f ++ post ->
     framesF f <= stack ->
     parseFactor tokens stack (List.length pre)
     = Some (valueF f, List.length pre + List.length (tokensF f))) /\
  (forall r tokens pre post stack rounds lhs,
     wfTT r = true -> tokens = pre ++ tokensTT r ++ post ->
     match post with [] => true | t :: _ => neither "*" "/" t end = true ->
     framesTT r <= stack -> List.length (tokensTT r) <= rounds ->
     termLoop tokens (parseFactor tokens stack) rounds lhs (List.length pre)
     = Some (valueTT lhs r, List.length pre + List.length (tokensTT r))) /\
  (forall t tokens pre post stack,
     wfT t = true -> tokens = pre ++ tokensT t ++ post ->
     match post with [] => true | t :: _ => neither "*" "/" t end = true ->
     framesT t <= stack ->
     parseTerm tokens stack (List.length pre)
     = Some (valueT t, List.length pre + List.length (tokensT t))) /\
  (forall r tokens pre post stack rounds lhs,
     wfET r = true -> tokens = pre ++ tokensET r ++ post ->
     endsOperators post = true ->
     framesET r <= stack -> List.length (tokensET r) <= rounds ->
     expressionLoop tokens (parseTerm tokens stack) rounds lhs (List.length pre)
     = Some (valueET lhs r, List.length pre + List.length (tokensET r))) /\
  (forall e tokens pre post stack,
     wfE e = true -> tokens = pre ++ tokensE e ++ post ->
     endsOperators post = true ->
     framesE e <= stack ->
     parseExpression tokens stack (List.length pre)
     = Some (valueE e, List.length pre + List.length (tokensE e))).
Proof.
  apply syntax_ind.
  - (* a number *)
    intros tok tokens pre post stack Wf Ht Hstack.
    cbn [framesF] in Hstack.
    destruct stack as [| stack]; [lia |]. cbn [parseFactor].
    cbn [tokensF List.app] in Ht. subst tokens. rewrite nth_error_middle.
    cbn [wfF] in Wf.
    assert (P : String.eqb tok "(" = false).
    { destruct (String.eqb tok "(") eqn:E; [| reflexivity].
      apply String.eqb_eq in E. subst tok. discriminate Wf. }
    rewrite P. cbn [valueF tokensF List.length].
    destruct (parseFloat tok); reflexivity.
  - (* a group *)
    intros e IHe tokens pre post stack Wf Ht Hstack.
    cbn [framesF] in Hstack.
    destruct stack as [| stack]; [lia |]. cbn [parseFactor].
    cbn [tokensF] in Ht. cbn [wfF] in Wf.
    assert (Ht' : tokens = (pre ++ ["("]) ++ tokensE e ++ (")" :: post)) by same_tokens Ht.
    pose proof (f_equal (@List.length string) Ht') as L. step_length.
    rewrite Ht at 1. cbn [List.app]. rewrite nth_error_middle. cbn [String.eqb Ascii.eqb Bool.eqb].
    replace (List.length pre + 1) with (List.length (pre ++ ["("]))
      by (rewrite length_app; reflexivity).
    rewrite (IHe tokens (pre ++ ["("]) (")" :: post) stack Wf Ht' eq_refl) by lia.
    assert (Ht'' : tokens = ((pre ++ ["("]) ++ tokensE e) ++ ")" :: post) by same_tokens Ht'.
    replace (List.length (pre ++ ["("]) + List.length (tokensE e))
      with (List.length ((pre ++ ["("]) ++ tokensE e)) by (now rewrite !length_app).
    rewrite Ht'' at 1. rewrite tokenIs_middle. cbn [String.eqb Ascii.eqb Bool.eqb].
    cbn [valueF tokensF]. f_equal. f_equal. step_length. lia.
  - (* the end of a term *)
    intros tokens pre post stack rounds lhs _ Ht Hpost _ _.
    cbn [tokensTT List.app] in Ht. subst tokens.
    cbn [valueTT tokensTT List.length]. rewrite Nat.add_0_r.
    destruct rounds as [| rounds]; [reflexivity |]. cbn [termLoop].
    now rewrite (tokenIs_after_neither pre post "*" "/" Hpost).
  - (* one more factor *)
    intros op f IHf rest IHrest tokens pre post stack rounds lhs Wf Ht Hpost Hstack Hrounds.
    cbn [framesTT] in Hstack. cbn [tokensTT List.length] in Hrounds.
    destruct rounds as [| rounds]; [lia |]. cbn [termLoop].
    cbn [tokensTT] in Ht. cbn [wfTT] in Wf.
    apply andb_true_iff in Wf. destruct Wf as [Wf Wrest].
    apply andb_true_iff in Wf. destruct Wf as [Wop Wf].
    assert (Ht1 : tokens = pre ++ op :: (tokensF f ++ tokensTT rest ++ post)) by same_tokens Ht.
    assert (Ht2 : tokens = (pre ++ [op]) ++ tokensF f ++ (tokensTT rest ++ post)) by same_tokens Ht1.
    assert (Ht3 : tokens = ((pre ++ [op]) ++ tokensF f) ++ tokensTT rest ++ post) by same_tokens Ht2.
    rewrite length_app in Hrounds.
    assert (T1 : tokenIs tokens (List.length pre) "*"
                 || tokenIs tokens (List.length pre) "/" = true)
      by (rewrite Ht1, !tokenIs_middle; exact Wop).
    assert (N1 : nth (List.length pre) tokens EmptyString = op)
      by (rewrite Ht1; apply nth_middle_default).
    rewrite T1. cbv zeta. rewrite N1.
    replace (List.length pre + 1) with (List.length (pre ++ [op]))
      by (rewrite length_app; reflexivity).
    rewrite (IHf tokens (pre ++ [op]) (tokensTT rest ++ post) stack Wf Ht2) by lia.
    replace (List.length (pre ++ [op]) + List.length (tokensF f))
      with (List.length ((pre ++ [op]) ++ tokensF f)) by (now rewrite !length_app).
    rewrite (IHrest tokens ((pre ++ [op]) ++ tokensF f) post stack rounds _ Wrest Ht3 Hpost)
      by lia.
    cbn [valueTT tokensTT]. f_equal. f_equal. step_length. lia.
  - (* a term *)
    intros f IHf rest IHrest tokens pre post stack Wf Ht Hpost Hstack.
    cbn [framesT] in Hstack.
    destruct stack as [| stack]; [lia |]. cbn [parseTerm].
    cbn [tokensT] in Ht. cbn [wfT] in Wf.
    apply andb_true_iff in Wf. destruct Wf as [Wf Wrest].
    assert (Ht1 : tokens = pre ++ tokensF f ++ (tokensTT rest ++ post)) by same_tokens Ht.
    assert (Ht2 : tokens = (pre ++ tokensF f) ++ tokensTT rest ++ post) by same_tokens Ht1.
    pose proof (f_equal (@List.length string) Ht2) as L. step_length.
    rewrite (IHf tokens pre (tokensTT rest ++ post) stack Wf Ht1) by lia.
    replace (List.length pre + List.length (tokensF f))
      with (List.length (pre ++ tokensF f)) by (now rewrite !length_app).
    rewrite (IHrest tokens (pre ++ tokensF f) post stack _ _ Wrest Ht2 Hpost)
      by lia.
    cbn [valueT tokensT]. f_equal. f_equal. step_length. lia.
  - (* the end of an expression *)
    intros tokens pre post stack rounds lhs _ Ht Hpost _ _.
    cbn [tokensET List.app] in Ht. subst tokens.
    cbn [valueET tokensET List.length]. rewrite Nat.add_0_r.
    destruct rounds as [| rounds]; [reflexivity |]. cbn [expressionLoop].
    rewrite (tokenIs_after_neither pre post "+" "-"); [reflexivity |].
    destruct post as [| t post]; [reflexivity |].
    cbn [endsOperators] in Hpost. now apply andb_true_iff in Hpost.
  - (* one more term *)
    intros op t IHt rest IHrest tokens pre post stack rounds lhs Wf Ht Hpost Hstack Hrounds.
    cbn [framesET] in Hstack. cbn [tokensET List.length] in Hrounds.
    destruct rounds as [| rounds]; [lia |]. cbn [expressionLoop].
    cbn [tokensET] in Ht. cbn [wfET] in Wf.
    apply andb_true_iff in Wf. destruct Wf as [Wf Wrest].
    apply andb_true_iff in Wf. destruct Wf as [Wop Wt].
    assert (Ht1 : tokens = pre ++ op :: (tokensT t ++ tokensET rest ++ post)) by same_tokens Ht.
    assert (Ht2 : tokens = (pre ++ [op]) ++ tokensT t ++ (tokensET rest ++ post)) by same_tokens Ht1.
    assert (Ht3 : tokens = ((pre ++ [op]) ++ tokensT t) ++ tokensET rest ++ post) by same_tokens Ht2.
    rewrite length_app in Hrounds.
    assert (T1 : tokenIs tokens (List.length pre) "+"
                 || tokenIs tokens (List.length pre) "-" = true)
      by (rewrite Ht1, !tokenIs_middle; exact Wop).
    assert (N1 : nth (List.length pre) tokens EmptyString = op)
      by (rewrite Ht1; apply nth_middle_default).
    rewrite T1. cbv zeta. rewrite N1.
    replace (List.length pre + 1) with (List.length (pre ++ [op]))
      by (rewrite length_app; reflexivity).
    assert (Hnext : match tokensET rest ++ post with
                    | [] => true
                    | u :: _ => neither "*" "/" u
                    end = true).
    { destruct rest as [| op' t' rest'].
      - cbn [tokensET List.app]. destruct post as [| u post]; [reflexivity |].
        cbn [endsOperators] in Hpost. now apply andb_true_iff in Hpost.
      - cbn [tokensET List.app]. cbn [wfET] in Wrest.
        apply andb_true_iff in Wrest. destruct Wrest as [Wrest _].
        apply andb_true_iff in Wrest. destruct Wrest as [Wop' _].
        apply orb_true_iff in Wop'.
        destruct Wop' as [E | E]; apply String.eqb_eq in E; subst op'; reflexivity. }
    rewrite (IHt tokens (pre ++ [op]) (tokensET rest ++ post) stack Wt Ht2 Hnext) by lia.
    replace (List.length (pre ++ [op]) + List.length (tokensT t))
      with (List.length ((pre ++ [op]) ++ tokensT t)) by (now rewrite !length_app).
    rewrite (IHrest tokens ((pre ++ [op]) ++ tokensT t) post stack rounds _ Wrest Ht3 Hpost)
      by lia.
    cbn [valueET tokensET]. f_equal. f_equal. step_length. lia.
  - (* an expression *)
    intros t IHt rest IHrest tokens pre post stack Wf Ht Hpost Hstack.
    cbn [framesE] in Hstack.
    destruct stack as [| stack]; [lia |]. cbn [parseExpression].
    cbn [tokensE] in Ht. cbn [wfE] in Wf.
    apply andb_true_iff in Wf. destruct Wf as [Wt Wrest].
    assert (Ht1 : tokens = pre ++ tokensT t ++ (tokensET rest ++ post)) by same_tokens Ht.
    assert (Ht2 : tokens = (pre ++ tokensT t) ++ tokensET rest ++ post) by same_tokens Ht1.
    pose proof (f_equal (@List.length string) Ht2) as L. step_length.
    assert (Hnext : match tokensET rest ++ post with
                    | [] => true
                    | u :: _ => neither "*" "/" u
                    end = true).
    { destruct rest as [| op' t' rest'].
      - cbn [tokensET List.app]. destruct post as [| u post]; [reflexivity |].
        cbn [endsOperators] in Hpost. now apply andb_true_iff in Hpost.
      - cbn [tokensET List.app]. cbn [wfET] in Wrest.
        apply andb_true_iff in Wrest. destruct Wrest as [Wrest _].
        apply andb_true_iff in Wrest. destruct Wrest as [Wop' _].
        apply orb_true_iff in Wop'.
        destruct Wop' as [E | E]; apply String.eqb_eq in E; subst op'; reflexivity. }
    rewrite (IHt tokens pre (tokensET rest ++ post) stack Wt Ht1 Hnext) by lia.
    replace (List.length pre + List.length (tokensT t))
      with (List.length (pre ++ tokensT t)) by (now rewrite !length_app).
    rewrite (IHrest tokens (pre ++ tokensT t) post stack _ _ Wrest Ht2 Hpost)
      by lia.
    cbn [valueE tokensE]. f_equal. f_equal. step_length. lia.
Qed.

End ParserOnTrees.


(** ** Expression evaluator: the tokenizer on written-out trees *)

Section TokenizerOnText.

Import Syntax.

Lemma length_append (a b : string) :
  String.length (a ++ b) = (String.length a + String.length b)%nat.
Proof.
  induction a as [| c a IH]; cbn; [reflexivity | now rewrite IH].
Qed.

Lemma append_assoc (a b c : string) : (a ++ b) ++ c = a ++ b ++ c.
Proof.
  induction a as [| x a IH]; cbn; [reflexivity | now rewrite IH].
Qed.

Lemma append_empty_r (a : string) : a ++ EmptyString = a.
Proof.
  induction a as [| x a IH]; cbn; [reflexivity | now rewrite IH].
Qed.

Lemma isOperator_not_digit (c : ascii) : isOperator c = true -> isDigit c = false.
Proof.
  destruct c as [[|] [|] [|] [|] [|] [|] [|] [|]]; vm_compute; congruence.
Qed.

Lemma spanDigits_prefix (s : string) :
  forall ds r, spanDigits s = (ds, r) ->
    s = ds ++ r /\ spanDigits ds = (ds, EmptyString) /\
    match r with EmptyString => true | String c _ => negb (isDigit c) end = true.
Proof.
  induction s as [| c s IH]; intros ds r H; cbn in H.
  - injection H as <- <-. repeat split.
  - destruct (isDigit c) eqn:D.
    + destruct (spanDigits s) as [a b]. injection H as <- <-.
      destruct (IH a b eq_refl) as (E1 & E2 & E3).
      repeat split; [cbn; now rewrite <- E1 | cbn; now rewrite D, E2 | exact E3].
    + injection H as <- <-. repeat split. cbn. now rewrite D.
Qed.

Lemma spanDigits_app (ds r : string) :
  spanDigits ds = (ds, EmptyString) ->
  match r with EmptyString => true | String c _ => negb (isDigit c) end = true ->
  spanDigits (ds ++ r) = (ds, r).
Proof.
  induction ds as [| c ds IH]; intros H Hr.
  - cbn. destruct r as [| c r]; [reflexivity |]. cbn.
    apply negb_true_iff in Hr. now rewrite Hr.
  - cbn in H |- *. destruct (isDigit c); [| discriminate H].
    destruct (spanDigits ds) as [a b] eqn:E. injection H as -> ->.
    now rewrite (IH eq_refl Hr).
Qed.

Lemma afterNumber_not_digit (rest : string) :
  afterNumber rest = true ->
  match rest with EmptyString => true | String c _ => negb (isDigit c) end = true.
Proof.
  destruct rest as [| c rest]; [reflexivity |]. cbn. intro H.
  now rewrite (isOperator_not_digit c H).
Qed.

(** The two shapes of a literal. *)
Lemma isLiteral_shape (tok : string) :
  isLiteral tok = true ->
  exists c ds,
    isDigit c = true /\ spanDigits (String c ds) = (String c ds, EmptyString) /\
    (tok = String c ds \/
     exists d fs,
       tok = String c ds ++ "." ++ String d fs /\
       spanDigits (String d fs) = (String d fs, EmptyString)).
Proof.
  unfold isLiteral. intro H.
  destruct (spanDigits tok) as [ds r1] eqn:S1.
  destruct (spanDigits_prefix tok ds r1 S1) as (E & Sd & _).
  destruct ds as [| c ds]; [discriminate H |].
  assert (D : isDigit c = true).
  { cbn in Sd. destruct (isDigit c); [reflexivity | discriminate Sd]. }
  exists c, ds. split; [exact D |]. split; [exact Sd |].
  destruct r1 as [| x r2].
  - left. rewrite E. apply append_empty_r.
  - right. destruct (Ascii.eqb x "."%char) eqn:Dot.
    + apply Ascii.eqb_eq in Dot. subst x.
      destruct (spanDigits r2) as [fs r3] eqn:S2.
      destruct (spanDigits_prefix r2 fs r3 S2) as (E2 & Sf & _).
      destruct fs as [| d fs]; [discriminate H |].
      destruct r3; [| discriminate H].
      exists d, fs. split; [| exact Sf].
      rewrite E, E2. now rewrite append_empty_r.
    + exfalso.
      destruct x as [[|] [|] [|] [|] [|] [|] [|] [|]];
        try discriminate H; discriminate Dot.
Qed.

Lemma isLiteral_isNumberToken (tok : string) :
  isLiteral tok = true -> isNumberToken tok = true.
Proof.
  intro H. destruct (isLiteral_shape tok H) as (c & ds & D & _ & [-> | (d & fs & -> & _)]);
    exact D.
Qed.

(** The tokenizer reads a literal that is followed by an operator or by the
    end as one token. *)
Lemma matchTokens_literal (tok rest : string) (n : nat) :
  isLiteral tok = true -> afterNumber rest = true ->
  matchTokens (S n) (tok ++ rest) = tok :: matchTokens n rest.
Proof.
  intros L R.
  destruct (isLiteral_shape tok L) as (c & ds & D & Sd & [-> | (d & fs & -> & Sf)]).
  - cbn [matchTokens String.append]. rewrite D.
    change (String c (ds ++ rest)) with (String c ds ++ rest).
    rewrite (spanDigits_app _ rest Sd (afterNumber_not_digit rest R)).
    destruct rest as [| x rest]; [reflexivity |]. cbn in R.
    destruct x as [[|] [|] [|] [|] [|] [|] [|] [|]]; try discriminate R; reflexivity.
  - rewrite !append_assoc. cbn [matchTokens String.append]. rewrite D.
    change (String c (ds ++ String "." (String d (fs ++ rest))))
      with (String c ds ++ String "." (String d fs ++ rest)).
    rewrite (spanDigits_app _ (String "." (String d fs ++ rest)) Sd eq_refl).
    rewrite (spanDigits_app _ rest Sf (afterNumber_not_digit rest R)).
    reflexivity.
Qed.

Lemma matchTokens_operator (c : ascii) (rest : string) (n : nat) :
  isOperator c = true ->
  matchTokens (S n) (String c rest) = String c EmptyString :: matchTokens n rest.
Proof.
  intro H. cbn [matchTokens]. now rewrite (isOperator_not_digit c H), H.
Qed.

Lemma text_starts_with_operator (ts : list string) :
  match ts with [] => true | u :: _ => isOperatorToken u end = true ->
  afterNumber (text ts) = true.
Proof.
  destruct ts as [| u ts]; [reflexivity |]. cbn.
  destruct u as [| c [| ? ?]]; try discriminate. cbn. auto.
Qed.

Lemma token_not_empty (t : string) :
  isOperatorToken t || isLiteral t = true -> (1 <= String.length t)%nat.
Proof.
  destruct t as [| c t]; [intro H; discriminate H |]. cbn. lia.
Qed.

(** Tokenizing the text of a spaced token list gives the list back. *)
Lemma matchTokens_text (ts : list string) :
  forall n, spaced ts = true -> (String.length (text ts) <= n)%nat ->
    matchTokens n (text ts) = ts.
Proof.
  induction ts as [| t ts IH]; intros n S Hn.
  - destruct n; reflexivity.
  - cbn [spaced] in S. apply andb_true_iff in S. destruct S as [St Sts].
    cbn [text fold_right] in Hn |- *. fold (text ts) in Hn |- *.
    rewrite length_append in Hn.
    assert (1 <= String.length t)%nat.
    { apply token_not_empty. apply orb_true_iff in St.
      destruct St as [O | L]; [now rewrite O |].
      apply andb_true_iff in L. destruct L as [L _]. rewrite L. apply orb_true_r. }
    destruct n as [| n]; [lia |].
    apply orb_true_iff in St. destruct St as [O | L].
    + destruct t as [| c [| ? ?]]; try discriminate O. cbn in O.
      cbn [String.append]. rewrite (matchTokens_operator c _ n O).
      f_equal. apply IH; [exact Sts | cbn in Hn; lia].
    + apply andb_true_iff in L. destruct L as [L Next].
      rewrite (matchTokens_literal t (text ts) n L (text_starts_with_operator ts Next)).
      f_equal. apply IH; [exact Sts | lia].
Qed.

Lemma spaced_operator (op : string) (ts : list string) :
  isOperatorToken op = true -> spaced ts = true -> spaced (op :: ts) = true.
Proof.
  intros O S. cbn [spaced]. now rewrite O, S.
Qed.

(** The tokens of a well-formed tree, followed by spaced tokens that start
    with an operator, are spaced. *)
Lemma tokens_of_trees_spaced :
  (forall f, wfF f = true -> forall post,
     spaced post = true -> startsWithOperator post = true ->
     spaced (tokensF f ++ post) = true) /\
  (forall r, wfTT r = true -> forall post,
     spaced post = true -> startsWithOperator post = true ->
     spaced (tokensTT r ++ post) = true /\
     startsWithOperator (tokensTT r ++ post) = true) /\
  (forall t, wfT t = true -> forall post,
     spaced post = true -> startsWithOperator post = true ->
     spaced (tokensT t ++ post) = true) /\
  (forall r, wfET r = true -> forall post,
     spaced post = true -> startsWithOperator post = true ->
     spaced (tokensET r ++ post) = true /\
     startsWithOperator (tokensET r ++ post) = true) /\
  (forall e, wfE e = true -> forall post,
     spaced post = true -> startsWithOperator post = true ->
     spaced (tokensE e ++ post) = true).
Proof.
  apply syntax_ind.
  - intros tok Wf post Sp Hp. cbn [wfF tokensF List.app spaced] in Wf |- *.
    unfold startsWithOperator in Hp. now rewrite Wf, Hp, Sp, orb_true_r.
  - intros e IHe Wf post Sp Hp. cbn [wfF tokensF] in Wf |- *.
    cbn [List.app]. rewrite <- app_assoc. apply spaced_operator; [reflexivity |].
    apply IHe; [exact Wf | | reflexivity].
    cbn [List.app]. now apply spaced_operator.
  - intros _ post Sp Hp. now split.
  - intros op f IHf rest IHrest Wf post Sp Hp. cbn [wfTT tokensTT] in Wf |- *.
    apply andb_true_iff in Wf. destruct Wf as [Wf Wrest].
    apply andb_true_iff in Wf. destruct Wf as [Wop Wf].
    destruct (IHrest Wrest post Sp Hp) as [Sr Hr].
    assert (O : isOperatorToken op = true).
    { apply orb_true_iff in Wop.
      destruct Wop as [E | E]; apply String.eqb_eq in E; subst op; reflexivity. }
    cbn [List.app]. rewrite <- app_assoc. split; [| exact O].
    apply spaced_operator; [exact O |]. now apply IHf.
  - intros f IHf rest IHrest Wf post Sp Hp. cbn [wfT tokensT] in Wf |- *.
    apply andb_true_iff in Wf. destruct Wf as [Wf Wrest].
    destruct (IHrest Wrest post Sp Hp) as [Sr Hr].
    rewrite <- app_assoc. now apply IHf.
  - intros _ post Sp Hp. now split.
  - intros op t IHt rest IHrest Wf post Sp Hp. cbn [wfET tokensET] in Wf |- *.
    apply andb_true_iff in Wf. destruct Wf as [Wf Wrest].
    apply andb_true_iff in Wf. destruct Wf as [Wop Wt].
    destruct (IHrest Wrest post Sp Hp) as [Sr Hr].
    assert (O : isOperatorToken op = true).
    { apply orb_true_iff in Wop.
      destruct Wop as [E | E]; apply String.eqb_eq in E; subst op; reflexivity. }
    cbn [List.app]. rewrite <- app_assoc. split; [| exact O].
    apply spaced_operator; [exact O |]. now apply IHt.
  - intros t IHt rest IHrest Wf post Sp Hp. cbn [wfE tokensE] in Wf |- *.
    apply andb_true_iff in Wf. destruct Wf as [Wt Wrest].
    destruct (IHrest Wrest post Sp Hp) as [Sr Hr].
    rewrite <- app_assoc. now apply IHt.
Qed.

End TokenizerOnText.

Section EvaluatorOnTrees.

Import Syntax.

Lemma text_of_tree_not_empty (e : expression) :
  wfE e = true -> String.eqb (text (tokensE e)) EmptyString = false.
Proof.
  destruct e as [[f rest] rest']. cbn [wfE wfT tokensE tokensT]. intro Wf.
  apply andb_true_iff in Wf. destruct Wf as [Wf _].
  apply andb_true_iff in Wf. destruct Wf as [Wf _].
  destruct f as [tok | e]; cbn [tokensF List.app text fold_right].
  - cbn [wfF] in Wf. destruct tok as [| c tok]; [discriminate Wf | reflexivity].
  - reflexivity.
Qed.

Lemma tokens_of_tree_not_empty (e : expression) : tokensE e <> [].
Proof.
  destruct e as [[f rest] rest']. cbn [tokensE tokensT].
  destruct f as [tok | e]; discriminate.
Qed.

(** X6. Whatever white space the input carries, if the rest of it is a
    well-formed expression written out and the call stack has room for the
    nested calls the expression takes, [evaluateExpression] returns the
    value of that expression when it is finite, and [0] when it is not:
    [*] and [/] bind tighter than [+] and [-], operators of one level apply
    from left to right, a group counts as one factor, a division by zero
    counts as [0], and every operation rounds to binary64. *)
Theorem evaluateExpression_value_of_tree (stack : nat) (input : string) (e : expression) :
  wfE e = true ->
  removeSpaces input = text (tokensE e) ->
  (framesE e <= stack)%nat ->
  evaluateExpression stack input = finiteOrZero (valueE e).
Proof.
  intros Wf Hin Hstack. unfold evaluateExpression. cbv zeta. rewrite Hin.
  rewrite (text_of_tree_not_empty e Wf).
  assert (Sp : spaced (tokensE e) = true).
  { destruct tokens_of_trees_spaced as (_ & _ & _ & _ & H).
    specialize (H e Wf [] eq_refl eq_refl). now rewrite app_nil_r in H. }
  unfold tokenize. rewrite (matchTokens_text _ _ Sp (le_n _)).
  destruct (tokensE e) as [| t ts] eqn:Te; [now destruct (tokens_of_tree_not_empty e) |].
  rewrite <- Te.
  destruct parser_on_trees as (_ & _ & _ & _ & H).
  change 0%nat with (@List.length string []).
  rewrite (H e (tokensE e) [] [] stack Wf).
  - reflexivity.
  - cbn [List.app]. now rewrite app_nil_r.
  - reflexivity.
  - exact Hstack.
Qed.

Lemma evaluateExpression_value_of_tree_witness :
  wfE sampleExpression = true /\
  removeSpaces " 2 + 3 * (4 - 1) " = text (tokensE sampleExpression) /\
  (framesE sampleExpression <= 6)%nat /\
  evaluateExpression 6 " 2 + 3 * (4 - 1) " = finiteOrZero (valueE sampleExpression) /\
  finiteOrZero (valueE sampleExpression) == 11.
Proof.
  split; [reflexivity |]. split; [reflexivity |].
  split; [vm_compute; lia |]. split.
  - apply (evaluateExpression_value_of_tree 6 " 2 + 3 * (4 - 1) " sampleExpression);
      [reflexivity | reflexivity | vm_compute; lia].
  - vm_compute. reflexivity.
Defined.

Lemma removeSpaces_noTokenChars_upto (n : nat) :
  forall s, (String.length s <= n)%nat ->
    noTokenChars s = true -> noTokenChars (removeSpaces s) = true.
Proof.
  induction n as [| n IH]; intros s L H.
  - destruct s; [reflexivity | cbn in L; lia].
  - destruct s as [| c s]; [reflexivity |].
    cbn [noTokenChars] in H. apply andb_true_iff in H. destruct H as [Hc Hs].
    cbn [String.length] in L. cbn [removeSpaces].
    destruct (isSpace c); [apply IH; [lia | exact Hs] |].
    assert (Keep : noTokenChars (String c (removeSpaces s)) = true).
    { cbn [noTokenChars]. rewrite Hc. apply IH; [lia | exact Hs]. }
    destruct s as [| d s]; [cbn [noTokenChars]; now rewrite Hc |].
    cbn [noTokenChars] in Hs. apply andb_true_iff in Hs. destruct Hs as [Hd Hs].
    cbn [String.length] in L.
    destruct (isSpace2 c d); [apply IH; [lia | exact Hs] |].
    destruct s as [| e s]; [exact Keep |].
    cbn [noTokenChars] in Hs. apply andb_true_iff in Hs. destruct Hs as [He Hs].
    cbn [String.length] in L.
    destruct (isSpace3 c d e); [apply IH; [lia | exact Hs] | exact Keep].
Qed.

Lemma removeSpaces_noTokenChars (s : string) :
  noTokenChars s = true -> noTokenChars (removeSpaces s) = true.
Proof.
  apply (removeSpaces_noTokenChars_upto (String.length s)). lia.
Qed.

Lemma matchTokens_noTokenChars (n : nat) :
  forall s, noTokenChars s = true -> matchTokens n s = [].
Proof.
  induction n as [| n IH]; intros s H; [reflexivity |].
  destruct s as [| c s]; [reflexivity |]. cbn in H |- *.
  apply andb_true_iff in H. destruct H as [Hc Hs].
  apply andb_true_iff in Hc. destruct Hc as [Hd Ho].
  apply negb_true_iff in Hd, Ho. rewrite Hd, Ho. now apply IH.
Qed.

(** X7. An input that holds no digit and no operator evaluates to [0]:
    the tokenizer finds nothing in it. *)
Theorem evaluateExpression_without_tokens (stack : nat) (input : string) :
  noTokenChars input = true -> evaluateExpression stack input = 0.
Proof.
  intro H. unfold evaluateExpression. cbv zeta.
  destruct (String.eqb (removeSpaces input) EmptyString); [reflexivity |].
  unfold tokenize.
  now rewrite (matchTokens_noTokenChars _ _ (removeSpaces_noTokenChars input H)).
Qed.

Lemma evaluateExpression_without_tokens_witness :
  noTokenChars "ten kg" = true /\ evaluateExpression 0 "ten kg" = 0.
Proof.
  split; [reflexivity |].
  apply (evaluateExpression_without_tokens 0 "ten kg"). reflexivity.
Defined.

End EvaluatorOnTrees.

(** ** Row editor *)

Section RowEditor.

Lemma exec_bind {A B} (m : M A) (k : A -> M B) (w : World) :
  exec (bind m k) w = exec (k (fst (m w))) (snd (m w)).
Proof.
  unfold exec, bind. now destruct (m w).
Qed.

Lemma calculateRow_keeps_slNo (row : RowInput) (cfg : BillingConfig) :
  slNo (calculateRow row cfg) = in_slNo row.
Proof.
  unfold calculateRow. cbv zeta.
  destruct (ItemType_eqb (in_type row) DOCUMENT); [reflexivity |].
  destruct (negb _); reflexivity.
Qed.

Lemma calculateRow_keeps_id (row : RowInput) (cfg : BillingConfig) :
  id (calculateRow row cfg) = in_id row.
Proof.
  unfold calculateRow. cbv zeta.
  destruct (ItemType_eqb (in_type row) DOCUMENT); [reflexivity |].
  destruct (negb _); reflexivity.
Qed.

Lemma renumber_numbered (rs : list BillingRow) :
  forall index, numberedFrom index (renumber index rs).
Proof.
  unfold numberedFrom.
  induction rs as [| r rs IH]; intro index; [reflexivity |].
  cbn [renumber map List.length seq]. now rewrite IH.
Qed.

Lemma length_renumber (rs : list BillingRow) :
  forall index, List.length (renumber index rs) = List.length rs.
Proof.
  induction rs as [| r rs IH]; intro index; [reflexivity |].
  cbn [renumber List.length]. now rewrite IH.
Qed.

Lemma renumber_of_numbered (rs : list BillingRow) :
  forall index, numberedFrom index rs -> renumber index rs = rs.
Proof.
  unfold numberedFrom.
  induction rs as [| r rs IH]; intros index H; [reflexivity |].
  cbn [renumber map List.length seq] in H |- *.
  injection H as H1 H2. rewrite (IH _ H2). f_equal.
  destruct r. cbn in H1 |- *. now rewrite H1.
Qed.

Lemma numberedFrom_map (f : BillingRow -> BillingRow) (rs : list BillingRow) (index : nat) :
  (forall r, slNo (f r) = slNo r) ->
  numberedFrom index rs -> numberedFrom index (map f rs).
Proof.
  unfold numberedFrom. intros Hf H.
  rewrite map_map, length_map.
  rewrite <- H. apply map_ext. exact Hf.
Qed.

Lemma numberedFrom_snoc (rs : list BillingRow) (r : BillingRow) :
  numberedFrom 0 rs -> slNo r = inject_Z (len rs + 1) ->
  numberedFrom 0 (rs ++ [r]).
Proof.
  unfold numberedFrom, len. intros H Hr.
  rewrite map_app, length_app, seq_app, map_app, H. cbn. now rewrite Hr.
Qed.

(** X8. Serial numbers of the editor.  If the rows of the session are
    numbered 1, 2, ..., they still are after any sequence of editor events
    (add a row, delete a row, set the type of all rows, recalculate, update
    a row without setting its serial number). *)
Theorem editor_keeps_rows_numbered (l : list Action) (w : World) :
  forallb isEditorAction l = true ->
  numberedFrom 0 (rows (appState w)) ->
  numberedFrom 0 (rows (appState (exec (steps l) w))).
Proof.
  revert w. induction l as [| a l IH]; intros w Hl Hw; [exact Hw |].
  cbn [forallb] in Hl. apply andb_true_iff in Hl. destruct Hl as [Ha Hl].
  cbn [steps]. rewrite exec_bind. fold (exec (step a) w).
  apply IH; [exact Hl |]. clear IH Hl.
  destruct a; try discriminate Ha; cbn -[calculateRow].
  - (* addRow *)
    apply numberedFrom_snoc; [exact Hw |]. apply calculateRow_keeps_slNo.
  - (* updateRow *)
    apply numberedFrom_map; [| exact Hw]. intro r.
    destruct (String.eqb (id r) rowId); [| reflexivity].
    rewrite calculateRow_keeps_slNo. cbn in Ha |- *.
    destruct (up_slNo updates); [discriminate Ha | reflexivity].
  - (* deleteRow *)
    apply renumber_numbered.
  - (* applyGlobalType *)
    apply numberedFrom_map; [| exact Hw]. intro r.
    now rewrite calculateRow_keeps_slNo.
  - (* recalculate *)
    unfold exec, step, dispatch, handlerOf, recalculateRows, bind, getApp.
    destruct (view (appState w)); cbn -[calculateRow]; [exact Hw |].
    apply numberedFrom_map; [| exact Hw]. intro r.
    now rewrite calculateRow_keeps_slNo.
Qed.

End RowEditor.

Section RowEditorRoundTrip.

Lemma filter_other_ids_rows (i : string) (rs : list BillingRow) :
  (forall r, In r rs -> id r <> i) ->
  filter (fun row => negb (String.eqb (id row) i)) rs = rs.
Proof.
  induction rs as [| r rs IH]; intro H; [reflexivity |].
  cbn [filter].
  destruct (String.eqb (id r) i) eqn:E.
  - apply String.eqb_eq in E. now destruct (H r (or_introl eq_refl)).
  - cbn [negb]. f_equal. apply IH. intros x Hx. apply H. now right.
Qed.

(** X9. Adding a row and deleting that row again gives back the rows of
    the session, provided they were numbered 1, 2, ... and none of them has
    the identifier the new row receives. *)
Theorem addRow_then_deleteRow (w : World) :
  let newId := uuidAt (env w) (uuidCount w) in
  numberedFrom 0 (rows (appState w)) ->
  (forall r, In r (rows (appState w)) -> id r <> newId) ->
  rows (appState (exec (step AddRow ;; step (DeleteRow newId)) w)) = rows (appState w).
Proof.
  intros newId Hn Hfresh. cbn -[calculateRow].
  fold newId. rewrite filter_app. cbn [filter].
  rewrite calculateRow_keeps_id. cbn [in_id]. rewrite String.eqb_refl. cbn [negb].
  rewrite app_nil_r, (filter_other_ids_rows newId _ Hfresh).
  now apply renumber_of_numbered.
Qed.

End RowEditorRoundTrip.

(** ** Saving the session *)

Section SaveManifest.

Lemma truthy_some (o : option string) (s : string) :
  truthy o = Some s -> o = Some s /\ s <> EmptyString.
Proof.
  destruct o as [x |]; cbn; [| discriminate].
  destruct (String.eqb x EmptyString) eqn:E; [discriminate |].
  intro H. injection H as ->. split; [reflexivity |].
  intro F. subst s. discriminate E.
Qed.

Lemma truthy_of_nonempty (s : string) : s <> EmptyString -> truthy (Some s) = Some s.
Proof.
  intro H. cbn. destruct (String.eqb s EmptyString) eqn:E; [| reflexivity].
  apply String.eqb_eq in E. contradiction.
Qed.

Lemma map_replace_ids (i : string) (d : ManifestHistory) (l : list ManifestHistory) :
  m_id d = i ->
  map m_id (map (fun h => if String.eqb (m_id h) i then d else h) l) = map m_id l.
Proof.
  intro Hd. rewrite map_map. apply map_ext. intro h.
  destruct (String.eqb (m_id h) i) eqn:E; [| reflexivity].
  apply String.eqb_eq in E. congruence.
Qed.

Lemma map_replace_absent (i : string) (d : ManifestHistory) (l : list ManifestHistory) :
  (forall h, In h l -> m_id h <> i) ->
  map (fun h => if String.eqb (m_id h) i then d else h) l = l.
Proof.
  induction l as [| h l IH]; intro H; [reflexivity |].
  cbn [map]. rewrite IH by (intros x Hx; apply H; now right).
  destruct (String.eqb (m_id h) i) eqn:E; [| reflexivity].
  apply String.eqb_eq in E. now destruct (H h (or_introl eq_refl)).
Qed.

(** A save for an active manifest puts the session in its place in the
    history, stored as well, and draws no identifier. *)
Lemma saveManifest_of_active (w : World) (active : string) :
  truthy (activeManifestId (appState w)) = Some active ->
  let w' := exec (step SaveManifest) w in
  let saved := sessionManifest (appState w) active (nowAt (env w) (clockReads w)) in
  history (appState w')
  = map (fun h => if String.eqb (m_id h) active then saved else h) (history (appState w)) /\
  ls_history w' = Some (history (appState w')) /\
  activeManifestId (appState w') = Some active /\
  uuidCount w' = uuidCount w.
Proof.
  intros Hact w'. subst w'.
  unfold exec, step, dispatch, handlerOf, saveManifest, bind, getApp.
  rewrite Hact. cbn. repeat split.
Qed.

(** The events of the row editor leave the history, its stored copy and the
    active manifest as they are. *)
Lemma editor_keeps_history (l : list Action) :
  forallb isEditorAction l = true ->
  forall w,
    let w' := exec (steps l) w in
    history (appState w') = history (appState w) /\
    ls_history w' = ls_history w /\
    activeManifestId (appState w') = activeManifestId (appState w).
Proof.
  induction l as [| a l IH]; intros Hl w; [now repeat split |].
  cbn [forallb] in Hl. apply andb_true_iff in Hl. destruct Hl as [Ha Hl].
  cbv zeta. cbn [steps]. rewrite exec_bind. fold (exec (step a) w).
  destruct (IH Hl (exec (step a) w)) as (H1 & H2 & H3). rewrite H1, H2, H3.
  clear IH Hl H1 H2 H3.
  destruct a; try discriminate Ha; cbn -[calculateRow]; try (now repeat split).
  unfold exec, step, dispatch, handlerOf, recalculateRows, bind, getApp.
  destruct (view (appState w)); cbn -[calculateRow]; now repeat split.
Qed.

(** X10. Saving a session that has no manifest yet puts one manifest,
    made of the session, in front of the history, which is stored, and
    makes it the active one.  After any events of the row editor, saving
    again draws no identifier and puts the session as it is then in the
    place of that manifest, and stores the history: the history does not
    grow and keeps its identifiers, and when the identifier drawn was not in
    use, every other manifest is kept as it was. *)
Theorem saveManifest_twice (w : World) (edits : list Action) :
  let newId := uuidAt (env w) (uuidCount w) in
  let w1 := exec (step SaveManifest) w in
  let w2 := exec (steps edits) w1 in
  let w3 := exec (step SaveManifest) w2 in
  let first := sessionManifest (appState w) newId (nowAt (env w) (clockReads w)) in
  let second := sessionManifest (appState w2) newId (nowAt (env w2) (clockReads w2)) in
  truthy (activeManifestId (appState w)) = None ->
  newId <> EmptyString ->
  forallb isEditorAction edits = true ->
  history (appState w1) = first :: history (appState w) /\
  ls_history w1 = Some (history (appState w1)) /\
  map m_id (history (appState w1)) = newId :: map m_id (history (appState w)) /\
  activeManifestId (appState w1) = Some newId /\
  history (appState w3)
  = map (fun h => if String.eqb (m_id h) newId then second else h) (history (appState w1)) /\
  ls_history w3 = Some (history (appState w3)) /\
  map m_id (history (appState w3)) = map m_id (history (appState w1)) /\
  activeManifestId (appState w3) = Some newId /\
  uuidCount w3 = uuidCount w2 /\
  ((forall h, In h (history (appState w)) -> m_id h <> newId) ->
   history (appState w3) = second :: history (appState w)).
Proof.
  intros newId w1 w2 w3 first second Hnone Hid Hedits.
  assert (E1 : history (appState w1) = first :: history (appState w) /\
               ls_history w1 = Some (history (appState w1)) /\
               activeManifestId (appState w1) = Some newId).
  { subst w1 first. unfold exec, step, dispatch, handlerOf, saveManifest, bind, getApp.
    rewrite Hnone. cbn. now repeat split. }
  destruct E1 as (H1 & L1 & A1).
  destruct (editor_keeps_history edits Hedits w1) as (H2 & _ & A2). fold w2 in H2, A2.
  assert (T : truthy (activeManifestId (appState w2)) = Some newId).
  { rewrite A2, A1. now apply truthy_of_nonempty. }
  destruct (saveManifest_of_active w2 newId T) as (H3 & L3 & A3 & U3).
  fold w3 second in H3, L3, A3, U3. rewrite H2 in H3.
  split; [exact H1 |]. split; [exact L1 |].
  split; [rewrite H1; reflexivity |]. split; [exact A1 |].
  split; [exact H3 |]. split; [exact L3 |].
  split; [rewrite H3; now apply map_replace_ids |].
  split; [exact A3 |]. split; [exact U3 |].
  intro Hfresh. rewrite H3, H1. cbn [map]. cbn [first sessionManifest m_id].
  rewrite String.eqb_refl. f_equal. now apply map_replace_absent.
Qed.

(** X11. When the active manifest is no longer in the history (it was
    moved to the recycle bin while open), [saveManifest] stores nothing of
    the session: the history keeps exactly the manifests it had, and the
    status still reports success. *)
Theorem saveManifest_of_removed_manifest (w : World) (active : string) :
  truthy (activeManifestId (appState w)) = Some active ->
  (forall h, In h (history (appState w)) -> m_id h <> active) ->
  let w' := exec (step SaveManifest) w in
  history (appState w') = history (appState w) /\
  ls_history w' = Some (history (appState w)) /\
  activeManifestId (appState w') = Some active /\
  option_map st_type (status (appState w')) = Some st_success.
Proof.
  intros Hact Habsent w'. subst w'.
  unfold exec, step, dispatch, handlerOf, saveManifest, bind, getApp.
  rewrite Hact. cbn.
  rewrite (map_replace_absent _ _ _ Habsent). repeat split.
Qed.

End SaveManifest.

(** ** Recycle bin and folders *)

Section RecycleBin.

Lemma find_hasId (i : string) (l : list ManifestHistory) (m : ManifestHistory) :
  find (hasId i) l = Some m -> In m l /\ m_id m = i.
Proof.
  intro H. apply find_some in H. destruct H as [H1 H2].
  split; [exact H1 |]. now apply String.eqb_eq in H2.
Qed.

Lemma find_hasId_head (i : string) (m : ManifestHistory) (l : list ManifestHistory) :
  m_id m = i -> find (hasId i) (m :: l) = Some m.
Proof.
  intro H. cbn. unfold hasId. now rewrite H, String.eqb_refl.
Qed.

Lemma filter_not_hasId_absent (i : string) (l : list ManifestHistory) :
  (forall h, In h l -> m_id h <> i) -> filter (fun h => negb (hasId i h)) l = l.
Proof.
  induction l as [| h l IH]; intro H; [reflexivity |].
  cbn [filter]. unfold hasId at 1.
  destruct (String.eqb (m_id h) i) eqn:E.
  - apply String.eqb_eq in E. now destruct (H h (or_introl eq_refl)).
  - cbn [negb]. f_equal. apply IH. intros x Hx. apply H. now right.
Qed.

Lemma in_filter_not_hasId (i : string) (l : list ManifestHistory) (h : ManifestHistory) :
  In h (filter (fun x => negb (hasId i x)) l) <-> In h l /\ m_id h <> i.
Proof.
  rewrite filter_In. unfold hasId. split; intros [H1 H2]; (split; [exact H1 |]).
  - intro E. rewrite E, String.eqb_refl in H2. discriminate H2.
  - destruct (String.eqb (m_id h) i) eqn:E; [| reflexivity].
    apply String.eqb_eq in E. contradiction.
Qed.

Lemma length_filter_not_hasId (i : string) (l : list ManifestHistory) (m : ManifestHistory) :
  NoDup (map m_id l) -> In m l -> m_id m = i ->
  S (List.length (filter (fun h => negb (hasId i h)) l)) = List.length l.
Proof.
  intros Hnd Hin <-. exact (filter_other_ids_length m l Hnd Hin).
Qed.

(** X12. Moving a manifest to the recycle bin.  When the identifiers of
    the history are distinct and the user confirms, [softDeleteManifest]
    takes exactly the manifest with that identifier out of the history and
    puts it on top of the recycle bin; every other manifest stays. *)
Theorem softDeleteManifest_moves_one (d : Desk) (i : string) (m : ManifestHistory) :
  let a := appState (world d) in
  let a' := appState (world (execD (dispatchD (deskHandlerOf (SoftDelete i true))) d)) in
  NoDup (map m_id (history a)) ->
  find (hasId i) (history a) = Some m ->
  recycleBin a' = m :: recycleBin a /\
  S (List.length (history a')) = List.length (history a) /\
  (forall h, In h (history a') <-> In h (history a) /\ m_id h <> i).
Proof.
  intros a a' Hnd Hfind. subst a'.
  unfold dispatchD, execD. cbn [deskHandlerOf]. unfold softDeleteManifest. cbv zeta.
  fold a. rewrite Hfind. cbn.
  destruct (find_hasId _ _ _ Hfind) as [Hin Hid].
  split; [reflexivity |]. split.
  - exact (length_filter_not_hasId i _ m Hnd Hin Hid).
  - intro h. apply in_filter_not_hasId.
Qed.

(** X13. Restoring undoes the move to the recycle bin.  After
    [softDeleteManifest] and [restoreManifest] of the same identifier the
    recycle bin is what it was, and the history holds the manifests it held
    (the restored one now comes first), provided the identifiers of the
    history are distinct and the bin held none with that identifier. *)
Theorem softDelete_then_restore (d : Desk) (i : string) (m : ManifestHistory) :
  let a := appState (world d) in
  let d1 := execD (dispatchD (deskHandlerOf (SoftDelete i true))) d in
  let a2 := appState (world (execD (dispatchD (deskHandlerOf (Restore i))) d1)) in
  NoDup (map m_id (history a)) ->
  find (hasId i) (history a) = Some m ->
  (forall h, In h (recycleBin a) -> m_id h <> i) ->
  recycleBin a2 = recycleBin a /\
  history a2 = m :: filter (fun h => negb (hasId i h)) (history a) /\
  List.length (history a2) = List.length (history a) /\
  (forall h, In h (history a2) <-> In h (history a)).
Proof.
  intros a d1 a2 Hnd Hfind Hbin.
  destruct (find_hasId _ _ _ Hfind) as [Hin Hid].
  assert (E1 : recycleBin (appState (world d1)) = m :: recycleBin a /\
               history (appState (world d1)) = filter (fun h => negb (hasId i h)) (history a)).
  { subst d1. unfold dispatchD, execD. cbn [deskHandlerOf].
    unfold softDeleteManifest. cbv zeta. fold a. rewrite Hfind. cbn. now split. }
  destruct E1 as [B1 H1].
  assert (E2 : recycleBin a2 = recycleBin a /\
               history a2 = m :: filter (fun h => negb (hasId i h)) (history a)).
  { subst a2. unfold dispatchD, execD. cbn [deskHandlerOf].
    unfold restoreManifest. cbv zeta. rewrite B1, (find_hasId_head i m _ Hid). cbn.
    rewrite H1. unfold hasId at 1. rewrite Hid, String.eqb_refl. cbn [negb].
    split; [| reflexivity]. now apply filter_not_hasId_absent. }
  destruct E2 as [B2 H2]. split; [exact B2 |]. split; [exact H2 |]. split.
  - rewrite H2. cbn [List.length]. exact (length_filter_not_hasId i _ m Hnd Hin Hid).
  - intro h. rewrite H2. cbn [In]. rewrite in_filter_not_hasId. split.
    + intros [<- | [H _]]; assumption.
    + intro H. destruct (string_dec (m_id h) i) as [E | E]; [| now right].
      left. clear - Hnd Hin H E Hid. rewrite <- Hid in E.
      induction (history a) as [| x l IH]; [contradiction |].
      cbn in Hnd. apply NoDup_cons_iff in Hnd. destruct Hnd as [Hx Hl].
      destruct Hin as [-> | Hin], H as [-> | H]; try reflexivity.
      * exfalso. apply Hx. rewrite <- E. now apply in_map.
      * exfalso. apply Hx. rewrite E. now apply in_map.
      * now apply IH.
Qed.

End RecycleBin.

Section Folders.

Lemma inFolder_withFolder_None (i : string) (h : ManifestHistory) :
  inFolder i (withFolder None h) = false.
Proof. reflexivity. Qed.

Lemma atRoot_withFolder_None (h : ManifestHistory) : atRoot (withFolder None h) = true.
Proof. reflexivity. Qed.

(** X14. Deleting a folder keeps its manifests.  After a confirmed
    [handleDeleteFolder] the history holds the same manifests in the same
    order, changed at most in their folder; none of them is in the deleted
    folder, those that were are at the root; no folder has the deleted
    identifier, and the deleted folder is not the open one. *)
Theorem handleDeleteFolder_moves_to_root (d : Desk) (i : string) :
  let a := appState (world d) in
  let a' := appState (world (execD (dispatchD (deskHandlerOf (DeleteFolder i true))) d)) in
  map (withFolder None) (history a') = map (withFolder None) (history a) /\
  filter (inFolder i) (history a') = [] /\
  incl (map (withFolder None) (filter (inFolder i) (history a)))
       (filter atRoot (history a')) /\
  filter (fun f => String.eqb (f_id f) i) (folders a') = [] /\
  currentFolderId a' <> Some i.
Proof.
  intros a a'.
  assert (E : history a' = map (fun h => if inFolder i h then withFolder None h else h)
                               (history a) /\
              folders a' = filter (fun f => negb (String.eqb (f_id f) i)) (folders a) /\
              currentFolderId a' <> Some i).
  { subst a'. unfold dispatchD, execD. cbn [deskHandlerOf].
    unfold handleDeleteFolder. cbv zeta. fold a.
    destruct (currentFolderId a) as [f |] eqn:C;
      [destruct (String.eqb f i) eqn:F |]; cbn; fold a; rewrite ?C; repeat split;
      try discriminate.
    intro X. injection X as ->. rewrite String.eqb_refl in F. discriminate F. }
  destruct E as (EH & EF & EC). rewrite EH, EF. clear EH EF.
  split; [| split; [| split; [| split; [| exact EC]]]].
  - rewrite map_map. apply map_ext. intro h. now destruct (inFolder i h).
  - induction (history a) as [| h l IH]; [reflexivity |].
    cbn [map filter]. destruct (inFolder i h) eqn:F.
    + rewrite inFolder_withFolder_None. exact IH.
    + rewrite F. exact IH.
  - intros x Hx. apply in_map_iff in Hx. destruct Hx as (h & <- & Hh).
    apply filter_In in Hh. destruct Hh as [Hh F].
    apply filter_In. split; [| apply atRoot_withFolder_None].
    apply in_map_iff. exists h. now rewrite F.
  - induction (folders a) as [| f l IH]; [reflexivity |].
    cbn [filter]. destruct (String.eqb (f_id f) i) eqn:F; cbn [negb]; [exact IH |].
    cbn [filter]. now rewrite F.
Qed.

(** X15. Moving a manifest changes its folder only.  After
    [handleMoveManifest] the history holds the same manifests in the same
    order, changed at most in their folder; those with the given identifier
    are in the target folder (at the root for no folder or an empty
    identifier), and the others are as they were. *)
Theorem handleMoveManifest_changes_folder_only (d : Desk) (i : string) (folder : option string) :
  let a := appState (world d) in
  let a' := appState (world (execD (dispatchD (deskHandlerOf (MoveManifest i folder))) d)) in
  map (withFolder None) (history a') = map (withFolder None) (history a) /\
  map folderId (filter (hasId i) (history a'))
    = map (fun _ => truthy folder) (filter (hasId i) (history a)) /\
  filter (fun h => negb (hasId i h)) (history a')
    = filter (fun h => negb (hasId i h)) (history a).
Proof.
  intros a a'.
  assert (E : history a' = map (fun h => if hasId i h then withFolder (truthy folder) h else h)
                               (history a)).
  { reflexivity. }
  rewrite E. clear E a'. split; [| split].
  - rewrite map_map. apply map_ext. intro h. now destruct (hasId i h).
  - induction (history a) as [| h l IH]; [reflexivity |].
    cbn [map filter]. destruct (hasId i h) eqn:F.
    + change (hasId i (withFolder (truthy folder) h)) with (hasId i h). rewrite F.
      cbn [map]. now rewrite IH.
    + rewrite F. exact IH.
  - induction (history a) as [| h l IH]; [reflexivity |].
    cbn [map filter]. destruct (hasId i h) eqn:F.
    + change (hasId i (withFolder (truthy folder) h)) with (hasId i h). rewrite F.
      cbn [negb]. exact IH.
    + rewrite F. cbn [negb]. now rewrite IH.
Qed.

End Folders.

(** ** What a reload shows *)

Section Persistence.

Lemma preserves_bind {A B} (I : World -> Prop) (m : M A) (k : A -> M B) :
  preserves I m -> (forall a, preserves I (k a)) -> preserves I (bind m k).
Proof.
  intros Hm Hk w Hw. unfold bind. specialize (Hm w Hw).
  destruct (m w) as [a w1]. now apply Hk.
Qed.

Lemma preserves_ret {A} (I : World -> Prop) (a : A) : preserves I (ret a).
Proof.
  intros w Hw. exact Hw.
Qed.

Lemma preserves_assoc {A B C} (I : World -> Prop) (m : M A) (k : A -> M B) (k' : B -> M C) :
  preserves I (bind (bind m k) k') -> preserves I (bind m (fun a => bind (k a) k')).
Proof.
  intros H w Hw. specialize (H w Hw). unfold bind in *.
  destruct (m w) as [a w1]. exact H.
Qed.

Lemma preserves_orElse (I : World -> Prop) (o : option string) (d : M string) :
  preserves I d -> preserves I (orElse o d).
Proof.
  intro Hd. unfold orElse. destruct o as [s |]; [| exact Hd].
  destruct (String.eqb s EmptyString); [exact Hd | apply preserves_ret].
Qed.

(** A step that leaves the state and the stored items alone keeps every
    property that speaks of them only. *)
Lemma reads_preserve {A} (I : World -> Prop) (m : M A) :
  (forall w w', sameStore w w' -> I w -> I w') ->
  (forall w, sameStore w (snd (m w))) -> preserves I m.
Proof.
  intros HI Hm w Hw. exact (HI _ _ (Hm w) Hw).
Qed.

Lemma sameStore_refl (w : World) : sameStore w w.
Proof.
  now repeat split.
Qed.

Lemma sameStore_trans (w1 w2 w3 : World) :
  sameStore w1 w2 -> sameStore w2 w3 -> sameStore w1 w3.
Proof.
  unfold sameStore. intros (A1 & B1 & C1 & D1) (A2 & B2 & C2 & D2).
  repeat split; congruence.
Qed.

Lemma reads_bind {A B} (m : M A) (k : A -> M B) :
  (forall w, sameStore w (snd (m w))) ->
  (forall a w, sameStore w (snd (k a w))) ->
  forall w, sameStore w (snd (bind m k w)).
Proof.
  intros Hm Hk w. unfold bind. specialize (Hm w).
  destruct (m w) as [a w1]. exact (sameStore_trans _ _ _ Hm (Hk a w1)).
Qed.

Lemma reads_orElse (o : option string) (d : M string) :
  (forall w, sameStore w (snd (d w))) -> forall w, sameStore w (snd (orElse o d w)).
Proof.
  intros Hd w. unfold orElse. destruct o as [s |]; [| apply Hd].
  destruct (String.eqb s EmptyString); [apply Hd | apply sameStore_refl].
Qed.

Lemma reads_randomUUID (w : World) : sameStore w (snd (randomUUID w)).
Proof. now repeat split. Qed.

Lemma reads_Date_now (w : World) : sameStore w (snd (Date_now w)).
Proof. now repeat split. Qed.

Lemma reads_toLocaleDateString (w : World) : sameStore w (snd (toLocaleDateString w)).
Proof. now repeat split. Qed.

Lemma reads_toLocaleTimeString (w : World) : sameStore w (snd (toLocaleTimeString w)).
Proof. now repeat split. Qed.

Lemma reads_alert (msg : string) (w : World) : sameStore w (snd (alert msg w)).
Proof. now repeat split. Qed.

Lemma reads_setTimeout (c : AppState) (w : World) : sameStore w (snd (setTimeout c w)).
Proof. now repeat split. Qed.

Lemma reads_callModel (tier : Tier) (parts : list Image) (w : World) :
  sameStore w (snd (callModel tier parts w)).
Proof.
  unfold callModel, bind, askModel.
  destruct (modelAt _ _ _ _); now repeat split.
Qed.

Lemma reads_parseBillingDocument (inputs : list Image) (useHybridMode : bool) (w : World) :
  sameStore w (snd (parseBillingDocument inputs useHybridMode w)).
Proof.
  revert w. unfold parseBillingDocument.
  apply reads_bind.
  - destruct useHybridMode.
    + apply reads_bind; [apply reads_callModel |]. intros [r |] w; [apply sameStore_refl |].
      revert w. apply reads_bind; [apply reads_callModel |].
      intros [r2 |] w; [apply sameStore_refl | apply reads_callModel].
    + apply reads_bind; [apply reads_callModel |].
      intros [r |] w; [apply sameStore_refl | apply reads_callModel].
  - intros [parsed |] w; apply sameStore_refl.
Qed.

Lemma reads_recognizedRows (c : AppState) (items : list RecognizedItem) :
  forall index w, sameStore w (snd (recognizedRows c index items w)).
Proof.
  induction items as [| item items IH]; intros index; [apply sameStore_refl |].
  cbn [recognizedRows]. apply reads_bind; [apply reads_randomUUID |].
  intros newId. apply reads_bind; [apply IH |]. intros rows w. apply sameStore_refl.
Qed.

Lemma reads_bulkImportFile (c : AppState) (targetId : string) (i : nat) (file : JsonFile)
    (acc : list BulkImportStatus * list ManifestHistory) (w : World) :
  sameStore w (snd (bulkImportFile c targetId i file acc w)).
Proof.
  revert w. unfold bulkImportFile. destruct acc as [results newManifests].
  destruct (file_json file) as [json |]; [| apply sameStore_refl].
  destruct (existsb _ _ || existsb _ _); [apply sameStore_refl |].
  destruct (j_rows json); [apply sameStore_refl | apply sameStore_refl |].
  apply reads_bind; [apply reads_randomUUID |]. intros newId.
  apply reads_bind.
  { apply reads_orElse. apply reads_bind; [apply reads_Date_now |].
    intros now w. apply sameStore_refl. }
  intros no. apply reads_bind; [apply reads_orElse, reads_toLocaleDateString |].
  intros date. apply reads_bind; [apply reads_Date_now |].
  intros now w. apply sameStore_refl.
Qed.

Lemma reads_bulkImportLoop (c : AppState) (targetId : string) (files : list JsonFile) :
  forall i acc w, sameStore w (snd (bulkImportLoop c targetId i files acc w)).
Proof.
  induction files as [| f files IH]; intros i acc; [apply sameStore_refl |].
  cbn [bulkImportLoop]. apply reads_bind; [apply reads_bulkImportFile |].
  intros acc'. apply IH.
Qed.

Variable bin : list ManifestHistory.

Lemma persisted_sameStore (w w' : World) :
  sameStore w w' -> persistedWith bin w -> persistedWith bin w'.
Proof.
  unfold sameStore, persistedWith, persisted, storedHistory, storedFolders.
  intros (A & H & F & S) ((PH & PF & PS) & PB). rewrite A, H, F, S. now repeat split.
Qed.

Ltac reads :=
  apply (reads_preserve (persistedWith bin) _ persisted_sameStore);
  lazymatch goal with
  | |- forall w, sameStore w (snd (randomUUID w)) => exact reads_randomUUID
  | |- forall w, sameStore w (snd (Date_now w)) => exact reads_Date_now
  | |- forall w, sameStore w (snd (toLocaleDateString w)) => exact reads_toLocaleDateString
  | |- forall w, sameStore w (snd (toLocaleTimeString w)) => exact reads_toLocaleTimeString
  | |- forall w, sameStore w (snd (alert _ w)) => exact (reads_alert _)
  | |- forall w, sameStore w (snd (setTimeout _ w)) => exact (reads_setTimeout _)
  | |- forall w, sameStore w (snd (parseBillingDocument _ _ w)) =>
      exact (reads_parseBillingDocument _ _)
  | |- forall w, sameStore w (snd (recognizedRows _ _ _ w)) =>
      exact (reads_recognizedRows _ _ _)
  | |- forall w, sameStore w (snd (bulkImportLoop _ _ _ _ _ w)) =>
      exact (reads_bulkImportLoop _ _ _ _ _)
  end.

(** The setters of the cells that are not stored. *)
Ltac other_cell := solve [ intros w ((PH & PF & PS) & PB); repeat split; assumption ].

Lemma persisted_saveHistory (v : list ManifestHistory) : preserves (persistedWith bin) (saveHistory v).
Proof. intros w ((PH & PF & PS) & PB). repeat split; assumption. Qed.

Lemma persisted_saveFolders (v : list Folder) : preserves (persistedWith bin) (saveFolders v).
Proof. intros w ((PH & PF & PS) & PB). repeat split; assumption. Qed.

Lemma persisted_saveChunkSessionWith (f : option ChunkSession -> option ChunkSession) :
  preserves (persistedWith bin) (saveChunkSessionWith f).
Proof. intros w ((PH & PF & PS) & PB). repeat split; assumption. Qed.

Lemma persisted_saveChunkSession (s : option ChunkSession) :
  preserves (persistedWith bin) (saveChunkSession s).
Proof. apply persisted_saveChunkSessionWith. Qed.

Lemma persisted_prependToHistory (ms : list ManifestHistory) :
  preserves (persistedWith bin) (prependToHistory ms).
Proof. intros w ((PH & PF & PS) & PB). repeat split; assumption. Qed.

Lemma persisted_setActiveManifestId v : preserves (persistedWith bin) (setActiveManifestId v).
Proof. other_cell. Qed.
Lemma persisted_updateRows f : preserves (persistedWith bin) (updateRows f).
Proof. other_cell. Qed.
Lemma persisted_setRows v : preserves (persistedWith bin) (setRows v).
Proof. other_cell. Qed.
Lemma persisted_setConfig v : preserves (persistedWith bin) (setConfig v).
Proof. other_cell. Qed.
Lemma persisted_setManifestMeta v : preserves (persistedWith bin) (setManifestMeta v).
Proof. other_cell. Qed.
Lemma persisted_setView v : preserves (persistedWith bin) (setView v).
Proof. other_cell. Qed.
Lemma persisted_setStatus v : preserves (persistedWith bin) (setStatus v).
Proof. other_cell. Qed.
Lemma persisted_setIsUploadModalOpen v : preserves (persistedWith bin) (setIsUploadModalOpen v).
Proof. other_cell. Qed.
Lemma persisted_setImportConflict v : preserves (persistedWith bin) (setImportConflict v).
Proof. other_cell. Qed.
Lemma persisted_setBulkImportResults v : preserves (persistedWith bin) (setBulkImportResults v).
Proof. other_cell. Qed.

(** [setFolders(prev => ...)] followed by [saveFolders]. *)
Lemma persisted_update_then_saveFolders (f : list Folder -> list Folder) (v : list Folder) :
  preserves (persistedWith bin) (updateFolders f ;; saveFolders v).
Proof. intros w ((PH & PF & PS) & PB). repeat split; assumption. Qed.

Ltac keep_leaf :=
  lazymatch goal with
  | |- preserves _ (ret _) => apply preserves_ret
  | |- preserves _ (saveHistory _) => apply persisted_saveHistory
  | |- preserves _ (saveFolders _) => apply persisted_saveFolders
  | |- preserves _ (saveChunkSessionWith _) => apply persisted_saveChunkSessionWith
  | |- preserves _ (saveChunkSession _) => apply persisted_saveChunkSession
  | |- preserves _ (prependToHistory _) => apply persisted_prependToHistory
  | |- preserves _ (setActiveManifestId _) => apply persisted_setActiveManifestId
  | |- preserves _ (updateRows _) => apply persisted_updateRows
  | |- preserves _ (setRows _) => apply persisted_setRows
  | |- preserves _ (setConfig _) => apply persisted_setConfig
  | |- preserves _ (setManifestMeta _) => apply persisted_setManifestMeta
  | |- preserves _ (setView _) => apply persisted_setView
  | |- preserves _ (setStatus _) => apply persisted_setStatus
  | |- preserves _ (setIsUploadModalOpen _) => apply persisted_setIsUploadModalOpen
  | |- preserves _ (setImportConflict _) => apply persisted_setImportConflict
  | |- preserves _ (setBulkImportResults _) => apply persisted_setBulkImportResults
  | |- preserves _ (orElse _ _) => apply preserves_orElse
  | |- preserves _ (bind _ _) => apply preserves_bind; [| intro]
  | |- preserves _ (match ?x with _ => _ end) => destruct x
  | |- preserves _ _ => reads
  end.

Ltac keep := cbv zeta; repeat (keep_leaf; cbv zeta).

Lemma persisted_autoSaveManifest c newRows meta cfg :
  preserves (persistedWith bin) (autoSaveManifest c newRows meta cfg).
Proof. unfold autoSaveManifest. keep. Qed.

Lemma persisted_handleJsonFile c file : preserves (persistedWith bin) (handleJsonFile c file).
Proof.
  unfold handleJsonFile, parseFailed. keep. apply persisted_autoSaveManifest.
Qed.

Lemma persisted_resolveConflict c action : preserves (persistedWith bin) (resolveConflict c action).
Proof. unfold resolveConflict, openCandidate. keep. Qed.

Lemma persisted_handleBulkJsonImport c files :
  preserves (persistedWith bin) (handleBulkJsonImport c files).
Proof.
  unfold handleBulkJsonImport, executeBatchImport. cbv zeta.
  destruct (30 <? len files)%Z; [reads |].
  destruct (String.eqb (bulkImportFolderId c) "new"); [| keep].
  destruct (isBlank (bulkImportNewFolderName c)); [reads |].
  apply preserves_bind; [reads | intro targetId].
  apply preserves_bind; [reads | intro now].
  cbv zeta. apply preserves_assoc.
  apply preserves_bind; [apply persisted_update_then_saveFolders | intro]. keep.
Qed.

Lemma persisted_startChunkSession c : preserves (persistedWith bin) (startChunkSession c).
Proof.
  unfold startChunkSession.
  apply preserves_bind; [reads | intro date].
  apply preserves_bind; [reads | intro time]. cbv zeta.
  apply preserves_bind; [reads | intro newFolderId].
  apply preserves_bind; [reads | intro now]. cbv zeta.
  apply preserves_assoc.
  apply preserves_bind; [apply persisted_saveFolders | intro]. keep.
Qed.

Lemma persisted_finishCurrentChunk c o : preserves (persistedWith bin) (finishCurrentChunk c o).
Proof. unfold finishCurrentChunk. keep. Qed.

Lemma persisted_handleChunkCapture c file : preserves (persistedWith bin) (handleChunkCapture c file).
Proof.
  unfold handleChunkCapture. keep. apply persisted_finishCurrentChunk.
Qed.

Lemma persisted_processChunkQueue c : preserves (persistedWith bin) (processChunkQueue c).
Proof. unfold processChunkQueue. keep. Qed.

Lemma persisted_handlerOf (a : Action) (c : AppState) : preserves (persistedWith bin) (handlerOf a c).
Proof.
  destruct a; cbn [handlerOf].
  - apply persisted_handleJsonFile.
  - apply persisted_resolveConflict.
  - apply persisted_handleBulkJsonImport.
  - apply persisted_startChunkSession.
  - apply persisted_handleChunkCapture.
  - apply persisted_finishCurrentChunk.
  - apply persisted_processChunkQueue.
  - unfold addRow. keep.
  - unfold updateRow. keep.
  - unfold deleteRow. keep.
  - unfold applyGlobalType. keep.
  - unfold recalculateRows. keep.
  - unfold saveManifest. keep.
  - unfold startBlankSession. keep.
  - unfold openManifestFromHistory. keep.
Qed.

End Persistence.

(** X16. Reloading.  If the history, the folders, the recycle bin and the
    chunk session that a reload would read from storage are the live ones,
    they still are after any handler has run, whatever render the handler
    belongs to (a callback scheduled earlier runs with an old one). *)
Theorem handlers_keep_state_persisted (a : DeskAction) (c d : Desk) :
  persistedDesk d -> persistedDesk (execD (deskHandlerOf a c) d).
Proof.
  unfold persistedDesk. intro H.
  destruct a as [a | i [|] | i | i [|] | [|] | | i newName | i [|] | i folder];
    cbn [deskHandlerOf]; try exact H.
  - unfold execD, onWorld.
    pose proof (persisted_handlerOf (storedRecycleBin d) a (appState (world c)) (world d) H)
      as P.
    destruct (handlerOf a (appState (world c)) (world d)) as [u w']. exact P.
  - unfold softDeleteManifest. cbv zeta.
    destruct (find _ _); [| exact H].
    destruct H as ((PH & PF & PS) & PB). repeat split; assumption.
  - unfold softDeleteManifest. cbv zeta. destruct (find _ _); exact H.
  - unfold restoreManifest. cbv zeta.
    destruct (find _ _); [| exact H].
    destruct H as ((PH & PF & PS) & PB). repeat split; assumption.
  - destruct H as ((PH & PF & PS) & PB). repeat split; assumption.
  - destruct H as ((PH & PF & PS) & PB). repeat split; assumption.
  - unfold handleCreateFolder. destruct (isBlank _); [exact H |].
    destruct H as ((PH & PF & PS) & PB). repeat split; assumption.
  - destruct H as ((PH & PF & PS) & PB). repeat split; assumption.
  - unfold handleDeleteFolder. cbv zeta.
    destruct H as ((PH & PF & PS) & PB).
    destruct (currentFolderId (appState (world c))) as [f |];
      [destruct (String.eqb f i) |]; repeat split; assumption.
  - destruct H as ((PH & PF & PS) & PB). repeat split; assumption.
Qed.


(** ** Totals of the saved manifests *)

Section Totals.

Lemma consistentWorld_sameStore (w w' : World) : sameStore w w' -> consistentWorld w -> consistentWorld w'.
Proof.
  unfold consistentWorld. intros (A & _) H. now rewrite A.
Qed.

Lemma preserves_bind_post {A B} (I : World -> Prop) (Q : A -> Prop) (m : M A) (k : A -> M B) :
  preserves I m -> (forall w, Q (fst (m w))) -> (forall a, Q a -> preserves I (k a)) ->
  preserves I (bind m k).
Proof.
  intros Hm HQ Hk w Hw. unfold bind. specialize (Hm w Hw). specialize (HQ w).
  destruct (m w) as [a w1]. now apply Hk.
Qed.

Ltac reads_totals :=
  apply (reads_preserve consistentWorld _ consistentWorld_sameStore);
  lazymatch goal with
  | |- forall w, sameStore w (snd (randomUUID w)) => exact reads_randomUUID
  | |- forall w, sameStore w (snd (Date_now w)) => exact reads_Date_now
  | |- forall w, sameStore w (snd (toLocaleDateString w)) => exact reads_toLocaleDateString
  | |- forall w, sameStore w (snd (toLocaleTimeString w)) => exact reads_toLocaleTimeString
  | |- forall w, sameStore w (snd (alert _ w)) => exact (reads_alert _)
  | |- forall w, sameStore w (snd (setTimeout _ w)) => exact (reads_setTimeout _)
  | |- forall w, sameStore w (snd (parseBillingDocument _ _ w)) =>
      exact (reads_parseBillingDocument _ _)
  | |- forall w, sameStore w (snd (recognizedRows _ _ _ w)) =>
      exact (reads_recognizedRows _ _ _)
  | |- forall w, sameStore w (snd (bulkImportLoop _ _ _ _ _ w)) =>
      exact (reads_bulkImportLoop _ _ _ _ _)
  end.

Ltac other_cell := solve [ intros w (PH & PB & PC); repeat split; assumption ].

Lemma totals_saveHistory (v : list ManifestHistory) :
  Forall totalsMatch v -> preserves consistentWorld (saveHistory v).
Proof. intros Hv w (PH & PB & PC). repeat split; assumption. Qed.

Lemma totals_prependToHistory (ms : list ManifestHistory) :
  Forall totalsMatch ms -> preserves consistentWorld (prependToHistory ms).
Proof.
  intros Hv w (PH & PB & PC). split; [| split; assumption].
  cbn. apply Forall_app. now split.
Qed.

Lemma totals_setImportConflict (v : option ImportConflict) :
  match v with Some k => totalsMatch (newCandidate k) | None => True end ->
  preserves consistentWorld (setImportConflict v).
Proof. intros Hv w (PH & PB & PC). repeat split; assumption. Qed.

Lemma totals_saveFolders v : preserves consistentWorld (saveFolders v).
Proof. other_cell. Qed.
Lemma totals_updateFolders f : preserves consistentWorld (updateFolders f).
Proof. other_cell. Qed.
Lemma totals_saveChunkSessionWith f : preserves consistentWorld (saveChunkSessionWith f).
Proof. other_cell. Qed.
Lemma totals_saveChunkSession s : preserves consistentWorld (saveChunkSession s).
Proof. other_cell. Qed.
Lemma totals_setActiveManifestId v : preserves consistentWorld (setActiveManifestId v).
Proof. other_cell. Qed.
Lemma totals_updateRows f : preserves consistentWorld (updateRows f).
Proof. other_cell. Qed.
Lemma totals_setRows v : preserves consistentWorld (setRows v).
Proof. other_cell. Qed.
Lemma totals_setConfig v : preserves consistentWorld (setConfig v).
Proof. other_cell. Qed.
Lemma totals_setManifestMeta v : preserves consistentWorld (setManifestMeta v).
Proof. other_cell. Qed.
Lemma totals_setView v : preserves consistentWorld (setView v).
Proof. other_cell. Qed.
Lemma totals_setStatus v : preserves consistentWorld (setStatus v).
Proof. other_cell. Qed.
Lemma totals_setIsUploadModalOpen v : preserves consistentWorld (setIsUploadModalOpen v).
Proof. other_cell. Qed.
Lemma totals_setBulkImportResults v : preserves consistentWorld (setBulkImportResults v).
Proof. other_cell. Qed.
Lemma totals_setFolders v : preserves consistentWorld (setFolders v).
Proof. other_cell. Qed.
Lemma totals_storeFolders v : preserves consistentWorld (storeFolders v).
Proof. other_cell. Qed.

Ltac keep_leaf :=
  lazymatch goal with
  | |- preserves _ (ret _) => apply preserves_ret
  | |- preserves _ (saveHistory _) => apply totals_saveHistory
  | |- preserves _ (prependToHistory _) => apply totals_prependToHistory
  | |- preserves _ (setImportConflict _) => apply totals_setImportConflict
  | |- preserves _ (saveFolders _) => apply totals_saveFolders
  | |- preserves _ (setFolders _) => apply totals_setFolders
  | |- preserves _ (storeFolders _) => apply totals_storeFolders
  | |- preserves _ (updateFolders _) => apply totals_updateFolders
  | |- preserves _ (saveChunkSessionWith _) => apply totals_saveChunkSessionWith
  | |- preserves _ (saveChunkSession _) => apply totals_saveChunkSession
  | |- preserves _ (setActiveManifestId _) => apply totals_setActiveManifestId
  | |- preserves _ (updateRows _) => apply totals_updateRows
  | |- preserves _ (setRows _) => apply totals_setRows
  | |- preserves _ (setConfig _) => apply totals_setConfig
  | |- preserves _ (setManifestMeta _) => apply totals_setManifestMeta
  | |- preserves _ (setView _) => apply totals_setView
  | |- preserves _ (setStatus _) => apply totals_setStatus
  | |- preserves _ (setIsUploadModalOpen _) => apply totals_setIsUploadModalOpen
  | |- preserves _ (setBulkImportResults _) => apply totals_setBulkImportResults
  | |- preserves _ (orElse _ _) => apply preserves_orElse
  | |- preserves _ (bind _ _) => apply preserves_bind; [| intro]
  | |- preserves _ (match ?x with _ => _ end) => destruct x eqn:?
  | |- preserves _ _ => reads_totals
  end.

Ltac keep := cbv zeta; repeat (keep_leaf; cbv zeta).

Lemma totalsMatch_withId (m : ManifestHistory) (i : string) :
  totalsMatch m -> totalsMatch (withId m i).
Proof. intro H. exact H. Qed.

Lemma totalsMatch_withFolder (f : option string) (m : ManifestHistory) :
  totalsMatch m -> totalsMatch (withFolder f m).
Proof. intro H. exact H. Qed.

Lemma Forall_filter {A} (P : A -> Prop) (p : A -> bool) (l : list A) :
  Forall P l -> Forall P (filter p l).
Proof.
  intro H. apply Forall_forall. intros x Hx. apply filter_In in Hx.
  destruct Hx as [Hx _]. revert x Hx. now apply Forall_forall.
Qed.

Lemma Forall_find {A} (P : A -> Prop) (p : A -> bool) (l : list A) (x : A) :
  Forall P l -> find p l = Some x -> P x.
Proof.
  intros H E. apply find_some in E. destruct E as [E _].
  revert x E. now apply Forall_forall.
Qed.

Lemma Forall_replace {A} (P : A -> Prop) (p : A -> bool) (d : A) (l : list A) :
  P d -> Forall P l -> Forall P (map (fun h => if p h then d else h) l).
Proof.
  intros Hd H. apply Forall_forall. intros x Hx. apply in_map_iff in Hx.
  destruct Hx as (h & <- & Hh). destruct (p h); [exact Hd |].
  revert h Hh. now apply Forall_forall.
Qed.

Lemma Forall_map_same {A} (P : A -> Prop) (f : A -> A) (l : list A) :
  (forall x, P x -> P (f x)) -> Forall P l -> Forall P (map f l).
Proof.
  intros Hf H. apply Forall_forall. intros x Hx. apply in_map_iff in Hx.
  destruct Hx as (h & <- & Hh). apply Hf. revert h Hh. now apply Forall_forall.
Qed.

Lemma bulkImportFile_totals (c : AppState) (targetId : string) (i : nat) (file : JsonFile)
    (acc : list BulkImportStatus * list ManifestHistory) (w : World) :
  Forall totalsMatch (snd acc) ->
  Forall totalsMatch (snd (fst (bulkImportFile c targetId i file acc w))).
Proof.
  unfold bulkImportFile. destruct acc as [results newManifests]. cbn [snd]. intro H.
  destruct (file_json file) as [json |]; [| exact H].
  destruct (existsb _ _ || existsb _ _); [exact H |].
  destruct (j_rows json); [exact H | exact H |].
  unfold bind, orElse.
  destruct (j_manifestNo json) as [n |]; [destruct (String.eqb n EmptyString) |];
    (destruct (j_manifestDate json) as [d |]; [destruct (String.eqb d EmptyString) |]);
    cbn -[calculateRow sumAmounts]; apply Forall_app; (split; [exact H |]);
    constructor; try constructor; now split.
Qed.

Lemma bulkImportLoop_totals (c : AppState) (targetId : string) (files : list JsonFile) :
  forall i acc w,
    Forall totalsMatch (snd acc) ->
    Forall totalsMatch (snd (fst (bulkImportLoop c targetId i files acc w))).
Proof.
  induction files as [| f files IH]; intros i acc w H; [exact H |].
  cbn [bulkImportLoop]. unfold bind.
  pose proof (bulkImportFile_totals c targetId i f acc w H) as H1.
  destruct (bulkImportFile c targetId i f acc w) as [acc1 w1]. now apply IH.
Qed.

Variable c : AppState.
Hypothesis consistent_c : consistentApp c.

Lemma totals_handleJsonFile file : preserves consistentWorld (handleJsonFile c file).
Proof.
  destruct consistent_c as (CH & CB & CC).
  unfold handleJsonFile, parseFailed, autoSaveManifest. keep;
    try (cbn; exact I); try (now split).
  constructor; [now split | exact CH].
Qed.

Lemma totals_resolveConflict action : preserves consistentWorld (resolveConflict c action).
Proof.
  destruct consistent_c as (CH & CB & CC).
  unfold resolveConflict, openCandidate.
  destruct (importConflict c) as [conflict |]; [| apply preserves_ret].
  keep; try exact I.
  - constructor; [exact CC | exact CH].
  - constructor; [exact CC | now apply Forall_filter].
Qed.

Lemma totals_handleBulkJsonImport files : preserves consistentWorld (handleBulkJsonImport c files).
Proof.
  unfold handleBulkJsonImport, executeBatchImport. cbv zeta.
  assert (L : forall targetId,
    preserves consistentWorld
      (acc <- bulkImportLoop c targetId 0 files ([], []) ;;
       prependToHistory (snd acc) ;; setBulkImportResults (fst acc))).
  { intro targetId.
    apply preserves_bind_post with (Q := fun acc => Forall totalsMatch (snd acc)).
    - reads_totals.
    - intro w. apply bulkImportLoop_totals. constructor.
    - intros acc Hacc. keep. exact Hacc. }
  destruct (30 <? len files)%Z; [reads_totals |].
  destruct (String.eqb (bulkImportFolderId c) "new"); [| apply L].
  destruct (isBlank (bulkImportNewFolderName c)); [reads_totals |].
  apply preserves_bind; [reads_totals | intro targetId].
  apply preserves_bind; [reads_totals | intro now]. cbv zeta.
  apply preserves_bind; [apply totals_updateFolders | intro].
  apply preserves_bind; [apply totals_saveFolders | intro]. apply L.
Qed.

Lemma totals_processChunkQueue c0 : preserves consistentWorld (processChunkQueue c0).
Proof.
  unfold processChunkQueue. keep. constructor; [now split | constructor].
Qed.

Lemma totals_saveManifest : preserves consistentWorld (saveManifest c).
Proof.
  destruct consistent_c as (CH & CB & CC).
  unfold saveManifest.
  apply preserves_bind; [destruct (truthy (activeManifestId c)); keep | intro newId].
  keep. destruct (truthy (activeManifestId c)).
  - apply Forall_replace; [now split | exact CH].
  - constructor; [now split | exact CH].
Qed.

Lemma totals_handlerOf (a : Action) : preserves consistentWorld (handlerOf a c).
Proof.
  destruct a; cbn [handlerOf].
  - apply totals_handleJsonFile.
  - apply totals_resolveConflict.
  - apply totals_handleBulkJsonImport.
  - unfold startChunkSession. keep.
  - unfold handleChunkCapture, finishCurrentChunk. keep.
  - unfold finishCurrentChunk. keep.
  - apply totals_processChunkQueue.
  - unfold addRow. keep.
  - unfold updateRow. keep.
  - unfold deleteRow. keep.
  - unfold applyGlobalType. keep.
  - unfold recalculateRows. keep.
  - apply totals_saveManifest.
  - unfold startBlankSession. keep.
  - unfold openManifestFromHistory. keep.
Qed.

End Totals.

(** X17. Totals of the saved manifests.  If every manifest of the history
    and of the recycle bin, and the candidate of a pending import conflict,
    records as total amount the sum of the amounts of its rows and as item
    count their number, this is still so after any handler has run. *)
Theorem handlers_keep_totals (a : DeskAction) (d : Desk) :
  consistentApp (appState (world d)) ->
  consistentApp (appState (world (execD (dispatchD (deskHandlerOf a)) d))).
Proof.
  intro H. unfold dispatchD, execD.
  destruct a as [a | i [|] | i | i [|] | [|] | | i newName | i [|] | i folder];
    cbn [deskHandlerOf]; try exact H.
  - unfold onWorld.
    pose proof (totals_handlerOf (appState (world d)) H a (world d) H) as P.
    destruct (handlerOf a (appState (world d)) (world d)) as [u w']. exact P.
  - unfold softDeleteManifest. cbv zeta.
    destruct (find _ _) as [m |] eqn:E; [| exact H].
    destruct H as (CH & CB & CC). split; [| split]; cbn.
    + now apply Forall_filter.
    + constructor; [exact (Forall_find _ _ _ _ CH E) | exact CB].
    + exact CC.
  - unfold softDeleteManifest. cbv zeta. destruct (find _ _); exact H.
  - unfold restoreManifest. cbv zeta.
    destruct (find _ _) as [m |] eqn:E; [| exact H].
    destruct H as (CH & CB & CC). split; [| split]; cbn.
    + constructor; [exact (Forall_find _ _ _ _ CB E) | exact CH].
    + now apply Forall_filter.
    + exact CC.
  - destruct H as (CH & CB & CC). split; [| split]; cbn; try assumption.
    now apply Forall_filter.
  - destruct H as (CH & CB & CC). split; [| split]; cbn; try assumption. constructor.
  - unfold handleCreateFolder. destruct (isBlank _); [exact H |].
    destruct H as (CH & CB & CC). split; [| split]; cbn; assumption.
  - unfold handleDeleteFolder. cbv zeta.
    destruct H as (CH & CB & CC).
    assert (F : Forall totalsMatch
                  (map (fun h => if inFolder i h then withFolder None h else h)
                       (history (appState (world d))))).
    { apply Forall_map_same; [| exact CH]. intros x Hx. now destruct (inFolder i x). }
    destruct (currentFolderId (appState (world d))) as [f |];
      [destruct (String.eqb f i) |]; (split; [| split]); cbn; assumption.
  - destruct H as (CH & CB & CC). split; [| split]; cbn; try assumption.
    apply Forall_map_same; [| exact CH]. intros x Hx. now destruct (hasId i x).
Qed.

(** ** Recognition client *)

Section Recognition.

Local Open Scope nat_scope.

Lemma callModel_run (tier : Tier) (inputs : list Image) (w : World) :
  callModel tier inputs w =
  (match modelAt (env w) (List.length (modelCalls w)) tier inputs with
   | ModelThrows => None
   | ModelResponds parsed => Some parsed
   end,
   snd (askModel tier inputs w)).
Proof.
  unfold callModel, bind, askModel. cbn [snd].
  now destruct (modelAt _ _ _ _).
Qed.

Lemma length_snoc {A} (l : list A) (x : A) : List.length (l ++ [x]) = List.length l + 1.
Proof. now rewrite length_app. Qed.

(** The default mode, run. *)
Lemma parse_default_run (inputs : list Image) (w : World) :
  let n := List.length (modelCalls w) in
  parseBillingDocument inputs false w =
  match modelAt (env w) n FAST inputs with
  | ModelResponds parsed => (parsed, snd (askModel FAST inputs w))
  | ModelThrows =>
      (match modelAt (env w) (n + 1) FALLBACK inputs with
       | ModelResponds parsed => parsed
       | ModelThrows => None
       end,
       snd (askModel FALLBACK inputs (snd (askModel FAST inputs w))))
  end.
Proof.
  cbv zeta. unfold parseBillingDocument, callModel, bind, askModel, ret.
  destruct (modelAt (env w) (List.length (modelCalls w)) FAST inputs) as [| p1];
    cbn; [| reflexivity].
  rewrite length_snoc. now destruct (modelAt _ _ _ _).
Qed.

(** The hybrid mode, run. *)
Lemma parse_hybrid_run (inputs : list Image) (w : World) :
  let n := List.length (modelCalls w) in
  parseBillingDocument inputs true w =
  match modelAt (env w) n ACCURATE inputs with
  | ModelResponds parsed => (parsed, snd (askModel ACCURATE inputs w))
  | ModelThrows =>
      match modelAt (env w) (n + 1) FAST inputs with
      | ModelResponds parsed =>
          (parsed, snd (askModel FAST inputs (snd (askModel ACCURATE inputs w))))
      | ModelThrows =>
          (match modelAt (env w) (n + 2) FALLBACK inputs with
           | ModelResponds parsed => parsed
           | ModelThrows => None
           end,
           snd (askModel FALLBACK inputs
                  (snd (askModel FAST inputs (snd (askModel ACCURATE inputs w))))))
      end
  end.
Proof.
  cbv zeta. unfold parseBillingDocument, callModel, bind, askModel, ret.
  destruct (modelAt (env w) (List.length (modelCalls w)) ACCURATE inputs) as [| p1];
    cbn; [| reflexivity].
  rewrite length_snoc.
  destruct (modelAt (env w) (List.length (modelCalls w) + 1) FAST inputs) as [| p2];
    cbn; [| reflexivity].
  rewrite !length_snoc.
  replace (List.length (modelCalls w) + 1 + 1) with (List.length (modelCalls w) + 2) by lia.
  now destruct (modelAt _ _ _ _).
Qed.

(** X18. Tiers of the recognition client.  [parseBillingDocument] sends
    every request with the same inputs, to the tiers of its mode in order
    (default: fast, fallback; hybrid: accurate, fast, fallback), one after
    the other for as long as they throw.  The first tier that answers ends
    it: the result is that answer parsed, and an answer that is not JSON
    makes the call fail without a further request.  When every tier threw,
    the call fails. *)
Theorem parseBillingDocument_tiers (inputs : list Image) (useHybridMode : bool) (w : World) :
  let r := fst (parseBillingDocument inputs useHybridMode w) in
  let w' := snd (parseBillingDocument inputs useHybridMode w) in
  exists tried last rest,
    tiersOf useHybridMode = (tried ++ last :: rest)%list /\
    modelCalls w' = (modelCalls w ++ map (fun t => (t, inputs)) (tried ++ [last]))%list /\
    (forall j t, nth_error tried j = Some t -> outcomeAt w inputs j t = ModelThrows) /\
    match outcomeAt w inputs (List.length tried) last with
    | ModelThrows => rest = [] /\ r = None
    | ModelResponds parsed => r = parsed
    end.
Proof.
  cbv zeta. unfold outcomeAt.
  destruct useHybridMode; cbn [tiersOf].
  - rewrite parse_hybrid_run. cbv zeta.
    destruct (modelAt (env w) (List.length (modelCalls w)) ACCURATE inputs) as [| p1] eqn:E1.
    + destruct (modelAt (env w) (List.length (modelCalls w) + 1) FAST inputs) as [| p2] eqn:E2.
      * exists [ACCURATE; FAST], FALLBACK, [].
        split; [reflexivity |]. split; [cbn; now rewrite <- !app_assoc |]. split.
        { intros [| [| j]] t H; cbn in H; try (injection H as <-).
          - now rewrite Nat.add_0_r.
          - exact E2.
          - destruct j; discriminate H. }
        cbn [List.length fst].
        now destruct (modelAt (env w) (List.length (modelCalls w) + 2) FALLBACK inputs).
      * exists [ACCURATE], FAST, [FALLBACK].
        split; [reflexivity |]. split; [cbn; now rewrite <- !app_assoc |]. split.
        { intros [| j] t H; cbn in H; try (injection H as <-).
          - now rewrite Nat.add_0_r.
          - destruct j; discriminate H. }
        cbn [List.length fst]. now rewrite E2.
    + exists [], ACCURATE, [FAST; FALLBACK].
      split; [reflexivity |]. split; [reflexivity |]. split.
      { intros [| j] t H; discriminate H. }
      cbn [List.length fst]. now rewrite Nat.add_0_r, E1.
  - rewrite parse_default_run. cbv zeta.
    destruct (modelAt (env w) (List.length (modelCalls w)) FAST inputs) as [| p1] eqn:E1.
    + exists [FAST], FALLBACK, [].
      split; [reflexivity |]. split; [cbn; now rewrite <- !app_assoc |]. split.
      { intros [| j] t H; cbn in H; try (injection H as <-).
        - now rewrite Nat.add_0_r.
        - destruct j; discriminate H. }
      cbn [List.length fst].
      now destruct (modelAt (env w) (List.length (modelCalls w) + 1) FALLBACK inputs).
    + exists [], FAST, [FALLBACK].
      split; [reflexivity |]. split; [reflexivity |]. split.
      { intros [| j] t H; discriminate H. }
      cbn [List.length fst]. now rewrite Nat.add_0_r, E1.
Qed.

End Recognition.

(** ** Queue processing *)

Section QueueProcessing.

Local Open Scope nat_scope.

Lemma bind_run {A B} (m : M A) (k : A -> M B) (w : World) :
  bind m k w = k (fst (m w)) (snd (m w)).
Proof.
  unfold bind. now destruct (m w).
Qed.

Ltac run_handler :=
  cbn -[parseBillingDocument recognizedRows intToString String.append Z.ltb len
        calculateRow sumAmounts].

(** X19. A chunk that cannot be recognised stays in the queue.  When
    every request to the recognition service throws, [processChunkQueue]
    leaves the history, the stored history and the queue of the live session
    as they were, counts nothing as processed, schedules no follow-up call,
    marks the session as not processing and logs that it paused.  It has
    then made two requests in default mode, three in hybrid mode and five in
    auto mode (default, then hybrid). *)
Theorem processChunkQueue_failure (c : AppState) (w : World) (session : ChunkSession)
    (chunk : Chunk) (rest : list Chunk) :
  chunkSession c = Some session ->
  pendingChunks session = chunk :: rest ->
  (forall n t i, modelAt (env w) n t i = ModelThrows) ->
  let w' := exec (processChunkQueue c) w in
  let live := chunkSession (appState w) in
  let live' := chunkSession (appState w') in
  history (appState w') = history (appState w) /\
  ls_history w' = ls_history w /\
  option_map pendingChunks live' = option_map pendingChunks live /\
  option_map processedCount live' = option_map processedCount live /\
  option_map isProcessing live' = option_map (fun _ => false) live /\
  option_map statusLog live'
    = option_map (fun _ => "Processing paused due to error. Resume when ready."%string) live /\
  ls_chunkSession w' = live' /\
  timers w' = timers w /\
  List.length (modelCalls w') =
    List.length (modelCalls w)
    + match aiMode session with ModeDefault => 2 | ModeHybrid => 3 | ModeAuto => 5 end.
Proof.
  intros Hs Hp Hfail. cbv zeta.
  unfold exec, processChunkQueue. rewrite Hs, Hp.
  destruct (aiMode session);
    repeat (rewrite bind_run; run_handler;
            rewrite ?parse_default_run, ?parse_hybrid_run; cbv zeta; cbn [env];
            rewrite ?Hfail; run_handler);
    rewrite ?parse_default_run, ?parse_hybrid_run; cbv zeta; cbn [env];
    rewrite ?Hfail; run_handler;
    destruct (chunkSession (appState w)); cbn;
    rewrite ?length_app; cbn [List.length];
    repeat split; lia.
Qed.

Lemma recognizedRows_run (c : AppState) (items : list RecognizedItem) :
  forall index w,
    snd (recognizedRows c index items w) =
      {| appState := appState w; env := env w;
         uuidCount := uuidCount w + List.length items;
         clockReads := clockReads w; ls_history := ls_history w;
         ls_folders := ls_folders w; ls_chunkSession := ls_chunkSession w;
         modelCalls := modelCalls w; alerts := alerts w; timers := timers w |} /\
    List.length (fst (recognizedRows c index items w)) = List.length items.
Proof.
  induction items as [| item items IH]; intros index w.
  - cbn. rewrite Nat.add_0_r. now destruct w.
  - cbn [recognizedRows]. rewrite bind_run. cbn [randomUUID fst snd].
    rewrite bind_run. cbn [ret fst snd List.length].
    destruct (IH (S index)
                {| appState := appState w; env := env w; uuidCount := S (uuidCount w);
                   clockReads := clockReads w; ls_history := ls_history w;
                   ls_folders := ls_folders w; ls_chunkSession := ls_chunkSession w;
                   modelCalls := modelCalls w; alerts := alerts w; timers := timers w |})
      as [E1 E2].
    rewrite E1, E2. cbn. split; [| reflexivity].
    f_equal. lia.
Qed.

Lemma remaining_after_head {A} (x : A) (l : list A) :
  (0 <? len (x :: l) - 1)%Z = match l with [] => false | _ :: _ => true end.
Proof.
  unfold len. destruct l as [| y l]; [reflexivity |].
  apply Z.ltb_lt. cbn [List.length]. lia.
Qed.

Lemma orElse_run (o : option string) (d : M string) (w : World) :
  orElse o d w = match truthy o with Some s => (s, w) | None => d w end.
Proof.
  unfold orElse, truthy. destruct o as [s |]; [| reflexivity].
  now destruct (String.eqb s EmptyString).
Qed.

Ltac run_handler_in E :=
  cbn -[parseBillingDocument recognizedRows intToString String.append Z.ltb len
        calculateRow sumAmounts itemsOf] in E.

Ltac run_step_in E :=
  first
    [ rewrite parse_default_run in E; cbv zeta in E
    | rewrite parse_hybrid_run in E; cbv zeta in E
    | match type of E with
      | context [recognizedRows ?c ?i ?items ?W] =>
          let E1 := fresh "E" in
          let E2 := fresh "L" in
          let rs := fresh "calculatedRows" in
          let W2 := fresh "w" in
          destruct (recognizedRows_run c items i W) as [E1 E2];
          revert E; destruct (recognizedRows c i items W) as [rs W2]; intro E;
          cbn [fst snd] in E1, E2; subst W2
      end
    | match type of E with
      | context [orElse ?o ?d ?W] =>
          rewrite (orElse_run o d W) in E; destruct (truthy o)
      end
    | rewrite bind_run in E ].

(** The run of [processChunkQueue] on a recognised chunk. *)
Lemma recognised_chunk_run (w : World) (session : ChunkSession)
    (chunk : Chunk) (rest : list Chunk) (result : Recognition) :
  chunkSession (appState w) = Some session ->
  pendingChunks session = chunk :: rest ->
  outcomeAt w (images chunk) 0 (firstTier (aiMode session)) = ModelResponds (Some result) ->
  let w' := exec (step ProcessQueue) w in
  let live' := chunkSession (appState w') in
  exists m,
    history (appState w') = m :: history (appState w) /\
    ls_history w' = Some (m :: history (appState w)) /\
    folderId m = Some (cs_folderId session) /\
    List.length (m_rows m) = List.length (itemsOf result) /\
    m_config m = globalConfig (appState w) /\
    totalsMatch m /\
    option_map pendingChunks live' = Some rest /\
    option_map processedCount live' = Some (processedCount session + 1)%Z /\
    option_map isProcessing live'
      = Some (match rest with [] => false | _ :: _ => true end) /\
    ls_chunkSession w' = live' /\
    timers w' = (timers w ++ match rest with [] => [] | _ :: _ => [appState w] end)%list /\
    modelCalls w' = (modelCalls w ++ [(firstTier (aiMode session), images chunk)])%list.
Proof.
  intros Hs Hp Hout. cbv zeta. unfold outcomeAt in Hout. rewrite Nat.add_0_r in Hout.
  remember (exec (step ProcessQueue) w) as w' eqn:E.
  unfold exec, step, dispatch in E. rewrite bind_run in E.
  cbn [getApp fst snd handlerOf] in E.
  unfold processChunkQueue in E. rewrite Hs, Hp, remaining_after_head in E.
  destruct (aiMode session); cbn [firstTier] in Hout |- *;
    repeat (run_step_in E; cbn [env modelCalls] in E; rewrite ?Hout, ?Hs in E;
            run_handler_in E);
    destruct rest; run_handler_in E; rewrite ?Hs in E; run_handler_in E; subst w';
    (eexists; repeat split;
     [ cbn [m_rows]; unfold itemsOf; eassumption
     | cbn; rewrite ?Hp, ?app_nil_r; reflexivity .. ]).
Qed.

(** X20. A recognised chunk becomes one manifest.  When the handler of
    the current render runs on a queue [chunk :: rest] and the first tier of
    the session's mode answers with a recognition, [processChunkQueue]
    makes that one request, puts one new manifest in front of the history
    (stored as well), filed in the folder of the session, with one row per
    recognised item, the global configuration and matching totals; the live
    queue becomes [rest] and the processed count goes up by one.  If [rest]
    is not empty the session stays in processing and a follow-up call of the
    same render is scheduled; otherwise processing ends. *)
Theorem processChunkQueue_success (w : World) (session : ChunkSession)
    (chunk : Chunk) (rest : list Chunk) (result : Recognition) :
  chunkSession (appState w) = Some session ->
  pendingChunks session = chunk :: rest ->
  outcomeAt w (images chunk) 0 (firstTier (aiMode session)) = ModelResponds (Some result) ->
  let w' := exec (step ProcessQueue) w in
  let live' := chunkSession (appState w') in
  exists m,
    history (appState w') = m :: history (appState w) /\
    ls_history w' = Some (m :: history (appState w)) /\
    folderId m = Some (cs_folderId session) /\
    List.length (m_rows m) = List.length (itemsOf result) /\
    m_config m = globalConfig (appState w) /\
    totalsMatch m /\
    option_map pendingChunks live' = Some rest /\
    option_map processedCount live' = Some (processedCount session + 1)%Z /\
    option_map isProcessing live'
      = Some (match rest with [] => false | _ :: _ => true end) /\
    ls_chunkSession w' = live' /\
    timers w' = (timers w ++ match rest with [] => [] | _ :: _ => [appState w] end)%list /\
    modelCalls w' = (modelCalls w ++ [(firstTier (aiMode session), images chunk)])%list.
Proof.
  exact (recognised_chunk_run w session chunk rest result).
Qed.

End QueueProcessing.

(** ** Bulk import *)

Section BulkImport.

Local Open Scope nat_scope.
Local Open Scope list_scope.

Lemma bulkImportFile_accounted (c : AppState) (targetId : string) (i : nat) (file : JsonFile)
    (names : list string) (acc : list BulkImportStatus * list ManifestHistory) (w : World) :
  accounted targetId names acc ->
  accounted targetId (names ++ [file_name file])
    (fst (bulkImportFile c targetId i file acc w)).
Proof.
  unfold accounted, bulkImportFile. destruct acc as [results newManifests].
  cbn [fst snd]. intros (Hn & Hl & Hf).
  assert (R : forall st msg,
             st <> st_success ->
             map fileName (results ++ [{| fileName := file_name file; bulk_status := st;
                                          bulk_message := msg |}]) = names ++ [file_name file] /\
             List.length newManifests =
               List.length (filter isImported
                 (results ++ [{| fileName := file_name file; bulk_status := st;
                                 bulk_message := msg |}])) /\
             Forall (fun m => folderId m = Some targetId) newManifests).
  { intros st msg Hst. rewrite map_app, filter_app, length_app, Hn. cbn.
    unfold isImported. cbn. destruct st; try contradiction; cbn; rewrite Nat.add_0_r;
      now repeat split. }
  destruct (file_json file) as [json |]; [| now apply R].
  destruct (existsb _ _ || existsb _ _); [now apply R |].
  destruct (j_rows json); [now apply R | now apply R |].
  unfold bind, orElse.
  destruct (j_manifestNo json) as [n |]; [destruct (String.eqb n EmptyString) |];
    (destruct (j_manifestDate json) as [d |]; [destruct (String.eqb d EmptyString) |]);
    cbn -[calculateRow sumAmounts isImported];
    rewrite map_app, filter_app, !length_app, Hn, Hl; cbn;
    (split; [reflexivity |]); (split; [reflexivity |]);
    apply Forall_app; (split; [exact Hf |]); now constructor.
Qed.

Lemma bulkImportLoop_accounted (c : AppState) (targetId : string) (files : list JsonFile) :
  forall i names acc w,
    accounted targetId names acc ->
    accounted targetId (names ++ map file_name files)
      (fst (bulkImportLoop c targetId i files acc w)).
Proof.
  induction files as [| f files IH]; intros i names acc w H.
  - cbn. now rewrite app_nil_r.
  - cbn [bulkImportLoop map]. rewrite bind_run.
    replace (names ++ file_name f :: map file_name files)%list
      with ((names ++ [file_name f]) ++ map file_name files)%list
      by now rewrite <- app_assoc.
    apply IH. now apply bulkImportFile_accounted.
Qed.

(** X21. Reports of the bulk import.  A bulk import of at most thirty
    files into a chosen folder, or into a new folder with a name, reports
    on every file once, in the order of the files; it puts as many manifests
    in front of the history (stored as well) as it reports imported, and all
    of them are filed in the target folder. *)
Theorem handleBulkJsonImport_reports (c : AppState) (w : World) (files : list JsonFile) :
  (len files <= 30)%Z ->
  (bulkImportFolderId c = "new"%string -> isBlank (bulkImportNewFolderName c) = false) ->
  let w' := exec (handleBulkJsonImport c files) w in
  let results := bulkImportResults (appState w') in
  map fileName results = map file_name files /\
  exists imported,
    history (appState w') = (imported ++ history (appState w))%list /\
    ls_history w' = Some (imported ++ history (appState w))%list /\
    List.length imported = List.length (filter isImported results) /\
    Forall (fun m => folderId m = Some (bulkImportTarget c w)) imported.
Proof.
  intros Hlen Hname. cbv zeta.
  unfold exec, handleBulkJsonImport, bulkImportTarget, executeBatchImport.
  assert (L : (30 <? len files)%Z = false) by (apply Z.ltb_ge; exact Hlen).
  rewrite L. cbv zeta.
  assert (Run : forall targetId w0,
            history (appState w0) = history (appState w) ->
            let w1 := snd ((acc <- bulkImportLoop c targetId 0 files ([], []) ;;
                            prependToHistory (snd acc) ;;
                            setBulkImportResults (fst acc)) w0) in
            map fileName (bulkImportResults (appState w1)) = map file_name files /\
            exists imported,
              history (appState w1) = (imported ++ history (appState w))%list /\
              ls_history w1 = Some (imported ++ history (appState w))%list /\
              List.length imported
                = List.length (filter isImported (bulkImportResults (appState w1))) /\
              Forall (fun m => folderId m = Some targetId) imported).
  { intros targetId w0 Hh. cbv zeta. rewrite bind_run.
    pose proof (bulkImportLoop_accounted c targetId files 0 [] ([], []) w0) as A.
    destruct (reads_bulkImportLoop c targetId files 0 ([], []) w0) as (SA & _).
    destruct (bulkImportLoop c targetId 0 files ([], []) w0) as [[results ms] w1].
    cbn [fst snd] in A, SA |- *.
    destruct A as (An & Al & Af); [now repeat split |].
    cbn. rewrite SA, Hh. split; [exact An |].
    exists ms. now repeat split. }
  destruct (String.eqb (bulkImportFolderId c) "new") eqn:N.
  - apply String.eqb_eq in N. rewrite (Hname N).
    rewrite bind_run. cbn [randomUUID fst snd].
    rewrite bind_run. cbn [Date_now fst snd].
    rewrite bind_run. rewrite bind_run.
    apply Run. reflexivity.
  - apply Run. reflexivity.
Qed.

End BulkImport.

(** ** Accounting of a chunk session *)

Section SessionAccounting.

Local Open Scope nat_scope.

(** What a call of [parseBillingDocument] does to the world: it adds its
    requests, the first of which goes to the first tier of the mode. *)
Lemma parseBillingDocument_effect (inputs : list Image) (useHybridMode : bool) (w : World) :
  exists more,
    snd (parseBillingDocument inputs useHybridMode w) =
      {| appState := appState w; env := env w; uuidCount := uuidCount w;
         clockReads := clockReads w; ls_history := ls_history w;
         ls_folders := ls_folders w; ls_chunkSession := ls_chunkSession w;
         modelCalls :=
           (modelCalls w ++ (if useHybridMode then ACCURATE else FAST, inputs) :: more)%list;
         alerts := alerts w; timers := timers w |}.
Proof.
  destruct useHybridMode.
  - rewrite parse_hybrid_run. cbv zeta.
    destruct (modelAt (env w) (List.length (modelCalls w)) ACCURATE inputs).
    + destruct (modelAt (env w) (List.length (modelCalls w) + 1) FAST inputs).
      * exists [(FAST, inputs); (FALLBACK, inputs)]. cbn. now rewrite <- !app_assoc.
      * exists [(FAST, inputs)]. cbn. now rewrite <- !app_assoc.
    + exists []. reflexivity.
  - rewrite parse_default_run. cbv zeta.
    destruct (modelAt (env w) (List.length (modelCalls w)) FAST inputs).
    + exists [(FALLBACK, inputs)]. cbn. now rewrite <- !app_assoc.
    + exists []. reflexivity.
Qed.

Ltac run_in E :=
  cbn -[parseBillingDocument recognizedRows intToString String.append Z.ltb len
        calculateRow sumAmounts itemsOf Z.add] in E.

Ltac step_in E :=
  first
    [ match type of E with
      | context [parseBillingDocument ?i ?b ?W] =>
          let more := fresh "more" in
          let Em := fresh "Em" in
          let r := fresh "r" in
          let W2 := fresh "w" in
          destruct (parseBillingDocument_effect i b W) as [more Em];
          revert E; destruct (parseBillingDocument i b W) as [r W2]; intro E;
          cbn [snd] in Em; subst W2; destruct r
      end
    | match type of E with
      | context [recognizedRows ?c ?i ?items ?W] =>
          let E1 := fresh "E" in
          let E2 := fresh "L" in
          let rs := fresh "calculatedRows" in
          let W2 := fresh "w" in
          destruct (recognizedRows_run c items i W) as [E1 E2];
          revert E; destruct (recognizedRows c i items W) as [rs W2]; intro E;
          cbn [fst snd] in E1, E2; subst W2
      end
    | match type of E with
      | context [orElse ?o ?d ?W] =>
          rewrite (orElse_run o d W) in E; destruct (truthy o)
      end
    | rewrite bind_run in E ].

(** [processChunkQueue], run to the end, with what it leaves in the live
    session and the requests it made. *)
Lemma processChunkQueue_effect (c : AppState) (w : World) (session live : ChunkSession)
    (chunk : Chunk) (rest : list Chunk) :
  chunkSession c = Some session ->
  pendingChunks session = chunk :: rest ->
  chunkSession (appState w) = Some live ->
  let w' := exec (processChunkQueue c) w in
  (exists more,
     modelCalls w' = (modelCalls w ++ (firstTier (aiMode session), images chunk) :: more)%list) /\
  exists live',
    chunkSession (appState w') = Some live' /\
    totalManifestsCaptured live' = totalManifestsCaptured live /\
    ((processedCount live' = processedCount live /\
      pendingChunks live' = pendingChunks live /\
      history (appState w') = history (appState w))
     \/
     (processedCount live' = (processedCount live + 1)%Z /\
      pendingChunks live' = tl (pendingChunks live) /\
      List.length (history (appState w')) = S (List.length (history (appState w))))).
Proof.
  intros Hs Hp Hl. cbv zeta.
  remember (exec (processChunkQueue c) w) as w' eqn:E.
  unfold exec, processChunkQueue in E. rewrite Hs, Hp, remaining_after_head in E.
  destruct (aiMode session); cbn [firstTier];
    repeat (step_in E; rewrite ?Hl in E; run_in E);
    destruct rest; run_in E; rewrite ?Hl in E; run_in E; subst w';
    (split;
     [ cbn [modelCalls]; rewrite <- ?app_assoc; cbn [List.app]; eexists; reflexivity
     | eexists; split; [reflexivity |]; split; [reflexivity |];
       first [ left; repeat split; reflexivity | right; repeat split; reflexivity ] ]).
Qed.

Lemma len_snoc {A} (l : list A) (x : A) : len (l ++ [x]) = (len l + 1)%Z.
Proof.
  unfold len. rewrite length_app. cbn [List.length]. lia.
Qed.

Lemma len_cons {A} (x : A) (l : list A) : len (x :: l) = (len l + 1)%Z.
Proof.
  unfold len. cbn [List.length]. lia.
Qed.

Lemma finishCurrentChunk_accounted (w : World) (o : option (list Image)) :
  sessionAccounted w -> sessionAccounted (exec (finishCurrentChunk (appState w) o) w).
Proof.
  unfold sessionAccounted, exec, finishCurrentChunk. intro H.
  destruct (chunkSession (appState w)) as [s |] eqn:Hs; [| cbn; now rewrite Hs].
  destruct (len _ =? 0)%Z; [cbn; now rewrite Hs |].
  cbn -[len Z.add]. rewrite len_snoc. lia.
Qed.

Lemma handleChunkCapture_accounted (w : World) (file : option Image) :
  sessionAccounted w -> sessionAccounted (exec (handleChunkCapture (appState w) file) w).
Proof.
  intro H. unfold handleChunkCapture.
  destruct (chunkSession (appState w)) as [s |] eqn:Hs;
    [| unfold sessionAccounted, exec; cbn; now rewrite Hs].
  destruct file as [img |]; [| exact H].
  destruct (5 <=? len _)%Z; [now apply finishCurrentChunk_accounted |].
  unfold sessionAccounted in *. rewrite Hs in H. exact H.
Qed.

Lemma processChunkQueue_accounted (w : World) :
  sessionAccounted w -> sessionAccounted (exec (processChunkQueue (appState w)) w).
Proof.
  intro H. unfold sessionAccounted in *.
  destruct (chunkSession (appState w)) as [s |] eqn:Hs;
    [| unfold exec, processChunkQueue; rewrite Hs; cbn; now rewrite Hs].
  destruct (pendingChunks s) as [| chunk rest] eqn:Hp;
    [unfold exec, processChunkQueue; rewrite Hs, Hp; cbn; now rewrite Hs, Hp |].
  destruct (processChunkQueue_effect (appState w) w s s chunk rest Hs Hp Hs)
    as (_ & live' & E & T & [(P & Q & _) | (P & Q & _)]);
    rewrite E, T, P, Q, ?Hp; cbn [tl]; [exact H |].
  rewrite H, len_cons. lia.
Qed.

(** A handler that does not touch the chunk session. *)
Ltac keep_session :=
  cbv zeta;
  repeat (lazymatch goal with
          | |- preserves _ (bind _ _) => apply preserves_bind; [| intro]
          | |- preserves _ (orElse _ _) => apply preserves_orElse
          | |- preserves _ (match ?x with _ => _ end) => destruct x
          | |- preserves _ (bulkImportLoop ?c ?t ?i ?fs ?acc) =>
              let w := fresh "w" in
              let H := fresh "H" in
              intros w H; unfold sessionAccounted;
              destruct (reads_bulkImportLoop c t fs i acc w) as [-> _]; exact H
          | |- preserves _ _ => let H := fresh "H" in intros ? H; exact H
          end; cbv zeta).

Lemma other_handlers_accounted (a : Action) (c : AppState) :
  match a with
  | StartChunkSession | ChunkCapture _ | FinishChunk _ | ProcessQueue => False
  | _ => True
  end ->
  preserves sessionAccounted (handlerOf a c).
Proof.
  destruct a; intro Ha; try contradiction; cbn [handlerOf].
  - unfold handleJsonFile, parseFailed, autoSaveManifest. keep_session.
  - unfold resolveConflict, openCandidate. keep_session.
  - unfold handleBulkJsonImport, executeBatchImport. keep_session.
  - unfold addRow. keep_session.
  - unfold updateRow. keep_session.
  - unfold deleteRow. keep_session.
  - unfold applyGlobalType. keep_session.
  - unfold recalculateRows. keep_session.
  - unfold saveManifest. keep_session.
  - unfold startBlankSession. keep_session.
  - unfold openManifestFromHistory. keep_session.
Qed.

(** X22. Accounting of a chunk session.  Every event of the user, its
    handler run for the current render, keeps the number of manifests the
    session has captured equal to the number it has processed plus the
    number waiting in its queue.  The follow-up calls that
    [processChunkQueue] schedules do not keep it: they work on the queue of
    the render that scheduled them.  With two manifests waiting and a
    recognition service that answers, the call of the user leaves one
    processed and one waiting, its follow-up two processed and none waiting,
    and the follow-up of that one three processed, of two captured. *)
Theorem steps_keep_session_accounted :
  (forall (l : list Action) (w : World),
     sessionAccounted w -> sessionAccounted (exec (steps l) w)) /\
  (let counts (w : World) :=
     option_map (fun s => (totalManifestsCaptured s, processedCount s,
                           len (pendingChunks s)))
       (chunkSession (appState w)) in
   let w := queuedWorld (scriptedEnv 3) in
   let w1 := exec (step ProcessQueue) w in
   let w2 := exec fireTimer w1 in
   let w3 := exec fireTimer w2 in
   counts w = Some (2, 0, 2)%Z /\
   counts w1 = Some (2, 1, 1)%Z /\
   counts w2 = Some (2, 2, 0)%Z /\
   counts w3 = Some (2, 3, 0)%Z /\
   sessionAccounted w /\ sessionAccounted w1 /\
   ~ sessionAccounted w3).
Proof.
  split.
  - intros l. induction l as [| a l IH]; intros w H; [exact H |].
    cbn [steps]. rewrite exec_bind. fold (exec (step a) w).
    apply IH. clear IH.
    unfold step, dispatch. rewrite exec_bind. cbn [getApp fst snd].
    destruct a;
      try (match goal with
           | |- sessionAccounted (exec (handlerOf ?a ?c) ?w) =>
               exact (other_handlers_accounted a c I w H)
           end);
      cbn [handlerOf].
    + unfold sessionAccounted. cbn. reflexivity.
    + now apply handleChunkCapture_accounted.
    + now apply finishCurrentChunk_accounted.
    + now apply processChunkQueue_accounted.
  - cbv zeta.
    split; [vm_compute; reflexivity |]. split; [vm_compute; reflexivity |].
    split; [vm_compute; reflexivity |]. split; [vm_compute; reflexivity |].
    split; [vm_compute; reflexivity |]. split; [vm_compute; reflexivity |].
    intro H. vm_compute in H. discriminate H.
Qed.

(** X23. The follow-up call works on the queue of the render that
    scheduled it.  After [processChunkQueue] has turned the first chunk of a
    longer queue into a manifest, the live queue starts with the second
    chunk; yet the call it scheduled, when it runs, sends the first chunk to
    the recognition service again. *)
Theorem followup_call_repeats_chunk (w : World) (session : ChunkSession)
    (chunk next : Chunk) (rest : list Chunk) (result : Recognition) :
  chunkSession (appState w) = Some session ->
  pendingChunks session = chunk :: next :: rest ->
  outcomeAt w (images chunk) 0 (firstTier (aiMode session)) = ModelResponds (Some result) ->
  timers w = [] ->
  let w1 := exec (step ProcessQueue) w in
  let w2 := exec fireTimer w1 in
  let request := (firstTier (aiMode session), images chunk) in
  option_map pendingChunks (chunkSession (appState w1)) = Some (next :: rest) /\
  modelCalls w1 = (modelCalls w ++ [request])%list /\
  exists more, modelCalls w2 = (modelCalls w ++ request :: request :: more)%list.
Proof.
  intros Hs Hp Hout Ht. cbv zeta.
  destruct (recognised_chunk_run w session chunk (next :: rest) result Hs Hp Hout)
    as (m & _ & _ & _ & _ & _ & _ & Q & _ & _ & _ & T & C).
  split; [exact Q |]. split; [exact C |].
  rewrite Ht in T. cbn [List.app] in T.
  remember (exec (step ProcessQueue) w) as w1 eqn:E1. clear E1.
  destruct (chunkSession (appState w1)) as [live1 |] eqn:L1; [| discriminate Q].
  destruct (processChunkQueue_effect (appState w)
              {| appState := appState w1; env := env w1; uuidCount := uuidCount w1;
                 clockReads := clockReads w1; ls_history := ls_history w1;
                 ls_folders := ls_folders w1; ls_chunkSession := ls_chunkSession w1;
                 modelCalls := modelCalls w1; alerts := alerts w1; timers := [] |}
              session live1 chunk (next :: rest) Hs Hp L1) as ((more & M) & _).
  exists more. unfold exec, fireTimer. rewrite T. cbv beta iota.
  unfold exec in M. rewrite M. cbn [modelCalls]. rewrite C.
  now rewrite <- app_assoc.
Qed.

End SessionAccounting.

(** ** The properties on concrete inputs *)

Lemma summary_slabs_cover_billable_weight_witness :
  (forall row, In row sampleRows -> type row = PARCEL -> -1 < weight row) /\
  (let s := summary sampleRows cfg321 in
   slab1Weight s + slab2Weight s + slab3Weight s == totalBillableWeight s).
Proof.
  assert (H : forall row, In row sampleRows -> type row = PARCEL -> -1 < weight row).
  { intros row [<- | [<- | [<- | [<- | []]]]] _; vm_compute; reflexivity. }
  split; [exact H |].
  exact (summary_slabs_cover_billable_weight sampleRows cfg321 H).
Defined.

Lemma editor_keeps_rows_numbered_witness :
  forallb isEditorAction editingSession = true /\
  numberedFrom 0 (rows (appState (initialWorld (scriptedEnv 0)))) /\
  numberedFrom 0 (rows (appState (exec (steps editingSession) (initialWorld (scriptedEnv 0))))).
Proof.
  assert (H1 : forallb isEditorAction editingSession = true) by reflexivity.
  assert (H2 : numberedFrom 0 (rows (appState (initialWorld (scriptedEnv 0))))) by reflexivity.
  split; [exact H1 |]. split; [exact H2 |].
  exact (editor_keeps_rows_numbered editingSession (initialWorld (scriptedEnv 0)) H1 H2).
Defined.

Lemma addRow_then_deleteRow_witness :
  let newId := uuidAt (env oneRowWorld) (uuidCount oneRowWorld) in
  numberedFrom 0 (rows (appState oneRowWorld)) /\
  (forall r, In r (rows (appState oneRowWorld)) -> id r <> newId) /\
  rows (appState (exec (step AddRow ;; step (DeleteRow newId)) oneRowWorld))
    = rows (appState oneRowWorld).
Proof.
  assert (H1 : numberedFrom 0 (rows (appState oneRowWorld))) by (vm_compute; reflexivity).
  assert (H2 : forall r, In r (rows (appState oneRowWorld)) ->
               id r <> uuidAt (env oneRowWorld) (uuidCount oneRowWorld)).
  { intros r Hr. vm_compute in Hr. destruct Hr as [<- | []]. vm_compute. discriminate. }
  split; [exact H1 |]. split; [exact H2 |].
  exact (addRow_then_deleteRow oneRowWorld H1 H2).
Defined.

Lemma saveManifest_twice_witness :
  let w := initialWorld (scriptedEnv 0) in
  let newId := uuidAt (env w) (uuidCount w) in
  let w1 := exec (step SaveManifest) w in
  let edits := [AddRow; AddRow; DeleteRow "uuid-1"] in
  let w2 := exec (steps edits) w1 in
  let w3 := exec (step SaveManifest) w2 in
  truthy (activeManifestId (appState w)) = None /\
  newId <> EmptyString /\
  forallb isEditorAction edits = true /\
  map (fun h => (m_id h, itemCount h)) (history (appState w1)) = [("uuid-0"%string, 0%Z)] /\
  map (fun h => (m_id h, itemCount h)) (history (appState w3)) = [("uuid-0"%string, 1%Z)] /\
  ls_history w3 = Some (history (appState w3)) /\
  activeManifestId (appState w3) = Some newId.
Proof.
  assert (H1 : truthy (activeManifestId (appState (initialWorld (scriptedEnv 0)))) = None)
    by reflexivity.
  assert (H2 : uuidAt (env (initialWorld (scriptedEnv 0)))
                 (uuidCount (initialWorld (scriptedEnv 0))) <> EmptyString)
    by (vm_compute; discriminate).
  assert (H3 : forallb isEditorAction [AddRow; AddRow; DeleteRow "uuid-1"] = true)
    by reflexivity.
  split; [exact H1 |]. split; [exact H2 |]. split; [exact H3 |].
  destruct (saveManifest_twice (initialWorld (scriptedEnv 0))
              [AddRow; AddRow; DeleteRow "uuid-1"] H1 H2 H3)
    as (_ & _ & _ & _ & _ & L3 & _ & A3 & _ & _).
  split; [vm_compute; reflexivity |]. split; [vm_compute; reflexivity |].
  split; [exact L3 | exact A3].
Defined.

Lemma saveManifest_of_removed_manifest_witness :
  let w := world savedThenBinned in
  truthy (activeManifestId (appState w)) = Some "uuid-0" /\
  (forall h, In h (history (appState w)) -> m_id h <> "uuid-0") /\
  (let w' := exec (step SaveManifest) w in
   history (appState w') = history (appState w) /\
   ls_history w' = Some (history (appState w)) /\
   activeManifestId (appState w') = Some "uuid-0" /\
   option_map st_type (status (appState w')) = Some st_success).
Proof.
  assert (H1 : truthy (activeManifestId (appState (world savedThenBinned))) = Some "uuid-0")
    by (vm_compute; reflexivity).
  assert (H2 : forall h, In h (history (appState (world savedThenBinned))) ->
               m_id h <> "uuid-0").
  { intros h Hh. vm_compute in Hh. destruct Hh. }
  split; [exact H1 |]. split; [exact H2 |].
  exact (saveManifest_of_removed_manifest (world savedThenBinned) "uuid-0" H1 H2).
Defined.

Lemma softDeleteManifest_moves_one_witness :
  exists m,
    let d := importedDesk in
    let i := "uuid-1"%string in
    let a := appState (world d) in
    let a' := appState (world (execD (dispatchD (deskHandlerOf (SoftDelete i true))) d)) in
    NoDup (map m_id (history a)) /\
    find (hasId i) (history a) = Some m /\
    recycleBin a' = m :: recycleBin a /\
    S (List.length (history a')) = List.length (history a) /\
    (forall h, In h (history a') <-> In h (history a) /\ m_id h <> i).
Proof.
  assert (H1 : NoDup (map m_id (history (appState (world importedDesk))))).
  { vm_compute. repeat constructor. intros []. }
  destruct (find (hasId "uuid-1") (history (appState (world importedDesk)))) as [m |] eqn:H2;
    [| vm_compute in H2; discriminate H2].
  exists m. cbv zeta. split; [exact H1 |]. split; [exact H2 |].
  exact (softDeleteManifest_moves_one importedDesk "uuid-1" m H1 H2).
Defined.

Lemma softDelete_then_restore_witness :
  exists m,
    let d := importedDesk in
    let i := "uuid-1"%string in
    let a := appState (world d) in
    let d1 := execD (dispatchD (deskHandlerOf (SoftDelete i true))) d in
    let a2 := appState (world (execD (dispatchD (deskHandlerOf (Restore i))) d1)) in
    NoDup (map m_id (history a)) /\
    find (hasId i) (history a) = Some m /\
    (forall h, In h (recycleBin a) -> m_id h <> i) /\
    recycleBin a2 = recycleBin a /\
    history a2 = m :: filter (fun h => negb (hasId i h)) (history a) /\
    List.length (history a2) = List.length (history a) /\
    (forall h, In h (history a2) <-> In h (history a)).
Proof.
  assert (H1 : NoDup (map m_id (history (appState (world importedDesk))))).
  { vm_compute. repeat constructor. intros []. }
  assert (H3 : forall h, In h (recycleBin (appState (world importedDesk))) ->
               m_id h <> "uuid-1"%string).
  { intros h Hh. vm_compute in Hh. destruct Hh. }
  destruct (find (hasId "uuid-1") (history (appState (world importedDesk)))) as [m |] eqn:H2;
    [| vm_compute in H2; discriminate H2].
  exists m. cbv zeta. split; [exact H1 |]. split; [exact H2 |]. split; [exact H3 |].
  exact (softDelete_then_restore importedDesk "uuid-1" m H1 H2 H3).
Defined.

Lemma handlers_keep_state_persisted_witness :
  let d := initialDesk (initialWorld (scriptedEnv 0)) in
  persistedDesk d /\
  persistedDesk (execD (deskHandlerOf (OnApp (ImportJson (manifestFile "a.json" "MF-1" 5))) d) d).
Proof.
  assert (H : persistedDesk (initialDesk (initialWorld (scriptedEnv 0)))).
  { repeat split. }
  split; [exact H |].
  exact (handlers_keep_state_persisted
           (OnApp (ImportJson (manifestFile "a.json" "MF-1" 5)))
           (initialDesk (initialWorld (scriptedEnv 0)))
           (initialDesk (initialWorld (scriptedEnv 0))) H).
Defined.

Lemma handlers_keep_totals_witness :
  consistentApp (appState (world importedDesk)) /\
  consistentApp
    (appState (world (execD (dispatchD (deskHandlerOf (SoftDelete "uuid-1" true)))
                            importedDesk))).
Proof.
  assert (H : consistentApp (appState (world importedDesk))).
  { split; [| split].
    - vm_compute. repeat constructor.
    - vm_compute. constructor.
    - vm_compute. exact I. }
  split; [exact H |].
  exact (handlers_keep_totals (SoftDelete "uuid-1" true) importedDesk H).
Defined.

Lemma processChunkQueue_failure_witness :
  exists session chunk rest,
    let w := queuedWorld (scriptedEnv 0) in
    let c := appState w in
    chunkSession c = Some session /\
    pendingChunks session = chunk :: rest /\
    (forall n t i, modelAt (env w) n t i = ModelThrows) /\
    (let w' := exec (processChunkQueue c) w in
     let live := chunkSession (appState w) in
     let live' := chunkSession (appState w') in
     history (appState w') = history (appState w) /\
     ls_history w' = ls_history w /\
     option_map pendingChunks live' = option_map pendingChunks live /\
     option_map processedCount live' = option_map processedCount live /\
     option_map isProcessing live' = option_map (fun _ => false) live /\
     option_map statusLog live'
       = option_map (fun _ => "Processing paused due to error. Resume when ready."%string) live /\
     ls_chunkSession w' = live' /\
     timers w' = timers w /\
     List.length (modelCalls w') =
       (List.length (modelCalls w)
        + match aiMode session with ModeDefault => 2 | ModeHybrid => 3 | ModeAuto => 5 end)%nat).
Proof.
  destruct (chunkSession (appState (queuedWorld (scriptedEnv 0)))) as [session |] eqn:H1;
    [| vm_compute in H1; discriminate H1].
  destruct (pendingChunks session) as [| chunk rest] eqn:H2.
  { vm_compute in H1. injection H1 as <-. vm_compute in H2. discriminate H2. }
  assert (H3 : forall n t i, modelAt (env (queuedWorld (scriptedEnv 0))) n t i = ModelThrows).
  { intros n t i. vm_compute. reflexivity. }
  exists session, chunk, rest. cbv zeta.
  split; [exact H1 |]. split; [exact H2 |]. split; [exact H3 |].
  exact (processChunkQueue_failure (appState (queuedWorld (scriptedEnv 0)))
           (queuedWorld (scriptedEnv 0)) session chunk rest H1 H2 H3).
Defined.

Lemma processChunkQueue_success_witness :
  exists session chunk rest,
    let w := queuedWorld (scriptedEnv 1) in
    chunkSession (appState w) = Some session /\
    pendingChunks session = chunk :: rest /\
    outcomeAt w (images chunk) 0 (firstTier (aiMode session)) = ModelResponds (Some oneParcel) /\
    (let w' := exec (step ProcessQueue) w in
     let live' := chunkSession (appState w') in
     exists m,
       history (appState w') = m :: history (appState w) /\
       ls_history w' = Some (m :: history (appState w)) /\
       folderId m = Some (cs_folderId session) /\
       List.length (m_rows m) = List.length (itemsOf oneParcel) /\
       m_config m = globalConfig (appState w) /\
       totalsMatch m /\
       option_map pendingChunks live' = Some rest /\
       option_map processedCount live' = Some (processedCount session + 1)%Z /\
       option_map isProcessing live'
         = Some (match rest with [] => false | _ :: _ => true end) /\
       ls_chunkSession w' = live' /\
       timers w' = (timers w ++ match rest with [] => [] | _ :: _ => [appState w] end)%list /\
       modelCalls w' = (modelCalls w ++ [(firstTier (aiMode session), images chunk)])%list).
Proof.
  destruct (chunkSession (appState (queuedWorld (scriptedEnv 1)))) as [session |] eqn:H1;
    [| vm_compute in H1; discriminate H1].
  destruct (pendingChunks session) as [| chunk rest] eqn:H2.
  { vm_compute in H1. injection H1 as <-. vm_compute in H2. discriminate H2. }
  assert (H3 : outcomeAt (queuedWorld (scriptedEnv 1)) (images chunk) 0
                 (firstTier (aiMode session)) = ModelResponds (Some oneParcel)).
  { vm_compute in H1. injection H1 as <-. vm_compute. reflexivity. }
  exists session, chunk, rest. cbv zeta.
  split; [exact H1 |]. split; [exact H2 |]. split; [exact H3 |].
  exact (processChunkQueue_success (queuedWorld (scriptedEnv 1)) session chunk rest
           oneParcel H1 H2 H3).
Defined.

Lemma handleBulkJsonImport_reports_witness :
  let c := bulkApp in
  let w := initialWorld (scriptedEnv 0) in
  (len twoFiles <= 30)%Z /\
  (bulkImportFolderId c = "new"%string -> isBlank (bulkImportNewFolderName c) = false) /\
  (let w' := exec (handleBulkJsonImport c twoFiles) w in
   let results := bulkImportResults (appState w') in
   map fileName results = map file_name twoFiles /\
   exists imported,
     history (appState w') = (imported ++ history (appState w))%list /\
     ls_history w' = Some (imported ++ history (appState w))%list /\
     List.length imported = List.length (filter isImported results) /\
     Forall (fun m => folderId m = Some (bulkImportTarget c w)) imported).
Proof.
  assert (H1 : (len twoFiles <= 30)%Z) by (vm_compute; discriminate).
  assert (H2 : bulkImportFolderId bulkApp = "new"%string ->
               isBlank (bulkImportNewFolderName bulkApp) = false).
  { intro H. vm_compute in H. discriminate H. }
  split; [exact H1 |]. split; [exact H2 |].
  exact (handleBulkJsonImport_reports bulkApp (initialWorld (scriptedEnv 0)) twoFiles H1 H2).
Defined.

Lemma followup_call_repeats_chunk_witness :
  exists session chunk next rest,
    let w := queuedWorld (scriptedEnv 1) in
    chunkSession (appState w) = Some session /\
    pendingChunks session = chunk :: next :: rest /\
    outcomeAt w (images chunk) 0 (firstTier (aiMode session)) = ModelResponds (Some oneParcel) /\
    timers w = [] /\
    (let w1 := exec (step ProcessQueue) w in
     let w2 := exec fireTimer w1 in
     let request := (firstTier (aiMode session), images chunk) in
     option_map pendingChunks (chunkSession (appState w1)) = Some (next :: rest) /\
     modelCalls w1 = (modelCalls w ++ [request])%list /\
     exists more, modelCalls w2 = (modelCalls w ++ request :: request :: more)%list).
Proof.
  destruct (chunkSession (appState (queuedWorld (scriptedEnv 1)))) as [session |] eqn:H1;
    [| vm_compute in H1; discriminate H1].
  destruct (pendingChunks session) as [| chunk [| next rest]] eqn:H2.
  { vm_compute in H1. injection H1 as <-. vm_compute in H2. discriminate H2. }
  { vm_compute in H1. injection H1 as <-. vm_compute in H2. discriminate H2. }
  assert (H3 : outcomeAt (queuedWorld (scriptedEnv 1)) (images chunk) 0
                 (firstTier (aiMode session)) = ModelResponds (Some oneParcel)).
  { vm_compute in H1. injection H1 as <-. vm_compute. reflexivity. }
  assert (H4 : timers (queuedWorld (scriptedEnv 1)) = []) by (vm_compute; reflexivity).
  exists session, chunk, next, rest. cbv zeta.
  split; [exact H1 |]. split; [exact H2 |]. split; [exact H3 |]. split; [exact H4 |].
  exact (followup_call_repeats_chunk (queuedWorld (scriptedEnv 1)) session chunk next rest
           oneParcel H1 H2 H3 H4).
Defined.
